(** * Sukhoi3d: the animation core of [src/main.js]

    A shallow embedding of the scroll mapper, the pose interpolator, the
    gesture signal filter, the per-frame motion blender and the hand-control
    toggle of [src/main.js], with the properties the specification states
    about them.

    Numbers.  A JavaScript Number is modelled by [num]: an exact rational, or
    one of the three special values [+Infinity], [-Infinity] and [NaN], with
    the IEEE rules for the special values (division by zero, [NaN]
    propagation, comparisons with [NaN] being false).  Rounding and the sign
    of zero are not modelled: finite arithmetic is exact, and a zero divisor
    counts as [+0].  Equality of numbers is [num_eq], the equality of
    rationals on finite values.

    Host functions.  [Math.sin], [Math.cos], [Math.hypot] and [Math.PI] are
    not rational; they are taken as an interface ([HostMath]).  The three.js
    methods used on vectors ([copy], [lerp], [lerpVectors]) follow the
    three.js definitions.  DOM updates that do not feed back into the
    animation state are left out and marked where they occur. *)

From Stdlib Require Import QArith Qround Qabs Lqa ZArith Lia List String Bool.
Import ListNotations.

(* ================================================================== *)
(** ** JavaScript numbers *)
(* ================================================================== *)

Inductive num : Type :=
| Fin (q : Q)
| PInf
| NInf
| NaN.

Coercion Fin : Q >-> num.

Declare Scope num_scope.
Delimit Scope num_scope with num.
Bind Scope num_scope with num.

(** Sign of a number as a comparison with zero ([Eq] also for [NaN]). *)
Definition sgn (a : num) : comparison :=
  match a with
  | Fin q => (q ?= 0)%Q
  | PInf => Gt
  | NInf => Lt
  | NaN => Eq
  end.

Definition sgn_mul (s t : comparison) : comparison :=
  match s, t with
  | Eq, _ | _, Eq => Eq
  | Gt, Gt | Lt, Lt => Gt
  | _, _ => Lt
  end.

(** The infinity of a given sign; [NaN] for no sign ([0/0], [0 * Infinity]). *)
Definition inf_of (s : comparison) : num :=
  match s with
  | Gt => PInf
  | Lt => NInf
  | Eq => NaN
  end.

Definition nneg (a : num) : num :=
  match a with
  | Fin q => Fin (- q)
  | PInf => NInf
  | NInf => PInf
  | NaN => NaN
  end.

Definition nadd (a b : num) : num :=
  match a, b with
  | NaN, _ | _, NaN => NaN
  | Fin p, Fin q => Fin (p + q)
  | PInf, NInf | NInf, PInf => NaN
  | PInf, _ | _, PInf => PInf
  | NInf, _ | _, NInf => NInf
  end.

Definition nsub (a b : num) : num := nadd a (nneg b).

Definition nmul (a b : num) : num :=
  match a, b with
  | NaN, _ | _, NaN => NaN
  | Fin p, Fin q => Fin (p * q)
  | _, _ => inf_of (sgn_mul (sgn a) (sgn b))
  end.

Definition ndiv (a b : num) : num :=
  match a, b with
  | NaN, _ | _, NaN => NaN
  | Fin p, Fin q => if Qeq_bool q 0 then inf_of (p ?= 0)%Q else Fin (p / q)
  | Fin _, _ => Fin 0
  | _, Fin q => inf_of (sgn_mul (sgn a) (if Qeq_bool q 0 then Gt else (q ?= 0)%Q))
  | _, _ => NaN
  end.

(** [a < b]; false as soon as one side is [NaN]. *)
Definition nlt (a b : num) : bool :=
  match a, b with
  | NaN, _ | _, NaN => false
  | Fin p, Fin q => negb (Qle_bool q p)
  | NInf, NInf | PInf, _ | _, NInf => false
  | _, _ => true
  end.

Notation "a + b" := (nadd a b) : num_scope.
Notation "a - b" := (nsub a b) : num_scope.
Notation "a * b" := (nmul a b) : num_scope.
Notation "a / b" := (ndiv a b) : num_scope.
Notation "- a" := (nneg a) : num_scope.
Notation "a <? b" := (nlt a b) : num_scope.

Definition Math_floor (a : num) : num :=
  match a with
  | Fin q => Fin (inject_Z (Qfloor q))
  | _ => a
  end.

Definition Math_min (a b : num) : num :=
  match a, b with
  | NaN, _ | _, NaN => NaN
  | _, _ => if nlt b a then b else a
  end.

Definition Math_max (a b : num) : num :=
  match a, b with
  | NaN, _ | _, NaN => NaN
  | _, _ => if nlt a b then b else a
  end.

(** [Math.pow] at a natural exponent. *)
Fixpoint Math_pow (a : num) (n : nat) : num :=
  match n with
  | O => Fin 1
  | S m => nmul a (Math_pow a m)
  end.

(** Equality of numbers: rational equality on finite values. *)
Definition num_eq (a b : num) : Prop :=
  match a, b with
  | Fin p, Fin q => (p == q)%Q
  | PInf, PInf | NInf, NInf | NaN, NaN => True
  | _, _ => False
  end.

Infix "=~" := num_eq (at level 70, no associativity) : num_scope.

Definition isNaN (a : num) : bool :=
  match a with NaN => true | _ => false end.

Definition isFinite (a : num) : bool :=
  match a with Fin _ => true | _ => false end.

(** Indexing an array by a number: defined at the natural numbers below the
    length, [undefined] (here [None]) everywhere else. *)
Definition is_index (q : Q) : bool :=
  Qeq_bool (inject_Z (Qfloor q)) q && (0 <=? Qfloor q)%Z.

Definition array_get {A : Type} (arr : list A) (i : num) : option A :=
  match i with
  | Fin q => if is_index q then nth_error arr (Z.to_nat (Qfloor q)) else None
  | _ => None
  end.

Definition array_length {A : Type} (arr : list A) : num :=
  Fin (inject_Z (Z.of_nat (List.length arr))).

(* ================================================================== *)
(** ** three.js vectors *)
(* ================================================================== *)

Module THREE.

Record Vector3 : Type := mkVector3 { x : num; y : num; z : num }.

(** [v.lerp(w, alpha)]: each component moves by [(w - v) * alpha]. *)
Definition lerp (v w : Vector3) (alpha : num) : Vector3 :=
  {| x := (x v + (x w - x v) * alpha)%num;
     y := (y v + (y w - y v) * alpha)%num;
     z := (z v + (z w - z v) * alpha)%num |}.

(** [t.lerpVectors(v1, v2, alpha)]: [v1 + (v2 - v1) * alpha]. *)
Definition lerpVectors (v1 v2 : Vector3) (alpha : num) : Vector3 :=
  {| x := (x v1 + (x v2 - x v1) * alpha)%num;
     y := (y v1 + (y v2 - y v1) * alpha)%num;
     z := (z v1 + (z v2 - z v1) * alpha)%num |}.

Definition vec_eq (v w : Vector3) : Prop :=
  num_eq (x v) (x w) /\ num_eq (y v) (y w) /\ num_eq (z v) (z w).

Definition vec_finite (v : Vector3) : bool :=
  isFinite (x v) && isFinite (y v) && isFinite (z v).

End THREE.

Abbreviation Vector3 := THREE.Vector3.
Abbreviation vec a b c := (THREE.mkVector3 a b c).

(** A position with a rotation: a keyframe of [CONFIG.aircraftPositions],
    and also the part of the aircraft object the animation writes. *)
Record Pose : Type := mkPose { position : Vector3; rotation : Vector3 }.

Definition pose_eq (a b : Pose) : Prop :=
  THREE.vec_eq (position a) (position b) /\ THREE.vec_eq (rotation a) (rotation b).

(* ================================================================== *)
(** ** Configuration *)
(* ================================================================== *)

Module CONFIG.
Open Scope Q_scope.

Definition fixedCamera_position : Vector3 := vec 0 2 20.
Definition fixedCamera_target : Vector3 := vec 0 0 0.
Definition fixedCamera_fov : num := 35.

Definition aircraftPositions : list Pose :=
  [ mkPose (vec 10 0 0)   (vec 1.57 0 0);
    mkPose (vec (-2) 0 3) (vec 0.6 3.14 (-0.1));
    mkPose (vec (-2) 0 0) (vec 0 1.5 (-0.1));
    mkPose (vec 0 0 8)    (vec 0.3 2.6 (-0.15));
    mkPose (vec 0 (-3) 0) (vec (-1.5) 0.4 0.2);
    mkPose (vec 1 (-1) 4) (vec 0.7 (-0.6) (-0.1));
    mkPose (vec 0 (-2) 0) (vec 0.5 2.9 (-0.5)) ].

End CONFIG.

(* ================================================================== *)
(** ** Module state *)
(* ================================================================== *)

(** The module-level variables of [main.js], grouped by the handler that
    writes them. *)

Record ScrollVars : Type := mkScrollVars {
  scrollProgress : num;
  currentSection : num;
  targetCameraPosition : Vector3;
  targetCameraTarget : Vector3;
  targetAircraftPosition : Vector3;
  targetAircraftRotation : Vector3 }.

Record HandVars : Type := mkHandVars {
  handPosition : Vector3;
  handRotation : Vector3;
  handZoom : num;
  isHandDetected : bool }.

(** [aircraft] is [None] until the model has loaded. *)
Record SceneVars : Type := mkSceneVars {
  aircraft : option Pose;
  camera_position : Vector3;
  camera_fov : num;
  controls_target : Vector3 }.

(** [hands] and [handCtx] are references: [true] for an object, [false] for
    [null].  [overlay_shown] is the common [display] of the video, the
    canvas, the indicator and the status line. *)
Record UiVars : Type := mkUiVars {
  handControlEnabled : bool;
  hands : bool;
  handCtx : bool;
  btn_innerHTML : string;
  video_srcObject : bool;
  overlay_shown : bool }.

Record State : Type := mkState {
  scroll : ScrollVars;
  hand : HandVars;
  scene : SceneVars;
  ui : UiVars }.

(** The markup of the button.  The svg icon of the initial markup is
    abbreviated to [<svg/>]. *)
Definition label_initial : string :=
  "<svg/><span>HAND CONTROL</span>".
Definition label_idle : string := "<span>HAND CONTROL</span>".
Definition label_loading : string := "<span>LOADING...</span>".
Definition label_stop : string := "<span>STOP CONTROL</span>".

(** [CONFIG.aircraftPositions[0]] *)
Definition hero : Pose :=
  nth 0 CONFIG.aircraftPositions (mkPose (vec NaN NaN NaN) (vec NaN NaN NaN)).

(** The state after [init()], before the model has loaded. *)
Definition init : State :=
  {| scroll :=
       {| scrollProgress := 0%Q;
          currentSection := 0%Q;
          targetCameraPosition := CONFIG.fixedCamera_position;
          targetCameraTarget := CONFIG.fixedCamera_target;
          targetAircraftPosition := position hero;
          targetAircraftRotation := rotation hero |};
     hand :=
       {| handPosition := vec 0.5%Q 0.5%Q 0%Q;
          handRotation := vec 0%Q 0%Q 0%Q;
          handZoom := 1%Q;
          isHandDetected := false |};
     scene :=
       {| aircraft := None;
          camera_position := CONFIG.fixedCamera_position;
          camera_fov := CONFIG.fixedCamera_fov;
          controls_target := vec 0%Q 0%Q 0%Q |};
     ui :=
       {| handControlEnabled := false;
          hands := false;
          handCtx := true;
          btn_innerHTML := label_initial;
          video_srcObject := false;
          overlay_shown := false |} |}.

(** Exceptions and promise rejections. *)
Inductive exn : Type :=
| TypeError
| ScriptLoadError
| CameraError
| PlayError.

(* ================================================================== *)
(** ** Scroll mapper and pose interpolator: [onScroll] *)
(* ================================================================== *)

Section Scroll.
Open Scope Q_scope.
Open Scope num_scope.

(** [total = CONFIG.aircraftPositions.length] *)
Definition total : num := array_length CONFIG.aircraftPositions.

Definition docHeight (scrollHeight innerHeight : num) : num :=
  scrollHeight - innerHeight.

Definition secProg (progress : num) : num := progress * (total - 1).

Definition sectionIndex (progress : num) : num := Math_floor (secProg progress).

Definition blend (progress : num) : num :=
  secProg progress - sectionIndex progress.

Definition ease (t : num) : num :=
  if t <? 0.5 then 4 * t * t * t
  else 1 - Math_pow (-2 * t + 2) 3 / 2.

(** The handler, on [window.scrollY], [document.documentElement.scrollHeight]
    and [window.innerHeight].  The result carries the exception raised by
    reading [.position] of [undefined], if any, with the state as the
    handler left it. *)
Definition onScroll (scrollY scrollHeight innerHeight : num) (st : State)
  : State * option exn :=
  let scrollTop := scrollY in
  let progress := scrollTop / docHeight scrollHeight innerHeight in
  let section := sectionIndex progress in
  (* updateScrollProgress, updateNavigation: DOM only *)
  let sc1 :=
    {| scrollProgress := progress;
       currentSection := section;
       targetCameraPosition := CONFIG.fixedCamera_position;
       targetCameraTarget := CONFIG.fixedCamera_target;
       targetAircraftPosition := targetAircraftPosition (scroll st);
       targetAircraftRotation := targetAircraftRotation (scroll st) |} in
  let scene1 :=
    {| aircraft := aircraft (scene st);
       camera_position := camera_position (scene st);
       camera_fov := CONFIG.fixedCamera_fov;
       controls_target := controls_target (scene st) |} in
  let retarget (p r : Vector3) : State :=
    {| scroll :=
         {| scrollProgress := progress;
            currentSection := section;
            targetCameraPosition := CONFIG.fixedCamera_position;
            targetCameraTarget := CONFIG.fixedCamera_target;
            targetAircraftPosition := p;
            targetAircraftRotation := r |};
       hand := hand st; scene := scene1; ui := ui st |} in
  let thrown : State * option exn :=
    ({| scroll := sc1; hand := hand st; scene := scene1; ui := ui st |},
     Some TypeError) in
  if section <? total - 1 then
    match array_get CONFIG.aircraftPositions section,
          array_get CONFIG.aircraftPositions (section + 1) with
    | Some cAir, Some nAir =>
        let e := ease (blend progress) in
        (retarget (THREE.lerpVectors (position cAir) (position nAir) e)
                  (THREE.lerpVectors (rotation cAir) (rotation nAir) e),
         None)
    | _, _ => thrown
    end
  else
    match array_get CONFIG.aircraftPositions (total - 1) with
    | Some lastAir => (retarget (position lastAir) (rotation lastAir), None)
    | None => thrown
    end.
  (* updateHUD, animateInfoCards, updateParallaxBackground: DOM only *)

End Scroll.

(* ================================================================== *)
(** ** Host mathematics *)
(* ================================================================== *)

Class HostMath : Type := {
  Math_sin : num -> num;
  Math_cos : num -> num;
  Math_hypot : num -> num -> num;
  Math_PI : num }.

(* ================================================================== *)
(** ** Gesture signal filter: [onHandResults] *)
(* ================================================================== *)

Section Gesture.
Context {host : HostMath}.
Open Scope Q_scope.
Open Scope num_scope.

(** A landmark is an object with [x], [y], [z]; a hand is an array of
    landmarks; [results.multiHandLandmarks] is an optional array of hands. *)
Definition Landmarks : Type := list Vector3.
Definition Results : Type := option (list Landmarks).

Definition avgFingerDist (indexTip middleTip ringTip pinky palm : Vector3) : num :=
  (Math_hypot (THREE.x indexTip - THREE.x palm) (THREE.y indexTip - THREE.y palm) +
   Math_hypot (THREE.x middleTip - THREE.x palm) (THREE.y middleTip - THREE.y palm) +
   Math_hypot (THREE.x ringTip - THREE.x palm) (THREE.y ringTip - THREE.y palm) +
   Math_hypot (THREE.x pinky - THREE.x palm) (THREE.y pinky - THREE.y palm)) / 4.

Definition normalizedOpen (avgDist : num) : num :=
  Math_max 0 (Math_min 1 ((avgDist - 0.08) / 0.15)).

Definition targetZoom (normalized : num) : num := 0.5 + normalized * 1.5.

Definition set_isHandDetected (b : bool) (st : State) : State :=
  {| scroll := scroll st;
     hand := {| handPosition := handPosition (hand st);
                handRotation := handRotation (hand st);
                handZoom := handZoom (hand st);
                isHandDetected := b |};
     scene := scene st;
     ui := ui st |}.

Definition onHandResults (results : Results) (st : State) : State * option exn :=
  if negb (handCtx (ui st)) then (st, None)
  else
    match results with
    | Some (lm :: _) =>
        match nth_error lm 8, nth_error lm 4, nth_error lm 0, nth_error lm 9,
              nth_error lm 20, nth_error lm 12, nth_error lm 16 with
        | Some indexTip, Some thumbTip, Some wrist, Some palm,
          Some pinky, Some middleTip, Some ringTip =>
            let h := hand st in
            let zoom := targetZoom (normalizedOpen
                          (avgFingerDist indexTip middleTip ringTip pinky palm)) in
            let hp := handPosition h in
            let hr := handRotation h in
            ({| scroll := scroll st;
                hand :=
                  {| handZoom := handZoom h + (zoom - handZoom h) * 0.1;
                     handPosition :=
                       vec (THREE.x hp + (THREE.x indexTip - THREE.x hp) * 0.15)
                           (THREE.y hp + (THREE.y indexTip - THREE.y hp) * 0.15)
                           (THREE.z hp + (THREE.z indexTip - THREE.z hp) * 0.15);
                     handRotation :=
                       vec (THREE.x hr + ((THREE.y palm - THREE.y wrist) * 2 - THREE.x hr) * 0.15)
                           (THREE.y hr + ((THREE.x indexTip - 0.5) * 2 - THREE.y hr) * 0.15)
                           (THREE.z hr + ((THREE.y thumbTip - THREE.y pinky) * 2 - THREE.z hr) * 0.15);
                     isHandDetected := true |};
                scene := scene st;
                ui := ui st |}, None)
            (* indicator and status line: DOM only *)
        | _, _, _, _, _, _, _ => (set_isHandDetected true st, Some TypeError)
        end
    | _ => (set_isHandDetected false st, None)
    end.

End Gesture.

(* ================================================================== *)
(** ** Motion blender and frame driver: [animate] *)
(* ================================================================== *)

Section Animate.
Context {host : HostMath}.
Open Scope Q_scope.
Open Scope num_scope.

(** The target of the aircraft position in gesture mode. *)
Definition handTargetPosition (h : HandVars) : Vector3 :=
  let hx := (0.5 - THREE.x (handPosition h)) * 10 in
  let hy := (0.5 - THREE.y (handPosition h)) * 6 in
  let hz := THREE.z (handPosition h) * -5 in
  vec hx hy hz.

(** The targets of the aircraft rotation in gesture mode. *)
Definition handTargetRotation (h : HandVars) : Vector3 :=
  vec (THREE.x (handRotation h) * 0.8)
      (THREE.y (handRotation h) * 1.5)
      (THREE.z (handRotation h) * 0.6).

Definition targetFov (zoom : num) : num := 50 / zoom.

(** The target of the aircraft position in scroll mode: [tp]. *)
Definition scrollTargetPosition (elapsed : num) (sc : ScrollVars) : Vector3 :=
  let tp := targetAircraftPosition sc in
  vec (THREE.x tp + Math_sin (elapsed * 0.5 + scrollProgress sc * Math_PI * 2) * 0.5)
      (THREE.y tp + Math_cos (elapsed * 0.7 + scrollProgress sc * Math_PI) * 0.3)
      (THREE.z tp + Math_sin (elapsed * 0.4 + scrollProgress sc * Math_PI * 1.5) * 0.4).

(** The targets of the aircraft rotation in scroll mode. *)
Definition scrollTargetRotation (elapsed : num) (sc : ScrollVars) : Vector3 :=
  let rotY := THREE.y (targetAircraftRotation sc) + Math_sin (elapsed * 0.3) * 0.1 in
  vec (THREE.x (targetAircraftRotation sc) + Math_cos (elapsed * 0.6) * 0.03)
      rotY
      (THREE.z (targetAircraftRotation sc) + Math_sin (elapsed * 0.8) * 0.05).

(** [r.c += (target.c - r.c) * alpha] on the three components. *)
Definition approach (r target : Vector3) (alpha : num) : Vector3 :=
  vec (THREE.x r + (THREE.x target - THREE.x r) * alpha)
      (THREE.y r + (THREE.y target - THREE.y r) * alpha)
      (THREE.z r + (THREE.z target - THREE.z r) * alpha).

Definition breathe (elapsed : num) (p : Vector3) : Vector3 :=
  vec (THREE.x p) (THREE.y p + Math_sin (elapsed * 0.8) * 0.003) (THREE.z p).

(** One frame at clock time [elapsed].  The mixer update, the update of the
    (disabled) orbit controls and the draw call are left out. *)
Definition animate (elapsed : num) (st : State) : State :=
  let sn := scene st in
  let cam_pos := THREE.lerp (camera_position sn) (targetCameraPosition (scroll st)) 0.05 in
  let ctl_tgt := THREE.lerp (controls_target sn) (targetCameraTarget (scroll st)) 0.05 in
  match aircraft sn with
  | Some a =>
      if handControlEnabled (ui st) && isHandDetected (hand st) then
        let pos := THREE.lerp (position a) (handTargetPosition (hand st)) 0.08 in
        let rot := approach (rotation a) (handTargetRotation (hand st)) 0.06 in
        let fov := camera_fov sn + (targetFov (handZoom (hand st)) - camera_fov sn) * 0.1 in
        {| scroll := scroll st; hand := hand st; ui := ui st;
           scene := {| aircraft := Some (mkPose (breathe elapsed pos) rot);
                       camera_position := cam_pos;
                       camera_fov := fov;
                       controls_target := ctl_tgt |} |}
      else
        let pos := THREE.lerp (position a) (scrollTargetPosition elapsed (scroll st)) 0.04 in
        let rot := approach (rotation a) (scrollTargetRotation elapsed (scroll st)) 0.04 in
        {| scroll := scroll st; hand := hand st; ui := ui st;
           scene := {| aircraft := Some (mkPose (breathe elapsed pos) rot);
                       camera_position := cam_pos;
                       camera_fov := camera_fov sn;
                       controls_target := ctl_tgt |} |}
  | None =>
      {| scroll := scroll st; hand := hand st; ui := ui st;
         scene := {| aircraft := None;
                     camera_position := cam_pos;
                     camera_fov := camera_fov sn;
                     controls_target := ctl_tgt |} |}
  end.

End Animate.

(* ================================================================== *)
(** ** Hand-control toggle: [toggleHandControl] *)
(* ================================================================== *)

(** What the handler does to the outside, in order. *)
Inductive event : Type :=
| LoadScripts
| GetUserMedia
| VideoPlay
| StopTracks
| HandsSend
| ConsoleError (e : exn)
| Alert (msg : string).

(** How the awaited operations of one toggle turn out: whether
    [window.Hands] is already there, whether the three scripts load, whether
    [getUserMedia] resolves with a stream, whether [video.play()] resolves. *)
Record Awaited : Type := mkAwaited {
  window_Hands : bool;
  scripts_load : bool;
  camera_granted : bool;
  video_plays : bool }.

(** Computations over the module state and the event log that may throw. *)
Definition Eff (A : Type) : Type :=
  State -> list event -> (A + exn) * State * list event.

Definition ret {A : Type} (a : A) : Eff A :=
  fun st log => (inl a, st, log).

Definition bind {A B : Type} (m : Eff A) (k : A -> Eff B) : Eff B :=
  fun st log =>
    match m st log with
    | (inl a, st', log') => k a st' log'
    | (inr e, st', log') => (inr e, st', log')
    end.

Definition throw {A : Type} (e : exn) : Eff A :=
  fun st log => (inr e, st, log).

Definition try_catch {A : Type} (m : Eff A) (handler : exn -> Eff A) : Eff A :=
  fun st log =>
    match m st log with
    | (inl a, st', log') => (inl a, st', log')
    | (inr e, st', log') => handler e st' log'
    end.

Definition emit (ev : event) : Eff unit :=
  fun st log => (inl tt, st, log ++ [ev]).

Definition get_ui : Eff UiVars :=
  fun st log => (inl (ui st), st, log).

Definition put_ui (u : UiVars) : Eff unit :=
  fun st log =>
    (inl tt, {| scroll := scroll st; hand := hand st; scene := scene st; ui := u |}, log).

Declare Scope eff_scope.
Delimit Scope eff_scope with eff.
Notation "x <- m ;; k" := (bind m (fun x => k))
  (at level 61, m at next level, right associativity) : eff_scope.
Notation "m ;; k" := (bind m (fun _ => k))
  (at level 61, right associativity) : eff_scope.

Section Toggle.
Open Scope eff_scope.

Definition set_btn_innerHTML (s : string) : Eff unit :=
  u <- get_ui ;;
  put_ui {| handControlEnabled := handControlEnabled u; hands := hands u;
            handCtx := handCtx u; btn_innerHTML := s;
            video_srcObject := video_srcObject u;
            overlay_shown := overlay_shown u |}.

Definition set_handControlEnabled (b : bool) : Eff unit :=
  u <- get_ui ;;
  put_ui {| handControlEnabled := b; hands := hands u;
            handCtx := handCtx u; btn_innerHTML := btn_innerHTML u;
            video_srcObject := video_srcObject u;
            overlay_shown := overlay_shown u |}.

Definition set_hands (b : bool) : Eff unit :=
  u <- get_ui ;;
  put_ui {| handControlEnabled := handControlEnabled u; hands := b;
            handCtx := handCtx u; btn_innerHTML := btn_innerHTML u;
            video_srcObject := video_srcObject u;
            overlay_shown := overlay_shown u |}.

Definition set_video_srcObject (b : bool) : Eff unit :=
  u <- get_ui ;;
  put_ui {| handControlEnabled := handControlEnabled u; hands := hands u;
            handCtx := handCtx u; btn_innerHTML := btn_innerHTML u;
            video_srcObject := b;
            overlay_shown := overlay_shown u |}.

Definition set_overlay_shown (b : bool) : Eff unit :=
  u <- get_ui ;;
  put_ui {| handControlEnabled := handControlEnabled u; hands := hands u;
            handCtx := handCtx u; btn_innerHTML := btn_innerHTML u;
            video_srcObject := video_srcObject u;
            overlay_shown := b |}.

Definition initializeHands : Eff unit := set_hands true.

Definition loadMediaPipe (o : Awaited) : Eff unit :=
  if window_Hands o then initializeHands
  else
    emit LoadScripts ;;
    if scripts_load o then initializeHands else throw ScriptLoadError.

(** The first round of the detection loop: the guard, then one
    [hands.send].  The video element exists from set-up on. *)
Definition detectHands : Eff unit :=
  u <- get_ui ;;
  if negb (handControlEnabled u) || negb (hands u) then ret tt
  else emit HandsSend.

Definition toggleHandControl (o : Awaited) : Eff unit :=
  u <- get_ui ;;
  if negb (handControlEnabled u) then
    try_catch
      (set_btn_innerHTML label_loading ;;
       loadMediaPipe o ;;
       emit GetUserMedia ;;
       (if camera_granted o then ret tt else throw CameraError) ;;
       set_video_srcObject true ;;
       emit VideoPlay ;;
       (if video_plays o then ret tt else throw PlayError) ;;
       set_handControlEnabled true ;;
       set_overlay_shown true ;;
       set_btn_innerHTML label_stop ;;
       detectHands)
      (fun e =>
         emit (ConsoleError e) ;;
         emit (Alert "Camera access denied") ;;
         set_btn_innerHTML label_idle)
  else
    set_handControlEnabled false ;;
    (if video_srcObject u then emit StopTracks else ret tt) ;;
    set_overlay_shown false ;;
    set_btn_innerHTML label_idle.

End Toggle.

(* ================================================================== *)
(** ** The page as a transition system *)
(* ================================================================== *)

Section Page.
Context {host : HostMath}.

(** The success callback of [loadModel] (and of [loadModelAlternative]): the
    aircraft is there, at the pose of keyframe 0. *)
Definition onModelLoaded (st : State) : State :=
  {| scroll := scroll st; hand := hand st; ui := ui st;
     scene := {| aircraft := Some (mkPose (position hero) (rotation hero));
                 camera_position := camera_position (scene st);
                 camera_fov := camera_fov (scene st);
                 controls_target := controls_target (scene st) |} |}.

(** [onWindowResize], on [window.innerWidth] and [window.innerHeight]: a
    window narrower than 16:9 widens the field of view, up to 65. *)
Definition onWindowResize (innerWidth innerHeight : num) (st : State) : State :=
  let ar := (innerWidth / innerHeight)%num in
  if (ar <? Fin 16 / Fin 9)%num then
    {| scroll := scroll st; hand := hand st; ui := ui st;
       scene := {| aircraft := aircraft (scene st);
                   camera_position := camera_position (scene st);
                   camera_fov :=
                     Math_min (camera_fov (scene st) *
                               (Fin 1 + (Fin 16 / Fin 9 - ar) * Fin 0.15))%num
                              (Fin 65);
                   controls_target := controls_target (scene st) |} |}
  else st.

(** What the host dispatches: the end of the model load, a resize, a scroll
    event, a detection result, an animation frame, a click on the
    hand-control button. *)
Inductive input : Type :=
| ModelLoaded
| Resize (innerWidth innerHeight : num)
| Scroll (scrollY scrollHeight innerHeight : num)
| HandResult (r : Results)
| Frame (elapsed : num)
| Toggle (o : Awaited).

(** An exception a handler leaves uncaught ends that handler only; the page
    goes on from the state the handler left. *)
Definition step (st : State) (i : input) : State :=
  match i with
  | ModelLoaded => onModelLoaded st
  | Resize w h => onWindowResize w h st
  | Scroll sy sh ih => fst (onScroll sy sh ih st)
  | HandResult r => fst (onHandResults r st)
  | Frame elapsed => animate elapsed st
  | Toggle o => snd (fst (toggleHandControl o st []))
  end.

Definition run (st : State) (inputs : list input) : State :=
  fold_left step inputs st.

End Page.

(* ================================================================== *)
(** ** More of JavaScript numbers *)
(* ================================================================== *)

(** [a <= b]; false as soon as one side is [NaN]. *)
Definition nle (a b : num) : bool :=
  match a, b with
  | NaN, _ | _, NaN => false
  | Fin p, Fin q => Qle_bool p q
  | NInf, _ | _, PInf => true
  | _, _ => false
  end.

(** [a === b] on numbers; [NaN] equals nothing. *)
Definition nseq (a b : num) : bool :=
  match a, b with
  | Fin p, Fin q => Qeq_bool p q
  | PInf, PInf | NInf, NInf => true
  | _, _ => false
  end.

(** Rounding towards zero. *)
Definition Qtrunc (q : Q) : Z :=
  if Qle_bool 0 q then Qfloor q else Qceiling q.

(** [a % b]: the remainder has the sign of the dividend. *)
Definition nmod (a b : num) : num :=
  match a, b with
  | NaN, _ | _, NaN => NaN
  | PInf, _ | NInf, _ => NaN
  | Fin p, Fin q =>
      if Qeq_bool q 0 then NaN else Fin (p - q * inject_Z (Qtrunc (p / q)))
  | Fin p, _ => Fin p
  end.

(** [Math.round]: to the nearest integer, halves upwards. *)
Definition Math_round (a : num) : num :=
  match a with
  | Fin q => Fin (inject_Z (Qfloor (q + 0.5)))
  | _ => a
  end.

(** The index [i] of a [forEach] callback, as a number. *)
Definition index (i : nat) : num := Fin (inject_Z (Z.of_nat i)).

(** [arr.map((x, i) => f(i, x))], counting from [i0]. *)
Fixpoint mapi_from {A B : Type} (i0 : nat) (f : nat -> A -> B) (l : list A) : list B :=
  match l with
  | [] => []
  | a :: l' => f i0 a :: mapi_from (S i0) f l'
  end.

Definition mapi {A B : Type} (f : nat -> A -> B) (l : list A) : list B :=
  mapi_from 0 f l.

(* ================================================================== *)
(** ** Parallax background *)
(* ================================================================== *)

(** Writing a style property.  The style object takes a length or a
    percentage only if its number is finite, and a width only if it is not
    negative either; an assignment of anything else (["NaN%"], for one) is
    dropped and the property keeps the value it had. *)
Definition css_number (a : num) : bool := isFinite a.

Definition css_width (a : num) : bool :=
  match a with
  | Fin q => Qle_bool 0 q
  | _ => false
  end.

(** A background layer: its classes [active] and [transitioning], and the
    translation of its transform (the scale is always 1.1), once set. *)
Record Layer : Type := mkLayer {
  layer_active : bool;
  layer_transitioning : bool;
  layer_translate : option (num * num) }.

(** The background variables.  [bg_timeouts] holds the [newBgIndex] of each
    pending 150 ms timeout, oldest first; [blur_restarts] counts how often
    the motion-blur overlay was restarted. *)
Record BgVars : Type := mkBgVars {
  currentBgIndex : num;
  bgLayers : list Layer;
  parallaxOffset : num * num;
  bg_timeouts : list num;
  blur_restarts : nat }.

Definition NUM_BACKGROUNDS : num := Fin 4.

(** [setupParallaxBackgrounds], on the layers the document holds. *)
Definition setupParallaxBackgrounds (layers : list Layer) (bg : BgVars) : BgVars :=
  {| currentBgIndex :=
       match layers with [] => currentBgIndex bg | _ :: _ => Fin 0 end;
     bgLayers :=
       match layers with
       | [] => []
       | l :: rest =>
           mkLayer true (layer_transitioning l) (layer_translate l) :: rest
       end;
     parallaxOffset := parallaxOffset bg;
     bg_timeouts := bg_timeouts bg;
     blur_restarts := blur_restarts bg |}.

(** The [mousemove] listener. *)
Definition onMouseMove (clientX clientY innerWidth innerHeight : num) (bg : BgVars)
  : BgVars :=
  let centerX := (innerWidth / Fin 2)%num in
  let centerY := (innerHeight / Fin 2)%num in
  {| currentBgIndex := currentBgIndex bg;
     bgLayers := bgLayers bg;
     parallaxOffset := (((clientX - centerX) / centerX * Fin 20)%num,
                        ((clientY - centerY) / centerY * Fin 20)%num);
     bg_timeouts := bg_timeouts bg;
     blur_restarts := blur_restarts bg |}.

(** The transform written to every active layer. *)
Definition place_active (progress : num) (offset : num * num) (l : Layer) : Layer :=
  if layer_active l then
    let scrollOffset := (progress * Fin 30)%num in
    if css_number (fst offset) && css_number (snd offset + scrollOffset)%num then
      mkLayer (layer_active l) (layer_transitioning l)
              (Some (fst offset, (snd offset + scrollOffset)%num))
    else l
  else l.

(** [updateParallaxPosition], called on every frame. *)
Definition updateParallaxPosition (progress : num) (bg : BgVars) : BgVars :=
  {| currentBgIndex := currentBgIndex bg;
     bgLayers := map (place_active progress (parallaxOffset bg)) (bgLayers bg);
     parallaxOffset := parallaxOffset bg;
     bg_timeouts := bg_timeouts bg;
     blur_restarts := blur_restarts bg |}.

Definition updateParallaxBackground (sectionIndex progress : num) (bg : BgVars)
  : BgVars :=
  let newBgIndex := nmod sectionIndex NUM_BACKGROUNDS in
  let bg1 :=
    if negb (nseq newBgIndex (currentBgIndex bg)) then
      {| currentBgIndex := newBgIndex;
         bgLayers :=
           mapi (fun i l =>
                   if nseq (index i) (currentBgIndex bg)
                   then mkLayer (layer_active l) true (layer_translate l)
                   else l)
                (bgLayers bg);
         parallaxOffset := parallaxOffset bg;
         bg_timeouts := bg_timeouts bg ++ [newBgIndex];
         blur_restarts := S (blur_restarts bg) |}
    else bg in
  updateParallaxPosition progress bg1.

(** The oldest pending timeout fires. *)
Definition fireTimeout (bg : BgVars) : BgVars :=
  match bg_timeouts bg with
  | [] => bg
  | newBgIndex :: rest =>
      {| currentBgIndex := currentBgIndex bg;
         bgLayers :=
           mapi (fun i l =>
                   mkLayer (nseq (index i) newBgIndex) false (layer_translate l))
                (bgLayers bg);
         parallaxOffset := parallaxOffset bg;
         bg_timeouts := rest;
         blur_restarts := blur_restarts bg |}
  end.

(* ================================================================== *)
(** ** Scroll indicators *)
(* ================================================================== *)

(** What the scroll handler shows besides the scene: the top of the scroll
    thumb in percent, the [active] class of the section markers and of the
    navigation links, the [visible] class of the feature cards, and the two
    numbers of the HUD before they are formatted.  The thumb and the two HUD
    elements are taken to exist. *)
Record Chrome : Type := mkChrome {
  thumb_top : num;
  markers : list bool;
  navLinks : list bool;
  cards : list bool;
  hud_altitude : num;
  hud_mach : num }.

Definition updateScrollProgress (p s : num) (ch : Chrome) : Chrome :=
  {| thumb_top :=
       if css_number (p * Fin 80)%num then (p * Fin 80)%num else thumb_top ch;
     markers := mapi (fun i _ => nle (index i) s) (markers ch);
     navLinks := navLinks ch; cards := cards ch;
     hud_altitude := hud_altitude ch; hud_mach := hud_mach ch |}.

Definition updateNavigation (s : num) (ch : Chrome) : Chrome :=
  {| thumb_top := thumb_top ch; markers := markers ch;
     navLinks := mapi (fun i _ => nseq (index i) s) (navLinks ch);
     cards := cards ch;
     hud_altitude := hud_altitude ch; hud_mach := hud_mach ch |}.

Definition updateHUD (p : num) (ch : Chrome) : Chrome :=
  {| thumb_top := thumb_top ch; markers := markers ch;
     navLinks := navLinks ch; cards := cards ch;
     hud_altitude := Math_floor (p * Fin 59000)%num;
     hud_mach := (p * Fin 2.25)%num |}.

Definition animateInfoCards (s : num) (ch : Chrome) : Chrome :=
  {| thumb_top := thumb_top ch; markers := markers ch;
     navLinks := navLinks ch;
     cards := mapi (fun i _ => nseq (index i) (s - Fin 1)%num) (cards ch);
     hud_altitude := hud_altitude ch; hud_mach := hud_mach ch |}.

(** The whole page under one scroll event. *)
Record Page : Type := mkPage {
  page_state : State;
  page_chrome : Chrome;
  page_bg : BgVars }.

(** The scroll handler with its calls into the DOM: the thumb, the markers
    and the navigation are written before the keyframes are read, the HUD,
    the cards and the background after, so only when nothing was raised. *)
Definition onScroll_page (scrollY scrollHeight innerHeight : num) (pg : Page)
  : Page * option exn :=
  let r := onScroll scrollY scrollHeight innerHeight (page_state pg) in
  let p := scrollProgress (scroll (fst r)) in
  let s := currentSection (scroll (fst r)) in
  let ch1 := updateNavigation s (updateScrollProgress p s (page_chrome pg)) in
  match snd r with
  | Some e =>
      ({| page_state := fst r; page_chrome := ch1; page_bg := page_bg pg |}, Some e)
  | None =>
      ({| page_state := fst r;
          page_chrome := animateInfoCards s (updateHUD p ch1);
          page_bg := updateParallaxBackground s p (page_bg pg) |}, None)
  end.

(* ================================================================== *)
(** ** Model loading *)
(* ================================================================== *)

(** The loading screen and the animation mixer: the width of the progress
    bar and the number of the percent label, how often hiding the loader was
    scheduled, and the number of clips the mixer plays, if there is one. *)
Record LoadVars : Type := mkLoadVars {
  loadingProgress : num;
  fill_width : num;
  percent_label : num;
  hide_scheduled : nat;
  mixer : option nat }.

(** How a load ends: with a scene and its animation clips ([None] when the
    file has no [animations] array), or with an error. *)
Inductive LoadOutcome : Type :=
| LoadOk (animations : option nat)
| LoadError.

Definition updateLoadingProgress (progress : num) (lv : LoadVars) : LoadVars :=
  {| loadingProgress := loadingProgress lv;
     fill_width := if css_width progress then progress else fill_width lv;
     percent_label := Math_round progress;
     hide_scheduled := hide_scheduled lv;
     mixer := mixer lv |}.

Definition completeLoading (lv : LoadVars) : LoadVars :=
  let lv1 := updateLoadingProgress (Fin 100) lv in
  {| loadingProgress := loadingProgress lv1;
     fill_width := fill_width lv1;
     percent_label := percent_label lv1;
     hide_scheduled := S (hide_scheduled lv1);
     mixer := mixer lv1 |}.

(** A progress event of the main load: [xhr.loaded] and [xhr.total]. *)
Definition onProgress (xhr : num * num) (lv : LoadVars) : LoadVars :=
  let progress := (fst xhr / snd xhr * Fin 100)%num in
  updateLoadingProgress progress
    {| loadingProgress := progress;
       fill_width := fill_width lv;
       percent_label := percent_label lv;
       hide_scheduled := hide_scheduled lv;
       mixer := mixer lv |}.

(** A progress event of the fallback load. *)
Definition onProgressAlternative (xhr : num * num) (lv : LoadVars) : LoadVars :=
  updateLoadingProgress (fst xhr / snd xhr * Fin 100)%num lv.

Definition loadModelAlternative (events : list (num * num)) (o : LoadOutcome)
           (st : State) (lv : LoadVars) : State * LoadVars :=
  let lv1 := fold_left (fun l e => onProgressAlternative e l) events lv in
  match o with
  | LoadOk _ => (onModelLoaded st, completeLoading lv1)
  | LoadError => (st, completeLoading lv1)
  end.

(** [loadModel]: the progress events and the outcome of the main load, then,
    if that failed, those of the fallback load. *)
Definition loadModel (events : list (num * num)) (o : LoadOutcome)
           (events_alt : list (num * num)) (o_alt : LoadOutcome)
           (st : State) (lv : LoadVars) : State * LoadVars :=
  let lv1 := fold_left (fun l e => onProgress e l) events lv in
  match o with
  | LoadOk animations =>
      let lv2 :=
        {| loadingProgress := loadingProgress lv1;
           fill_width := fill_width lv1;
           percent_label := percent_label lv1;
           hide_scheduled := hide_scheduled lv1;
           mixer :=
             match animations with
             | Some (S n) => Some (S n)
             | _ => mixer lv1
             end |} in
      (onModelLoaded st, completeLoading lv2)
  | LoadError => loadModelAlternative events_alt o_alt st lv1
  end.

(* ================================================================== *)
(** ** Vocabulary of the specification *)
(* ================================================================== *)

(** Order on numbers, for statements: false as soon as one side is [NaN]. *)
Definition num_le (a b : num) : Prop :=
  match a, b with
  | NaN, _ | _, NaN => False
  | Fin p, Fin q => (p <= q)%Q
  | NInf, _ | _, PInf => True
  | _, _ => False
  end.

(** The curve as the specification writes it, on rationals. *)
Definition ease_spec (t : Q) : Q :=
  if Qle_bool 0.5 t then 1 - (-2 * t + 2) ^ 3 / 2 else 4 * t ^ 3.

(** Linear interpolation as the specification has it: the weighted mean of
    the two end points, on each component. *)
Definition mix (a b t : num) : num := ((1%Q - t) * a + t * b)%num.

Definition mix_vec (v w : Vector3) (t : num) : Vector3 :=
  vec (mix (THREE.x v) (THREE.x w) t)
      (mix (THREE.y v) (THREE.y w) t)
      (mix (THREE.z v) (THREE.z w) t).

Definition mix_pose (c n : Pose) (t : num) : Pose :=
  mkPose (mix_vec (position c) (position n) t)
         (mix_vec (rotation c) (rotation n) t).

Definition pose_finite (k : Pose) : bool :=
  THREE.vec_finite (position k) && THREE.vec_finite (rotation k).

(** The aircraft target a state holds. *)
Definition targetPose (st : State) : Pose :=
  mkPose (targetAircraftPosition (scroll st)) (targetAircraftRotation (scroll st)).

Definition vec_hasNaN (v : Vector3) : bool :=
  isNaN (THREE.x v) || isNaN (THREE.y v) || isNaN (THREE.z v).

(** [clamp(v, lo, hi)] as the specification uses it. *)
Definition clamp_spec (v lo hi : Q) : Q :=
  if Qle_bool v lo then lo else if Qle_bool hi v then hi else v.

(** The seven smoothed signals. *)
Inductive signal : Type :=
| PosX | PosY | PosZ | RotX | RotY | RotZ | Zoom.

Definition read (s : signal) (h : HandVars) : num :=
  match s with
  | PosX => THREE.x (handPosition h)
  | PosY => THREE.y (handPosition h)
  | PosZ => THREE.z (handPosition h)
  | RotX => THREE.x (handRotation h)
  | RotY => THREE.y (handRotation h)
  | RotZ => THREE.z (handRotation h)
  | Zoom => handZoom h
  end.

(** The smoothing factor of each signal. *)
Definition rate (s : signal) : Q :=
  match s with
  | Zoom => 0.1
  | _ => 0.15
  end.

(** Landmark [i] of a hand. *)
Definition lmk (lm : Landmarks) (i : nat) : Vector3 :=
  nth i lm (vec NaN NaN NaN).

Definition hand_finite (h : HandVars) : bool :=
  THREE.vec_finite (handPosition h) && THREE.vec_finite (handRotation h) &&
  isFinite (handZoom h).

(** [q] to the power [k]. *)
Fixpoint qpow (q : Q) (k : nat) : Q :=
  match k with
  | O => 1
  | S k' => q * qpow q k'
  end.

(** The raw target of each signal, from the landmarks of one tick. *)
Definition rawTarget {host : HostMath} (s : signal) (lm : Landmarks) : num :=
  let indexTip := lmk lm 8 in
  let thumbTip := lmk lm 4 in
  let wrist := lmk lm 0 in
  let palm := lmk lm 9 in
  let pinky := lmk lm 20 in
  let middleTip := lmk lm 12 in
  let ringTip := lmk lm 16 in
  match s with
  | PosX => THREE.x indexTip
  | PosY => THREE.y indexTip
  | PosZ => THREE.z indexTip
  | RotX => (THREE.y palm - THREE.y wrist) * Fin 2
  | RotY => (THREE.x indexTip - Fin 0.5) * Fin 2
  | RotZ => (THREE.y thumbTip - THREE.y pinky) * Fin 2
  | Zoom => targetZoom (normalizedOpen
              (avgFingerDist indexTip middleTip ringTip pinky palm))
  end%num.

(** The detection tick repeated [k] times on the same result. *)
Definition ticks {host : HostMath} (r : Results) (k : nat) (st : State) : State :=
  Nat.iter k (fun s => fst (onHandResults r s)) st.

Definition zoom_in_range (st : State) : Prop :=
  exists z : Q, handZoom (hand st) = Fin z /\ (0.5 <= z)%Q /\ (z <= 2)%Q.

(** The landmarks a detection result carries are finite. *)
Definition input_finite (i : input) : bool :=
  match i with
  | HandResult (Some (lm :: _)) => forallb THREE.vec_finite lm
  | _ => true
  end.



(** [b] is nearer to [base] than [a] is. *)
Definition nearer (base a b : num) : Prop :=
  match base, a, b with
  | Fin q, Fin x, Fin y => (Qabs (y - q) < Qabs (x - q))%Q
  | _, _, _ => False
  end.

(** A host with rational stand-ins for the transcendental functions, to run
    the model on concrete inputs: the square root is taken to six decimals,
    sine and cosine are Taylor polynomials around 0.  The theorems of this
    file hold for every host. *)
Module SampleHost.

Definition sqrt_approx (q : Q) : Q :=
  Z.sqrt (Qnum q * Zpos (Qden q) * 1000000000000) # (Qden q * 1000000).

Definition hypot (a b : num) : num :=
  match a, b with
  | Fin p, Fin q => Fin (sqrt_approx (p * p + q * q))
  | PInf, _ | NInf, _ | _, PInf | _, NInf => PInf
  | _, _ => NaN
  end.

Definition sin (a : num) : num :=
  match a with
  | Fin q => Fin (q - q * q * q / 6 + q * q * q * q * q / 120)
  | _ => NaN
  end.

Definition cos (a : num) : num :=
  match a with
  | Fin q => Fin (1 - q * q / 2 + q * q * q * q / 24)
  | _ => NaN
  end.

#[export] Instance host : HostMath :=
  {| Math_sin := sin; Math_cos := cos; Math_hypot := hypot;
     Math_PI := Fin 3.14159265 |}.

(** An open hand in front of the camera: 21 landmarks. *)
Definition open_hand : Landmarks :=
  [ vec 0.5 0.8 0%Q;
    vec 0.42 0.74 (-0.01); vec 0.36 0.66 (-0.02); vec 0.32 0.58 (-0.03);
    vec 0.28 0.52 (-0.04);
    vec 0.44 0.52 (-0.01); vec 0.42 0.42 (-0.02); vec 0.41 0.35 (-0.03);
    vec 0.4 0.28 (-0.04);
    vec 0.5 0.5 (-0.01); vec 0.5 0.39 (-0.02); vec 0.5 0.31 (-0.03);
    vec 0.5 0.24 (-0.04);
    vec 0.56 0.52 (-0.01); vec 0.58 0.42 (-0.02); vec 0.59 0.35 (-0.03);
    vec 0.6 0.29 (-0.04);
    vec 0.61 0.56 (-0.01); vec 0.64 0.49 (-0.02); vec 0.66 0.44 (-0.03);
    vec 0.68 0.4 (-0.04) ].

End SampleHost.

(** A page where the hand showed once and then left the picture. *)
Definition hand_shown_then_lost : State :=
  @run SampleHost.host init
    [ModelLoaded; Toggle (mkAwaited false true true true);
     HandResult (Some [SampleHost.open_hand]); Frame (Fin 1); HandResult None].

Definition is_alert (ev : event) : bool :=
  match ev with Alert _ => true | _ => false end.

Definition is_getUserMedia (ev : event) : bool :=
  match ev with GetUserMedia => true | _ => false end.

Definition is_handsSend (ev : event) : bool :=
  match ev with HandsSend => true | _ => false end.

Definition count (f : event -> bool) (log : list event) : nat :=
  List.length (filter f log).

(** [v] lies between [a] and [b], whichever of the two is the smaller. *)
Definition between (a b v : num) : Prop :=
  match a, b, v with
  | Fin p, Fin q, Fin r => ((p <= r /\ r <= q) \/ (q <= r /\ r <= p))%Q
  | _, _, _ => False
  end.

Definition vec_between (a b v : Vector3) : Prop :=
  between (THREE.x a) (THREE.x b) (THREE.x v) /\
  between (THREE.y a) (THREE.y b) (THREE.y v) /\
  between (THREE.z a) (THREE.z b) (THREE.z v).

Definition pose_between (a b v : Pose) : Prop :=
  vec_between (position a) (position b) (position v) /\
  vec_between (rotation a) (rotation b) (rotation v).

(** The aircraft is loaded and a component of its position is [NaN]. *)
Definition position_lost (st : State) : Prop :=
  exists a : Pose,
    aircraft (scene st) = Some a /\ vec_hasNaN (position a) = true.

Definition not_ModelLoaded (i : input) : bool :=
  match i with
  | ModelLoaded => false
  | _ => true
  end.

(** The camera and its targets stand at the configured values. *)
Definition camera_at_rest (st : State) : Prop :=
  targetCameraPosition (scroll st) = CONFIG.fixedCamera_position /\
  targetCameraTarget (scroll st) = CONFIG.fixedCamera_target /\
  THREE.vec_eq (camera_position (scene st)) CONFIG.fixedCamera_position /\
  THREE.vec_eq (controls_target (scene st)) CONFIG.fixedCamera_target.

Definition fov_in_range (st : State) : Prop :=
  exists f : Q, camera_fov (scene st) = Fin f /\ (25 <= f)%Q /\ (f <= 100)%Q.

(** The factor by which a resize to a window of ratio [ar] widens the field
    of view. *)
Definition resize_factor (ar : Q) : Q := (1 + (16 / 9 - ar) * 0.15)%Q.

(** A coordinate within the picture: a finite number from 0 to 1. *)
Definition in_unit (a : num) : bool :=
  match a with
  | Fin q => Qle_bool 0 q && Qle_bool q 1
  | _ => false
  end.

(** The index finger tip (landmark 8) of a detection result, when there is
    one, lies within the picture. *)
Definition input_in_frame (i : input) : bool :=
  match i with
  | HandResult (Some (lm :: _)) =>
      match nth_error lm 8 with
      | Some indexTip => in_unit (THREE.x indexTip) && in_unit (THREE.y indexTip)
      | None => true
      end
  | _ => true
  end.

Definition hand_in_frame (st : State) : Prop :=
  in_unit (THREE.x (handPosition (hand st))) = true /\
  in_unit (THREE.y (handPosition (hand st))) = true.

Definition is_stopTracks (ev : event) : bool :=
  match ev with StopTracks => true | _ => false end.

(** All pending background timeouts fire, oldest first. *)
Definition flush (bg : BgVars) : BgVars :=
  fold_left (fun b _ => fireTimeout b) (bg_timeouts bg) bg.

(** A run of background updates, each with its section index and progress. *)
Definition updates (evs : list (num * num)) (bg : BgVars) : BgVars :=
  fold_left (fun b e => updateParallaxBackground (fst e) (snd e) b) evs bg.

(** The background has settled on layer [k]: no timeout is pending, the
    active layers are those of index [k], and none is in transition. *)
Definition shows (bg : BgVars) (k : num) : Prop :=
  bg_timeouts bg = [] /\
  forall (i : nat) (l : Layer),
    nth_error (bgLayers bg) i = Some l ->
    layer_active l = nseq (index i) k /\ layer_transitioning l = false.

(** Between the events: either the background has settled on the current
    index, or the youngest pending timeout carries the current index. *)
Definition bg_coherent (bg : BgVars) : Prop :=
  shows bg (currentBgIndex bg) \/
  exists ts : list num, bg_timeouts bg = ts ++ [currentBgIndex bg].

(** Every entry of a list of class flags is off. *)
Definition all_off (flags : list bool) : Prop :=
  forall (i : nat) (b : bool), nth_error flags i = Some b -> b = false.

(** No background layer is active. *)
Definition no_layer_active (bg : BgVars) : Prop :=
  forall (i : nat) (l : Layer),
    nth_error (bgLayers bg) i = Some l -> layer_active l = false.

(** The flags of a list are given by a test on the position. *)
Definition flags_are (flags : list bool) (test : nat -> bool) : Prop :=
  forall (i : nat) (b : bool), nth_error flags i = Some b -> b = test i.

(** Exponential smoothing as the glossary has it:
    [state += (target - state) * alpha]. *)
Definition smoothed (state target : num) (alpha : Q) : num :=
  (state + (target - state) * Fin alpha)%num.


(** The pose a frame gives the aircraft when the scroll drives it, written
    out: every component smoothed at 0.04 towards the scroll target plus its
    idle term, and the breathing term on the height. *)
Definition scroll_frame_pose {host : HostMath}
           (elapsed : num) (sc : ScrollVars) (a : Pose) : Pose :=
  let tp := targetAircraftPosition sc in
  let tr := targetAircraftRotation sc in
  let p := scrollProgress sc in
  mkPose
    (vec (smoothed (THREE.x (position a))
                   (THREE.x tp
                    + Math_sin (elapsed * Fin 0.5 + p * Math_PI * Fin 2) * Fin 0.5)%num
                   0.04)
         (smoothed (THREE.y (position a))
                   (THREE.y tp
                    + Math_cos (elapsed * Fin 0.7 + p * Math_PI) * Fin 0.3)%num
                   0.04
          + Math_sin (elapsed * Fin 0.8) * Fin 0.003)%num
         (smoothed (THREE.z (position a))
                   (THREE.z tp
                    + Math_sin (elapsed * Fin 0.4 + p * Math_PI * Fin 1.5) * Fin 0.4)%num
                   0.04))
    (vec (smoothed (THREE.x (rotation a))
                   (THREE.x tr + Math_cos (elapsed * Fin 0.6) * Fin 0.03)%num 0.04)
         (smoothed (THREE.y (rotation a))
                   (THREE.y tr + Math_sin (elapsed * Fin 0.3) * Fin 0.1)%num 0.04)
         (smoothed (THREE.z (rotation a))
                   (THREE.z tr + Math_sin (elapsed * Fin 0.8) * Fin 0.05)%num 0.04)).




(** An input that is neither a scroll event nor a resize nor a detection
    result with a hand. *)
Definition quiet (i : input) : bool :=
  match i with
  | Scroll _ _ _ | Resize _ _ => false
  | HandResult (Some (_ :: _)) => false
  | _ => true
  end.



(* ================================================================== *)
(** ** Numbers: basic facts *)
(* ================================================================== *)

Lemma num_eq_refl (a : num) : num_eq a a.
Proof. destruct a; simpl; auto with qarith. Qed.

Lemma num_eq_trans (a b c : num) : num_eq a b -> num_eq b c -> num_eq a c.
Proof.
  destruct a, b, c; simpl; try tauto.
  intros H1 H2. now rewrite H1.
Qed.

Lemma nlt_Fin (p q : Q) : nlt (Fin p) (Fin q) = true <-> (p < q)%Q.
Proof.
  simpl. rewrite negb_true_iff.
  destruct (Qle_bool q p) eqn:E.
  - apply Qle_bool_iff in E. split; [discriminate | intro; lra].
  - split; [intros _ | reflexivity].
    apply Qnot_le_lt. intro H. apply Qle_bool_iff in H. congruence.
Qed.

Lemma nlt_Fin_false (p q : Q) : nlt (Fin p) (Fin q) = false <-> (q <= p)%Q.
Proof.
  destruct (nlt (Fin p) (Fin q)) eqn:E.
  - apply nlt_Fin in E. split; [discriminate | intro; lra].
  - split; [intros _ | reflexivity].
    apply Qnot_lt_le. intro H. apply nlt_Fin in H. congruence.
Qed.

Lemma nlt_Fin_spec (p q : Q) : BoolSpec (p < q)%Q (q <= p)%Q (nlt (Fin p) (Fin q)).
Proof.
  destruct (nlt (Fin p) (Fin q)) eqn:E; constructor.
  - now apply nlt_Fin.
  - now apply nlt_Fin_false.
Qed.

Lemma Qle_bool_spec (p q : Q) : BoolSpec (p <= q)%Q (q < p)%Q (Qle_bool p q).
Proof.
  destruct (Qle_bool p q) eqn:E; constructor.
  - now apply Qle_bool_iff.
  - apply Qnot_le_lt. intro H. apply Qle_bool_iff in H. congruence.
Qed.

Lemma Qeq_bool_nonzero (q : Q) : ~ (q == 0)%Q -> Qeq_bool q 0 = false.
Proof.
  intro H. destruct (Qeq_bool q 0) eqn:E; [| reflexivity].
  apply Qeq_bool_iff in E. contradiction.
Qed.

Lemma ndiv_Fin (p q : Q) : ~ (q == 0)%Q -> ndiv (Fin p) (Fin q) = Fin (p / q).
Proof. intro H. simpl. now rewrite Qeq_bool_nonzero. Qed.

Lemma Qcube (q : Q) : (q ^ 3 == q * q * q)%Q.
Proof. simpl. ring. Qed.

Lemma Qdiv_2 (q : Q) : (q / 2 == q * 0.5)%Q.
Proof. field. Qed.

Lemma cube_monotone (a b : Q) : (0 <= a -> a <= b -> a * a * a <= b * b * b)%Q.
Proof.
  intros Ha Hab.
  assert (0 <= (b - a) * (b * b + a * b + a * a))%Q
    by (apply Qmult_le_0_compat; nra).
  nra.
Qed.

(* ================================================================== *)
(** ** The ease curve *)
(* ================================================================== *)

Lemma ease_Fin (t : Q) : num_eq (ease (Fin t)) (Fin (ease_spec t)).
Proof.
  unfold ease, ease_spec. cbn [nlt negb].
  destruct (Qle_bool 0.5 t); cbn [negb Math_pow nmul nadd].
  - rewrite ndiv_Fin by (vm_compute; discriminate).
    cbn [nsub nneg nadd num_eq]. rewrite Qcube. field.
  - cbn [num_eq]. rewrite Qcube. ring.
Qed.

Lemma ease_spec_monotone (a b : Q) :
  (0 <= a -> a <= b -> b <= 1 -> ease_spec a <= ease_spec b)%Q.
Proof.
  intros Ha Hab Hb. unfold ease_spec.
  destruct (Qle_bool 0.5 a) eqn:Ea; destruct (Qle_bool 0.5 b) eqn:Eb;
    rewrite ?Qcube, ?Qdiv_2.
  - apply Qle_bool_iff in Ea, Eb.
    assert ((-2 * b + 2) * (-2 * b + 2) * (-2 * b + 2)
            <= (-2 * a + 2) * (-2 * a + 2) * (-2 * a + 2))%Q
      by (apply cube_monotone; lra).
    lra.
  - apply Qle_bool_iff in Ea.
    assert (~ (0.5 <= b)%Q) by (intro H; apply Qle_bool_iff in H; congruence).
    lra.
  - apply Qle_bool_iff in Eb.
    assert (Ha' : ~ (0.5 <= a)%Q) by (intro H; apply Qle_bool_iff in H; congruence).
    assert (a * a * a <= 0.5 * 0.5 * 0.5)%Q by (apply cube_monotone; lra).
    assert (0 <= (-2 * b + 2))%Q by lra.
    assert ((-2 * b + 2) * (-2 * b + 2) * (-2 * b + 2) <= 1 * 1 * 1)%Q
      by (apply cube_monotone; lra).
    lra.
  - assert (a * a * a <= b * b * b)%Q by (apply cube_monotone; lra).
    lra.
Qed.

(** C4: [ease(0) = 0], [ease(1) = 1], and [ease] is monotonic non-decreasing
    on the interval from 0 to 1. *)
Theorem ease_boundaries_monotone (a b : Q) :
  (0 <= a)%Q -> (a <= b)%Q -> (b <= 1)%Q ->
  num_eq (ease (Fin 0)) (Fin 0) /\
  num_eq (ease (Fin 1)) (Fin 1) /\
  num_le (ease (Fin a)) (ease (Fin b)).
Proof.
  intros Ha Hab Hb. split; [| split].
  - vm_compute. reflexivity.
  - vm_compute. reflexivity.
  - pose proof (ease_Fin a) as Ea. pose proof (ease_Fin b) as Eb.
    destruct (ease (Fin a)) as [ea | | |]; simpl in Ea; try contradiction.
    destruct (ease (Fin b)) as [eb | | |]; simpl in Eb; try contradiction.
    simpl. rewrite Ea, Eb. now apply ease_spec_monotone.
Qed.

Lemma ease_boundaries_monotone_witness :
  num_eq (ease (Fin 0)) (Fin 0) /\
  num_eq (ease (Fin 1)) (Fin 1) /\
  num_le (ease (Fin 0.25)) (ease (Fin 0.75)).
Proof. apply (ease_boundaries_monotone 0.25 0.75); vm_compute; discriminate. Defined.

(* ================================================================== *)
(** ** Scroll mapper *)
(* ================================================================== *)

Lemma sectionIndex_Fin (p : Q) :
  sectionIndex (Fin p) = Fin (inject_Z (Qfloor (p * 6))).
Proof. reflexivity. Qed.

Lemma blend_Fin (p : Q) :
  blend (Fin p) = Fin (p * 6 - inject_Z (Qfloor (p * 6))).
Proof. reflexivity. Qed.

Lemma docHeight_Fin (sh ih : Q) : docHeight (Fin sh) (Fin ih) = Fin (sh - ih).
Proof. reflexivity. Qed.

Lemma progress_Fin (sy sh ih : Q) :
  (ih < sh)%Q ->
  ndiv (Fin sy) (docHeight (Fin sh) (Fin ih)) = Fin (sy / (sh - ih)).
Proof. intro H. rewrite docHeight_Fin. apply ndiv_Fin. lra. Qed.

(** The progress of a scroll offset within the scrollable range lies between
    0 and 1. *)
Lemma progress_range (sy sh ih : Q) :
  (ih < sh -> 0 <= sy -> sy <= sh - ih ->
   0 <= sy / (sh - ih) /\ sy / (sh - ih) <= 1)%Q.
Proof.
  intros H H0 H1. split.
  - apply Qle_shift_div_l; lra.
  - apply Qle_shift_div_r; lra.
Qed.

Lemma floor_bounds (q : Q) (lo hi : Z) :
  (inject_Z lo <= q)%Q -> (q < inject_Z hi)%Q -> (lo <= Qfloor q < hi)%Z.
Proof.
  intros Hlo Hhi. split.
  - rewrite <- (Qfloor_Z lo). now apply Qfloor_resp_le.
  - apply Z.lt_nge. intro Hge.
    pose proof (Qfloor_le q) as Hle.
    assert (inject_Z hi <= inject_Z (Qfloor q))%Q by (rewrite <- Zle_Qle; exact Hge).
    lra.
Qed.

Lemma floor_section_range (p : Q) :
  (0 <= p)%Q -> (p <= 1)%Q -> (0 <= Qfloor (p * 6) <= 6)%Z.
Proof.
  intros H0 H1.
  destruct (floor_bounds (p * 6) 0 7) as [Ha Hb].
  - change (inject_Z 0) with 0%Q. lra.
  - change (inject_Z 7) with 7%Q. lra.
  - lia.
Qed.

Lemma floor_section_last (p : Q) :
  (0 <= p)%Q -> (p <= 1)%Q -> (Qfloor (p * 6) = 6)%Z <-> (p == 1)%Q.
Proof.
  intros H0 H1. split.
  - intro E. pose proof (Qfloor_le (p * 6)) as Hle. rewrite E in Hle.
    change (inject_Z 6) with 6%Q in Hle. lra.
  - intro E. rewrite (Qfloor_comp (p * 6) 6) by (rewrite E; reflexivity).
    reflexivity.
Qed.

Lemma blend_range (q : Q) :
  (0 <= q - inject_Z (Qfloor q) /\ q - inject_Z (Qfloor q) < 1)%Q.
Proof.
  pose proof (Qfloor_le q) as Hle. pose proof (Qlt_floor q) as Hlt.
  rewrite inject_Z_plus in Hlt. change (inject_Z 1) with 1%Q in Hlt.
  split; lra.
Qed.

(** The state a scroll event leaves, when progress is finite. *)
Lemma onScroll_progress (sy sh ih : Q) (st : State) :
  (ih < sh)%Q ->
  scrollProgress (scroll (fst (onScroll (Fin sy) (Fin sh) (Fin ih) st)))
    = Fin (sy / (sh - ih)) /\
  currentSection (scroll (fst (onScroll (Fin sy) (Fin sh) (Fin ih) st)))
    = Fin (inject_Z (Qfloor (sy / (sh - ih) * 6))).
Proof.
  intro H. unfold onScroll. rewrite progress_Fin by exact H.
  rewrite sectionIndex_Fin.
  destruct (nlt _ _); [destruct (array_get _ _); [destruct (array_get _ _) |] |
                       destruct (array_get _ _)]; split; reflexivity.
Qed.

(** At the last section the handler copies the last keyframe. *)
Lemma onScroll_last (sy sh ih : Q) (st : State) :
  (ih < sh)%Q -> Qfloor (sy / (sh - ih) * 6) = 6%Z ->
  snd (onScroll (Fin sy) (Fin sh) (Fin ih) st) = None /\
  nth_error CONFIG.aircraftPositions 6 =
    Some (targetPose (fst (onScroll (Fin sy) (Fin sh) (Fin ih) st))).
Proof.
  intros H Hi. unfold onScroll. cbv zeta. rewrite progress_Fin by exact H.
  rewrite sectionIndex_Fin, Hi. split; reflexivity.
Qed.

(** Half way down a page of scrollable range 600: section 3, blend 0. *)
Example half_way_section :
  currentSection (scroll (fst (onScroll (Fin 300) (Fin 1000) (Fin 400) init))) = Fin 3 /\
  num_eq (blend (Fin (300 / 600))) (Fin 0).
Proof. split; vm_compute; reflexivity. Qed.

(** A scroll offset above the page (an overscroll) indexes keyframe -1: the
    handler raises, after it has written progress and section. *)
Example overscroll_raises :
  snd (onScroll (Fin (-3)) (Fin 1000) (Fin 400) init) = Some TypeError.
Proof. reflexivity. Qed.

(** C2: for a scroll offset within a positive scrollable range, with progress
    [p]: there are 7 keyframes, the section index is the floor of [p * 6] and
    the blend is [p * 6] minus the section index; the blend lies in the
    half-open interval from 0 to 1; the section index lies between 0 and 5
    when [p < 1] and is 6 exactly when [p = 1], where the target is keyframe 6
    as it stands; and two scroll events of equal progress yield the same
    section index and blend. *)
Theorem scroll_mapper_section_blend (sy sh ih : Q) (st : State) :
  (ih < sh)%Q -> (0 <= sy)%Q -> (sy <= sh - ih)%Q ->
  let p := (sy / (sh - ih))%Q in
  let st' := fst (onScroll (Fin sy) (Fin sh) (Fin ih) st) in
  total = Fin 7 /\
  scrollProgress (scroll st') = Fin p /\
  currentSection (scroll st') = Fin (inject_Z (Qfloor (p * 6))) /\
  blend (scrollProgress (scroll st')) = Fin (p * 6 - inject_Z (Qfloor (p * 6))) /\
  (0 <= p * 6 - inject_Z (Qfloor (p * 6)))%Q /\
  (p * 6 - inject_Z (Qfloor (p * 6)) < 1)%Q /\
  ((p < 1)%Q -> (0 <= Qfloor (p * 6) <= 5)%Z) /\
  ((Qfloor (p * 6) = 6)%Z <-> (p == 1)%Q) /\
  ((p == 1)%Q -> nth_error CONFIG.aircraftPositions 6 = Some (targetPose st')) /\
  (forall (sy2 sh2 ih2 : Q) (st2 : State),
      (ih2 < sh2)%Q -> (sy2 / (sh2 - ih2) == p)%Q ->
      let st2' := fst (onScroll (Fin sy2) (Fin sh2) (Fin ih2) st2) in
      num_eq (currentSection (scroll st2')) (currentSection (scroll st')) /\
      num_eq (blend (scrollProgress (scroll st2'))) (blend (scrollProgress (scroll st')))).
Proof.
  intros H H0 H1 p st'.
  destruct (progress_range sy sh ih H H0 H1) as [Hp0 Hp1]. fold p in Hp0, Hp1.
  destruct (onScroll_progress sy sh ih st H) as [Eprog Esec].
  fold p in Eprog, Esec. fold st' in Eprog, Esec.
  pose proof (floor_section_range p Hp0 Hp1) as Hrange.
  pose proof (floor_section_last p Hp0 Hp1) as Hlast.
  pose proof (blend_range (p * 6)) as [Hb0 Hb1].
  split; [reflexivity |]. split; [exact Eprog |]. split; [exact Esec |].
  split; [rewrite Eprog; apply blend_Fin |].
  split; [exact Hb0 |]. split; [exact Hb1 |].
  split; [| split; [exact Hlast | split]].
  - intro Hlt.
    assert (Qfloor (p * 6) <> 6)%Z by (intro E; apply Hlast in E; lra).
    lia.
  - intro E1. apply Hlast in E1. now apply onScroll_last.
  - intros sy2 sh2 ih2 st2 H2 Hp2 st2'.
    destruct (onScroll_progress sy2 sh2 ih2 st2 H2) as [Eprog2 Esec2].
    fold st2' in Eprog2, Esec2.
    assert (Hfl : Qfloor (sy2 / (sh2 - ih2) * 6) = Qfloor (p * 6))
      by (apply Qfloor_comp; rewrite Hp2; reflexivity).
    split.
    + rewrite Esec2, Esec, Hfl. apply num_eq_refl.
    + rewrite Eprog2, Eprog, !blend_Fin, Hfl. simpl. rewrite Hp2. reflexivity.
Qed.

Lemma scroll_mapper_section_blend_witness :
  (400 < 1000)%Q /\ (0 <= 300)%Q /\ (300 <= 1000 - 400)%Q /\
  currentSection (scroll (fst (onScroll (Fin 300) (Fin 1000) (Fin 400) init)))
    = Fin (inject_Z (Qfloor (300 / (1000 - 400) * 6))).
Proof.
  assert (H : (400 < 1000)%Q) by reflexivity.
  assert (H0 : (0 <= 300)%Q) by (vm_compute; discriminate).
  assert (H1 : (300 <= 1000 - 400)%Q) by (vm_compute; discriminate).
  split; [exact H |]. split; [exact H0 |]. split; [exact H1 |].
  exact (proj1 (proj2 (proj2
           (scroll_mapper_section_blend 300 1000 400 init H H0 H1)))).
Defined.

(* ================================================================== *)
(** ** Pose interpolator *)
(* ================================================================== *)

Lemma keyframes_finite (n : nat) (k : Pose) :
  nth_error CONFIG.aircraftPositions n = Some k -> pose_finite k = true.
Proof.
  intro H. apply nth_error_In in H.
  assert (F : forallb pose_finite CONFIG.aircraftPositions = true) by reflexivity.
  rewrite forallb_forall in F. now apply F.
Qed.

Lemma mix_lerp (a b : num) (e e' : Q) :
  isFinite a = true -> isFinite b = true -> (e == e')%Q ->
  num_eq (a + (b - a) * Fin e)%num (mix a b (Fin e')).
Proof.
  destruct a as [p | | |], b as [q | | |]; try discriminate.
  intros _ _ E. unfold mix. simpl. rewrite E. ring.
Qed.

Lemma lerpVectors_mix (v w : Vector3) (e e' : Q) :
  THREE.vec_finite v = true -> THREE.vec_finite w = true -> (e == e')%Q ->
  THREE.vec_eq (THREE.lerpVectors v w (Fin e)) (mix_vec v w (Fin e')).
Proof.
  unfold THREE.vec_finite. rewrite !andb_true_iff.
  intros [[? ?] ?] [[? ?] ?] E.
  repeat split; simpl; now apply mix_lerp.
Qed.

Lemma mix_at_0 (a b : num) (e : Q) :
  isFinite a = true -> isFinite b = true -> (e == 0)%Q ->
  num_eq (mix a b (Fin e)) a.
Proof.
  destruct a as [p | | |], b as [q | | |]; try discriminate.
  intros _ _ E. unfold mix. simpl. rewrite E. ring.
Qed.

Lemma array_get_index {A : Type} (arr : list A) (q : Q) (n : nat) :
  (q == inject_Z (Z.of_nat n))%Q -> array_get arr (Fin q) = nth_error arr n.
Proof.
  intro E. unfold array_get, is_index.
  rewrite (Qfloor_comp _ _ E), Qfloor_Z.
  assert (Qeq_bool (inject_Z (Z.of_nat n)) q = true)
    by (apply Qeq_bool_iff; now symmetry).
  assert ((0 <=? Z.of_nat n)%Z = true) by (apply Z.leb_le; lia).
  rewrite H, H0, Nat2Z.id. reflexivity.
Qed.

Lemma ease_spec_comp (a b : Q) : (a == b)%Q -> (ease_spec a == ease_spec b)%Q.
Proof.
  intro E. unfold ease_spec. rewrite (Qleb_comp _ _ (Qeq_refl 0.5) _ _ E).
  destruct (Qle_bool 0.5 b); rewrite E; reflexivity.
Qed.

Lemma keyframe_exists (i : nat) :
  (i < 7)%nat -> exists k, nth_error CONFIG.aircraftPositions i = Some k.
Proof.
  intro H. destruct (nth_error CONFIG.aircraftPositions i) as [k |] eqn:E.
  - now exists k.
  - apply nth_error_None in E. simpl in E. lia.
Qed.

(** Below the last section the handler interpolates between the keyframe of
    the section and the next one. *)
Lemma onScroll_interpolates (sy sh ih : Q) (st : State) (i : nat) :
  (ih < sh)%Q -> Qfloor (sy / (sh - ih) * 6) = Z.of_nat i -> (i < 6)%nat ->
  exists cAir nAir : Pose,
    nth_error CONFIG.aircraftPositions i = Some cAir /\
    nth_error CONFIG.aircraftPositions (i + 1) = Some nAir /\
    snd (onScroll (Fin sy) (Fin sh) (Fin ih) st) = None /\
    targetPose (fst (onScroll (Fin sy) (Fin sh) (Fin ih) st)) =
      let e := ease (blend (Fin (sy / (sh - ih)))) in
      mkPose (THREE.lerpVectors (position cAir) (position nAir) e)
             (THREE.lerpVectors (rotation cAir) (rotation nAir) e).
Proof.
  intros H Hi Hlt.
  destruct (keyframe_exists i) as [cAir Ec]; [lia |].
  destruct (keyframe_exists (i + 1)) as [nAir En]; [lia |].
  exists cAir, nAir. split; [exact Ec |]. split; [exact En |].
  unfold onScroll. cbv zeta. rewrite progress_Fin by exact H.
  rewrite sectionIndex_Fin, Hi.
  change (total - Fin 1)%num with (Fin 6).
  assert (Hs : nlt (Fin (inject_Z (Z.of_nat i))) (Fin 6) = true).
  { apply nlt_Fin. change 6%Q with (inject_Z 6). rewrite <- Zlt_Qlt. lia. }
  rewrite Hs. cbn [nadd].
  rewrite (array_get_index _ _ i) by reflexivity. rewrite Ec.
  rewrite (array_get_index _ _ (i + 1)), En.
  - split; reflexivity.
  - rewrite Nat2Z.inj_add, inject_Z_plus. reflexivity.
Qed.

(** C1: for a scroll offset within a positive scrollable range, with progress
    [p] and section index [i], the floor of [p * 6]: the handler raises
    nothing; when [i < 6] the target position and rotation are, on each
    component, the linear interpolation between keyframe [i] and keyframe
    [i + 1] at the eased blend; when [i = 6] the target is keyframe 6 itself;
    and at [p = 0] the target equals keyframe 0. *)
Theorem pose_interpolator_target (sy sh ih : Q) (st : State) :
  (ih < sh)%Q -> (0 <= sy)%Q -> (sy <= sh - ih)%Q ->
  let p := (sy / (sh - ih))%Q in
  let i := Qfloor (p * 6) in
  let target := targetPose (fst (onScroll (Fin sy) (Fin sh) (Fin ih) st)) in
  snd (onScroll (Fin sy) (Fin sh) (Fin ih) st) = None /\
  ((i < 6)%Z ->
   exists cAir nAir : Pose,
     nth_error CONFIG.aircraftPositions (Z.to_nat i) = Some cAir /\
     nth_error CONFIG.aircraftPositions (Z.to_nat i + 1) = Some nAir /\
     pose_eq target
       (mix_pose cAir nAir (Fin (ease_spec (p * 6 - inject_Z i))))) /\
  ((i = 6)%Z -> nth_error CONFIG.aircraftPositions 6 = Some target) /\
  ((p == 0)%Q ->
   exists k0 : Pose,
     nth_error CONFIG.aircraftPositions 0 = Some k0 /\ pose_eq target k0).
Proof.
  intros H H0 H1 p i target.
  destruct (progress_range sy sh ih H H0 H1) as [Hp0 Hp1]. fold p in Hp0, Hp1.
  pose proof (floor_section_range p Hp0 Hp1) as Hrange. fold i in Hrange.
  assert (Hinterp : (i < 6)%Z ->
    exists cAir nAir : Pose,
     nth_error CONFIG.aircraftPositions (Z.to_nat i) = Some cAir /\
     nth_error CONFIG.aircraftPositions (Z.to_nat i + 1) = Some nAir /\
     snd (onScroll (Fin sy) (Fin sh) (Fin ih) st) = None /\
     pose_eq target
       (mix_pose cAir nAir (Fin (ease_spec (p * 6 - inject_Z i))))).
  { intro Hlt.
    destruct (onScroll_interpolates sy sh ih st (Z.to_nat i) H)
      as (cAir & nAir & Ec & En & Enone & Et).
    - fold p. fold i. lia.
    - lia.
    - exists cAir, nAir. split; [exact Ec |]. split; [exact En |].
      split; [exact Enone |].
      unfold target. rewrite Et. cbv zeta. fold p. rewrite blend_Fin. fold i.
      pose proof (ease_Fin (p * 6 - inject_Z i)) as Ee.
      destruct (ease (Fin (p * 6 - inject_Z i))) as [e | | |];
        simpl in Ee; try contradiction.
      pose proof (keyframes_finite _ _ Ec) as Fc.
      pose proof (keyframes_finite _ _ En) as Fn.
      unfold pose_finite in Fc, Fn. apply andb_true_iff in Fc, Fn.
      destruct Fc, Fn.
      split; simpl; now apply lerpVectors_mix. }
  split; [| split; [| split]].
  - destruct (Z.eq_dec i 6) as [E6 | N6].
    + now apply onScroll_last.
    + destruct Hinterp as (? & ? & _ & _ & Enone & _); [lia | exact Enone].
  - intro Hlt. destruct (Hinterp Hlt) as (cAir & nAir & Ec & En & _ & Et).
    now exists cAir, nAir.
  - intro E6. now apply onScroll_last.
  - intro Ep.
    assert (Ei : i = 0%Z).
    { unfold i. rewrite (Qfloor_comp (p * 6) 0) by (rewrite Ep; reflexivity).
      reflexivity. }
    destruct Hinterp as (cAir & nAir & Ec & En & _ & Et); [lia |].
    rewrite Ei in Ec, En, Et. change (Z.to_nat 0) with 0%nat in Ec. exists cAir. split; [exact Ec |].
    pose proof (keyframes_finite _ _ Ec) as Fc.
    pose proof (keyframes_finite _ _ En) as Fn.
    unfold pose_finite, THREE.vec_finite in Fc, Fn.
    rewrite !andb_true_iff in Fc, Fn.
    destruct Fc as [[[? ?] ?] [[? ?] ?]], Fn as [[[? ?] ?] [[? ?] ?]].
    assert (E0 : (ease_spec (p * 6 - inject_Z 0) == 0)%Q).
    { rewrite (ease_spec_comp _ 0) by (rewrite Ep; reflexivity). reflexivity. }
    destruct Et as [[Ex [Ey Ez]] [Rx [Ry Rz]]].
    repeat split;
      (eapply num_eq_trans; [eassumption | now apply mix_at_0]).
Qed.

Lemma pose_interpolator_target_witness :
  (400 < 1000)%Q /\ (0 <= 600)%Q /\ (600 <= 1000 - 400)%Q /\
  snd (onScroll (Fin 600) (Fin 1000) (Fin 400) init) = None.
Proof.
  assert (H : (400 < 1000)%Q) by reflexivity.
  assert (H0 : (0 <= 600)%Q) by (vm_compute; discriminate).
  assert (H1 : (600 <= 1000 - 400)%Q) by (vm_compute; discriminate).
  split; [exact H |]. split; [exact H0 |]. split; [exact H1 |].
  exact (proj1 (pose_interpolator_target 600 1000 400 init H H0 H1)).
Defined.

(* ================================================================== *)
(** ** A scrollable range of zero *)
(* ================================================================== *)

(** C8, as amended: with a scrollable range of zero (and the scroll offset 0
    such a page has) the division is unguarded: progress is [NaN], and so are
    the section index and the blend; the handler raises nothing.  The target
    transforms are not [NaN]: [NaN < 6] is false, so the handler takes the
    end-of-scroll branch and copies the last keyframe. *)
Theorem zero_range_nan_stops_at_targets (sy sh ih : Q) (st : State) :
  (sy == 0)%Q -> (sh - ih == 0)%Q ->
  let r := onScroll (Fin sy) (Fin sh) (Fin ih) st in
  scrollProgress (scroll (fst r)) = NaN /\
  currentSection (scroll (fst r)) = NaN /\
  blend (scrollProgress (scroll (fst r))) = NaN /\
  snd r = None /\
  nth_error CONFIG.aircraftPositions 6 = Some (targetPose (fst r)) /\
  vec_hasNaN (targetAircraftPosition (scroll (fst r))) = false /\
  vec_hasNaN (targetAircraftRotation (scroll (fst r))) = false.
Proof.
  intros Hsy Hrange r.
  assert (E : ndiv (Fin sy) (docHeight (Fin sh) (Fin ih)) = NaN).
  { rewrite docHeight_Fin. unfold ndiv.
    assert (Hb : Qeq_bool (sh - ih) 0 = true) by now apply Qeq_bool_iff.
    rewrite Hb.
    apply Qeq_alt in Hsy. rewrite Hsy. reflexivity. }
  unfold r, onScroll. cbv zeta. rewrite E.
  repeat split; reflexivity.
Qed.

Lemma zero_range_nan_stops_at_targets_witness :
  (0 == 0)%Q /\ (800 - 800 == 0)%Q /\
  scrollProgress (scroll (fst (onScroll (Fin 0) (Fin 800) (Fin 800) init))) = NaN.
Proof.
  assert (H : (0 == 0)%Q) by reflexivity.
  assert (H0 : (800 - 800 == 0)%Q) by reflexivity.
  split; [exact H |]. split; [exact H0 |].
  exact (proj1 (zero_range_nan_stops_at_targets 0 800 800 init H H0)).
Defined.

(** C8, as stated, fails on a page as tall as the viewport: the [NaN] does
    not reach the target transforms. *)
Lemma zero_range_targets_counterexample :
  let st' := fst (onScroll (Fin 0) (Fin 800) (Fin 800) init) in
  ~ (isNaN (scrollProgress (scroll st')) = true /\
     isNaN (currentSection (scroll st')) = true /\
     isNaN (blend (scrollProgress (scroll st'))) = true /\
     (vec_hasNaN (targetAircraftPosition (scroll st')) = true \/
      vec_hasNaN (targetAircraftRotation (scroll st')) = true)).
Proof.
  intros st' (_ & _ & _ & [H | H]); vm_compute in H; discriminate.
Qed.

(* ================================================================== *)
(** ** Hand openness and zoom *)
(* ================================================================== *)

Lemma clamp_spec_range (v lo hi : Q) :
  (lo <= hi -> lo <= clamp_spec v lo hi /\ clamp_spec v lo hi <= hi)%Q.
Proof.
  intro H. unfold clamp_spec.
  destruct (Qle_bool_spec v lo); [split; lra |].
  destruct (Qle_bool_spec hi v); split; lra.
Qed.

Lemma Math_min_Fin (p q : Q) :
  Math_min (Fin p) (Fin q) = Fin (if nlt (Fin q) (Fin p) then q else p).
Proof. unfold Math_min. now destruct (nlt (Fin q) (Fin p)). Qed.

Lemma Math_max_Fin (p q : Q) :
  Math_max (Fin p) (Fin q) = Fin (if nlt (Fin p) (Fin q) then q else p).
Proof. unfold Math_max. now destruct (nlt (Fin p) (Fin q)). Qed.

Lemma normalizedOpen_Fin (d : Q) :
  exists n : Q,
    normalizedOpen (Fin d) = Fin n /\
    (n == clamp_spec ((d - 0.08) / 0.15) 0 1)%Q.
Proof.
  unfold normalizedOpen. cbn [nsub nneg nadd].
  rewrite ndiv_Fin by (vm_compute; discriminate).
  change (d + - (0.08))%Q with (d - 0.08)%Q.
  set (v := ((d - 0.08) / 0.15)%Q).
  rewrite Math_min_Fin, Math_max_Fin.
  match goal with |- exists n, Fin ?t = Fin n /\ _ => exists t end.
  split; [reflexivity |]. unfold clamp_spec.
  destruct (nlt_Fin_spec v 1) as [Hv1 | Hv1].
  - destruct (nlt_Fin_spec 0 v) as [Hv0 | Hv0];
      destruct (Qle_bool_spec v 0); destruct (Qle_bool_spec 1 v);
      try lra; reflexivity.
  - change (nlt (Fin 0) (Fin 1)) with true. cbv iota.
    destruct (Qle_bool_spec v 0); destruct (Qle_bool_spec 1 v);
      try lra; reflexivity.
Qed.

Lemma targetZoom_Fin (n : Q) : targetZoom (Fin n) = Fin (0.5 + n * 1.5).
Proof. reflexivity. Qed.

Lemma targetZoom_range (d : Q) :
  exists n zoom : Q,
    normalizedOpen (Fin d) = Fin n /\
    (n == clamp_spec ((d - 0.08) / 0.15) 0 1)%Q /\
    targetZoom (normalizedOpen (Fin d)) = Fin zoom /\
    (zoom == 0.5 + n * 1.5)%Q /\
    (0.5 <= zoom)%Q /\ (zoom <= 2)%Q.
Proof.
  destruct (normalizedOpen_Fin d) as (n & En & Hn).
  exists n, (0.5 + n * 1.5)%Q.
  pose proof (clamp_spec_range ((d - 0.08) / 0.15) 0 1) as [Hlo Hhi]; [lra |].
  rewrite En, targetZoom_Fin.
  repeat split; try reflexivity; try assumption; lra.
Qed.

(** C6: for every average distance [d] the normalized openness is
    [clamp((d - 0.08) / 0.15, 0, 1)] and the target zoom is
    [0.5 + normalized * 1.5], which lies between 0.5 and 2; [d = 0.08] gives
    openness 0 and zoom 0.5, [d = 0.23] gives openness 1 and zoom 2. *)
Theorem zoom_from_openness (d : Q) :
  (exists n zoom : Q,
     normalizedOpen (Fin d) = Fin n /\
     (n == clamp_spec ((d - 0.08) / 0.15) 0 1)%Q /\
     targetZoom (normalizedOpen (Fin d)) = Fin zoom /\
     (zoom == 0.5 + n * 1.5)%Q /\
     (0.5 <= zoom)%Q /\ (zoom <= 2)%Q) /\
  num_eq (normalizedOpen (Fin 0.08)) (Fin 0) /\
  num_eq (targetZoom (normalizedOpen (Fin 0.08))) (Fin 0.5) /\
  num_eq (normalizedOpen (Fin 0.23)) (Fin 1) /\
  num_eq (targetZoom (normalizedOpen (Fin 0.23))) (Fin 2).
Proof.
  split; [apply targetZoom_range |].
  repeat split; vm_compute; reflexivity.
Qed.

(* ================================================================== *)
(** ** Gesture signal filter *)
(* ================================================================== *)

Section GestureFilter.
Context {host : HostMath}.

(** One tick on a full hand: every signal moves towards its raw target by its
    rate; nothing is raised, and the hand counts as detected. *)
Lemma onHandResults_tick (lm : Landmarks) (rest : list Landmarks) (st : State) :
  (21 <= List.length lm)%nat -> handCtx (ui st) = true ->
  let r := onHandResults (Some (lm :: rest)) st in
  snd r = None /\ ui (fst r) = ui st /\ scroll (fst r) = scroll st /\
  scene (fst r) = scene st /\ isHandDetected (hand (fst r)) = true /\
  forall s : signal,
    read s (hand (fst r)) =
      (read s (hand st) + (rawTarget s lm - read s (hand st)) * Fin (rate s))%num.
Proof.
  intros Hlen Hctx r. unfold r, onHandResults. rewrite Hctx. cbn [negb].
  rewrite !(nth_error_nth' lm (vec NaN NaN NaN)) by lia.
  repeat split. intros []; reflexivity.
Qed.

(** A hand with fewer than 21 landmarks: the handler raises before it writes
    any signal. *)
Lemma onHandResults_short (lm : Landmarks) (rest : list Landmarks) (st : State) :
  (List.length lm < 21)%nat -> handCtx (ui st) = true ->
  onHandResults (Some (lm :: rest)) st = (set_isHandDetected true st, Some TypeError).
Proof.
  intros Hlen Hctx. unfold onHandResults. rewrite Hctx. cbn [negb].
  assert (E : nth_error lm 20 = None) by (apply nth_error_None; lia).
  rewrite E.
  destruct (nth_error lm 8), (nth_error lm 4), (nth_error lm 0), (nth_error lm 9);
    reflexivity.
Qed.

Lemma lmk_finite (lm : Landmarks) (i : nat) :
  (i < List.length lm)%nat -> forallb THREE.vec_finite lm = true ->
  exists a b c : Q, lmk lm i = vec (Fin a) (Fin b) (Fin c).
Proof.
  intros Hi F. rewrite forallb_forall in F.
  assert (Hin : In (lmk lm i) lm) by (apply nth_In; exact Hi).
  apply F in Hin. unfold THREE.vec_finite in Hin.
  destruct (lmk lm i) as [[a | | |] [b | | |] [c | | |]]; try discriminate.
  now exists a, b, c.
Qed.

Lemma read_finite (s : signal) (h : HandVars) :
  hand_finite h = true -> exists a : Q, read s h = Fin a.
Proof.
  unfold hand_finite, THREE.vec_finite. rewrite !andb_true_iff.
  intros [[[[Hx Hy] Hz] [[Rx Ry] Rz]] Hzoom].
  destruct s; simpl;
    match goal with
    | H : isFinite ?v = true |- exists a, ?v = Fin a =>
        destruct v as [a | | |]; try discriminate; now exists a
    end.
Qed.

Section FiniteHypot.
Hypothesis hypot_finite :
  forall a b : Q, isFinite (Math_hypot (Fin a) (Fin b)) = true.

Lemma hypot_Fin (a b : Q) : exists c : Q, Math_hypot (Fin a) (Fin b) = Fin c.
Proof.
  pose proof (hypot_finite a b) as H.
  destruct (Math_hypot (Fin a) (Fin b)) as [c | | |]; try discriminate.
  now exists c.
Qed.

(** With finite landmarks every raw target is finite, and the raw zoom lies
    between 0.5 and 2. *)
Lemma rawTarget_finite (s : signal) (lm : Landmarks) :
  (21 <= List.length lm)%nat -> forallb THREE.vec_finite lm = true ->
  exists t : Q, rawTarget s lm = Fin t /\ (s = Zoom -> (0.5 <= t)%Q /\ (t <= 2)%Q).
Proof.
  intros Hlen F. unfold rawTarget. cbv zeta.
  destruct (lmk_finite lm 8) as (ix & iy & iz & E8); [lia | exact F |].
  destruct (lmk_finite lm 4) as (tx & ty & tz & E4); [lia | exact F |].
  destruct (lmk_finite lm 0) as (wx & wy & wz & E0); [lia | exact F |].
  destruct (lmk_finite lm 9) as (px & py & pz & E9); [lia | exact F |].
  destruct (lmk_finite lm 20) as (kx & ky & kz & E20); [lia | exact F |].
  destruct (lmk_finite lm 12) as (mx & my & mz & E12); [lia | exact F |].
  destruct (lmk_finite lm 16) as (rx & ry & rz & E16); [lia | exact F |].
  rewrite E8, E4, E0, E9, E20, E12, E16.
  destruct s; cbn [THREE.x THREE.y THREE.z nsub nneg nadd nmul];
    try (eexists; split; [reflexivity | discriminate]).
  unfold avgFingerDist. cbn [THREE.x THREE.y THREE.z nsub nneg nadd].
  destruct (hypot_Fin (ix + - px) (iy + - py)) as [h1 ->].
  destruct (hypot_Fin (mx + - px) (my + - py)) as [h2 ->].
  destruct (hypot_Fin (rx + - px) (ry + - py)) as [h3 ->].
  destruct (hypot_Fin (kx + - px) (ky + - py)) as [h4 ->].
  cbn [nadd]. rewrite ndiv_Fin by (vm_compute; discriminate).
  destruct (targetZoom_range ((h1 + h2 + h3 + h4) / 4))
    as (n & zoom & _ & _ & Ez & _ & Hlo & Hhi).
  exists zoom. split; [exact Ez | intros _; split; assumption].
Qed.

End FiniteHypot.
End GestureFilter.

(* ================================================================== *)
(** ** Geometric convergence of the smoothing *)
(* ================================================================== *)

Lemma smooth_step (a t alpha : Q) :
  (a + (t - a) * alpha - t == (1 - alpha) * (a - t))%Q.
Proof. ring. Qed.

Lemma qpow_pos (q : Q) (k : nat) : (0 < q -> 0 < qpow q k)%Q.
Proof.
  intro H. induction k as [| k IH]; simpl; [reflexivity |].
  apply Qmult_lt_0_compat; assumption.
Qed.

(** Bernoulli's inequality, in the form used below. *)
Lemma qpow_bernoulli (u : Q) (k : nat) :
  (0 < u -> u < 1 -> qpow (1 - u) k * (1 + inject_Z (Z.of_nat k) * u) <= 1)%Q.
Proof.
  intros H0 H1. induction k as [| k IH].
  - simpl. change (inject_Z 0) with 0%Q. lra.
  - rewrite Nat2Z.inj_succ, <- Z.add_1_r, inject_Z_plus.
    change (inject_Z 1) with 1%Q. cbn [qpow].
    set (n := inject_Z (Z.of_nat k)) in *. set (P := qpow (1 - u) k) in *.
    assert (HP : (0 < P)%Q) by (apply qpow_pos; lra).
    assert (Hn : (0 <= n)%Q)
      by (unfold n; change 0%Q with (inject_Z 0); rewrite <- Zle_Qle; lia).
    assert (Hsq : (0 <= P * ((n + 1) * (u * u)))%Q).
    { apply Qmult_le_0_compat; [lra |].
      apply Qmult_le_0_compat; [lra |]. apply Qmult_le_0_compat; lra. }
    assert (E : ((1 - u) * P * (1 + (n + 1) * u)
                 == P * (1 + n * u) - P * ((n + 1) * (u * u)))%Q) by ring.
    rewrite E. lra.
Qed.

(** A geometric sequence of ratio [1 - u] falls below every positive bound. *)
Lemma qpow_vanishes (u D eps : Q) :
  (0 < u)%Q -> (u < 1)%Q -> (0 <= D)%Q -> (0 < eps)%Q ->
  exists K : nat, forall k : nat, (K <= k)%nat -> (qpow (1 - u) k * D < eps)%Q.
Proof.
  intros H0 H1 HD Heps.
  exists (Z.to_nat (Qceiling (D / (eps * u))) + 1)%nat. intros k Hk.
  set (n := inject_Z (Z.of_nat k)). set (P := qpow (1 - u) k).
  assert (Heu : (0 < eps * u)%Q) by (apply Qmult_lt_0_compat; assumption).
  assert (Hq : (D / (eps * u) < n)%Q).
  { apply Qle_lt_trans with (inject_Z (Qceiling (D / (eps * u)))).
    - apply Qle_ceiling.
    - unfold n. rewrite <- Zlt_Qlt. lia. }
  assert (HDn : (D < n * (eps * u))%Q).
  { assert (E : (D == D / (eps * u) * (eps * u))%Q) by (field; lra).
    rewrite E at 1. apply Qmult_lt_r; assumption. }
  assert (HP : (0 < P)%Q) by (apply qpow_pos; lra).
  pose proof (qpow_bernoulli u k H0 H1) as HB. fold n in HB. fold P in HB.
  assert (H2 : (P * D < P * (n * (eps * u)))%Q) by (apply Qmult_lt_l; assumption).
  assert (E2 : (P * (n * (eps * u)) == eps * (P * (1 + n * u)) - eps * P)%Q) by ring.
  assert (H3 : (eps * (P * (1 + n * u)) <= eps * 1)%Q)
    by (apply Qmult_le_l; assumption).
  assert (H4 : (0 < eps * P)%Q) by (apply Qmult_lt_0_compat; assumption).
  lra.
Qed.

Lemma rate_range (s : signal) : (0 < rate s)%Q /\ (rate s < 1)%Q.
Proof. destruct s; split; reflexivity. Qed.

Lemma ticks_S {host : HostMath} (r : Results) (k : nat) (st : State) :
  ticks r (S k) st = fst (onHandResults r (ticks r k st)).
Proof. reflexivity. Qed.

Lemma ticks_handCtx {host : HostMath}
      (lm : Landmarks) (rest : list Landmarks) (st : State) (k : nat) :
  (21 <= List.length lm)%nat -> handCtx (ui st) = true ->
  handCtx (ui (ticks (Some (lm :: rest)) k st)) = true.
Proof.
  intros Hlen Hctx. induction k as [| k IH]; [exact Hctx |].
  rewrite ticks_S.
  destruct (onHandResults_tick lm rest _ Hlen IH) as (_ & Eui & _).
  rewrite Eui. exact IH.
Qed.

(** C5: on a full hand with finite landmarks, each tick moves each of the
    seven signals by [(rawTarget - state) * alpha], with [alpha = 0.15] for
    the position and rotation components and [alpha = 0.1] for the zoom; with
    the same landmarks repeated, after [k] ticks the distance of a signal from
    its raw target is [(1 - alpha)^k] times the initial distance, and the
    signal converges to the target. *)
Theorem gesture_filter_geometric {host : HostMath}
        (lm : Landmarks) (rest : list Landmarks) (st : State) :
  (forall a b : Q, isFinite (Math_hypot (Fin a) (Fin b)) = true) ->
  (21 <= List.length lm)%nat ->
  forallb THREE.vec_finite lm = true ->
  handCtx (ui st) = true ->
  hand_finite (hand st) = true ->
  forall s : signal,
    let after := fun k : nat => hand (ticks (Some (lm :: rest)) k st) in
    rate s = (match s with Zoom => 0.1 | _ => 0.15 end)%Q /\
    (forall k : nat,
        read s (after (S k)) =
          (read s (after k) + (rawTarget s lm - read s (after k)) * Fin (rate s))%num) /\
    exists a t : Q,
      read s (hand st) = Fin a /\
      rawTarget s lm = Fin t /\
      (forall k : nat, exists b : Q,
          read s (after k) = Fin b /\
          (b - t == qpow (1 - rate s) k * (a - t))%Q) /\
      (forall eps : Q, (0 < eps)%Q ->
         exists K : nat, forall k : nat, (K <= k)%nat ->
           exists b : Q, read s (after k) = Fin b /\ (Qabs (b - t) < eps)%Q).
Proof.
  intros Hhyp Hlen Hfin Hctx Hhand s after.
  assert (Hstep : forall k : nat,
    read s (after (S k)) =
      (read s (after k) + (rawTarget s lm - read s (after k)) * Fin (rate s))%num).
  { intro k. unfold after. rewrite ticks_S.
    destruct (onHandResults_tick lm rest (ticks (Some (lm :: rest)) k st) Hlen)
      as (_ & _ & _ & _ & _ & Hread).
    - now apply ticks_handCtx.
    - apply Hread. }
  split; [now destruct s |]. split; [exact Hstep |].
  destruct (read_finite s (hand st) Hhand) as [a Ea].
  destruct (rawTarget_finite Hhyp s lm Hlen Hfin) as (t & Et & _).
  exists a, t. split; [exact Ea |]. split; [exact Et |].
  assert (Hgeo : forall k : nat, exists b : Q,
    read s (after k) = Fin b /\ (b - t == qpow (1 - rate s) k * (a - t))%Q).
  { induction k as [| k (b & Eb & Hb)].
    - exists a. split; [exact Ea | simpl; ring].
    - exists (b + (t - b) * rate s)%Q. split.
      + rewrite Hstep, Eb, Et. reflexivity.
      + rewrite smooth_step, Hb. simpl. ring. }
  split; [exact Hgeo |].
  intros eps Heps.
  destruct (rate_range s) as [Hr0 Hr1].
  destruct (qpow_vanishes (rate s) (Qabs (a - t)) eps Hr0 Hr1 (Qabs_nonneg _) Heps)
    as [K HK].
  exists K. intros k Hk. destruct (Hgeo k) as (b & Eb & Hb).
  exists b. split; [exact Eb |].
  rewrite Hb, Qabs_Qmult.
  rewrite (Qabs_pos (qpow (1 - rate s) k)).
  - now apply HK.
  - apply Qlt_le_weak, qpow_pos. lra.
Qed.

Lemma SampleHost_hypot_finite (a b : Q) :
  isFinite (@Math_hypot SampleHost.host (Fin a) (Fin b)) = true.
Proof. reflexivity. Qed.

Lemma gesture_filter_geometric_witness :
  (21 <= List.length SampleHost.open_hand)%nat /\
  forallb THREE.vec_finite SampleHost.open_hand = true /\
  handCtx (ui init) = true /\
  hand_finite (hand init) = true /\
  rate Zoom = 0.1%Q.
Proof.
  assert (H1 : (21 <= List.length SampleHost.open_hand)%nat) by (simpl; lia).
  assert (H2 : forallb THREE.vec_finite SampleHost.open_hand = true) by reflexivity.
  assert (H3 : handCtx (ui init) = true) by reflexivity.
  assert (H4 : hand_finite (hand init) = true) by reflexivity.
  split; [exact H1 |]. split; [exact H2 |]. split; [exact H3 |].
  split; [exact H4 |].
  exact (proj1 (@gesture_filter_geometric SampleHost.host SampleHost.open_hand []
                  init SampleHost_hypot_finite H1 H2 H3 H4 Zoom)).
Defined.

(* ================================================================== *)
(** ** The zoom stays in range *)
(* ================================================================== *)

Lemma onScroll_hand (sy sh ih : num) (st : State) :
  hand (fst (onScroll sy sh ih st)) = hand st.
Proof.
  unfold onScroll. cbv zeta.
  destruct (nlt _ _);
    [destruct (array_get _ _); [destruct (array_get _ _) |] |
     destruct (array_get _ _)]; reflexivity.
Qed.

Lemma animate_hand {host : HostMath} (elapsed : num) (st : State) :
  hand (animate elapsed st) = hand st.
Proof.
  unfold animate. cbv zeta.
  destruct (aircraft (scene st)); [destruct (_ && _) |]; reflexivity.
Qed.

Lemma toggleHandControl_frame (o : Awaited) (st : State) (log : list event) :
  let st' := snd (fst (toggleHandControl o st log)) in
  hand st' = hand st /\ scroll st' = scroll st /\ scene st' = scene st /\
  handCtx (ui st') = handCtx (ui st).
Proof.
  destruct st as [sc h sn [en hs ctx btn vid ov]].
  destruct o as [[] [] [] []], en, hs, vid; repeat split.
Qed.

Lemma onHandResults_zoom {host : HostMath} (r : Results) (st : State) :
  (forall a b : Q, isFinite (Math_hypot (Fin a) (Fin b)) = true) ->
  input_finite (HandResult r) = true ->
  zoom_in_range st -> zoom_in_range (fst (onHandResults r st)).
Proof.
  intros Hhyp Hfin Hz.
  destruct (handCtx (ui st)) eqn:Hctx;
    [| unfold onHandResults; rewrite Hctx; exact Hz].
  destruct r as [[| lm rest] |];
    try (unfold onHandResults; rewrite Hctx; exact Hz).
  destruct (Nat.le_gt_cases 21 (List.length lm)) as [Hlen | Hlen].
  - destruct (onHandResults_tick lm rest st Hlen Hctx) as (_ & _ & _ & _ & _ & Hread).
    specialize (Hread Zoom). simpl in Hfin.
    destruct (rawTarget_finite Hhyp Zoom lm Hlen Hfin) as (t & Et & Ht).
    destruct Ht as [Ht0 Ht1]; [reflexivity |].
    destruct Hz as (z & Ez & Hz0 & Hz1).
    cbn [read] in Hread. rewrite Ez, Et in Hread.
    exists (z + (t - z) * 0.1)%Q. split; [exact Hread |]. split; lra.
  - rewrite onHandResults_short by assumption. exact Hz.
Qed.

Lemma step_zoom {host : HostMath} (st : State) (i : input) :
  (forall a b : Q, isFinite (Math_hypot (Fin a) (Fin b)) = true) ->
  input_finite i = true -> zoom_in_range st -> zoom_in_range (step st i).
Proof.
  intros Hhyp Hfin Hz. destruct i as [| w h | sy sh ih | r | elapsed | o]; cbn [step].
  - exact Hz.
  - unfold zoom_in_range, onWindowResize. cbv zeta.
    destruct (nlt _ _); exact Hz.
  - unfold zoom_in_range. now rewrite onScroll_hand.
  - now apply onHandResults_zoom.
  - unfold zoom_in_range. now rewrite animate_hand.
  - unfold zoom_in_range.
    destruct (toggleHandControl_frame o st []) as (E & _). now rewrite E.
Qed.

Lemma targetFov_range (z : Q) :
  (0.5 <= z)%Q -> (z <= 2)%Q ->
  targetFov (Fin z) = Fin (50 / z) /\ (25 <= 50 / z)%Q /\ (50 / z <= 100)%Q.
Proof.
  intros H0 H1. split; [| split].
  - unfold targetFov. apply ndiv_Fin. lra.
  - apply Qle_shift_div_l; lra.
  - apply Qle_shift_div_r; lra.
Qed.

(** C10: from the initial state, along every sequence of model loads,
    resizes, scroll events, detection results with finite landmarks, frames
    and toggles, [handZoom]
    stays between 0.5 and 2; so the gesture-mode target field of view
    [50 / handZoom] is a finite number between 25 and 100. *)
Theorem hand_zoom_invariant {host : HostMath} (inputs : list input) :
  (forall a b : Q, isFinite (Math_hypot (Fin a) (Fin b)) = true) ->
  forallb input_finite inputs = true ->
  handZoom (hand init) = Fin 1 /\
  exists z : Q,
    handZoom (hand (run init inputs)) = Fin z /\
    (0.5 <= z)%Q /\ (z <= 2)%Q /\
    targetFov (handZoom (hand (run init inputs))) = Fin (50 / z) /\
    (25 <= 50 / z)%Q /\ (50 / z <= 100)%Q.
Proof.
  intros Hhyp Hfin. split; [reflexivity |].
  assert (Hinv : forall st : State,
             zoom_in_range st -> zoom_in_range (run st inputs)).
  { induction inputs as [| i inputs IH]; intros st Hz; [exact Hz |].
    cbn [forallb] in Hfin. apply andb_true_iff in Hfin. destruct Hfin as [Hi Hrest].
    unfold run. cbn [fold_left]. apply (IH Hrest). now apply step_zoom. }
  destruct (Hinv init) as (z & Ez & Hz0 & Hz1).
  { exists 1%Q. split; [reflexivity |]. split; vm_compute; discriminate. }
  exists z. rewrite Ez.
  destruct (targetFov_range z Hz0 Hz1) as (Ef & Hf0 & Hf1).
  repeat split; assumption.
Qed.

Lemma hand_zoom_invariant_witness :
  forallb input_finite
    [ModelLoaded; Toggle (mkAwaited false true true true);
     HandResult (Some [SampleHost.open_hand]); Frame (Fin 1);
     HandResult None; Scroll (Fin 300) (Fin 1000) (Fin 400)] = true /\
  handZoom (hand init) = Fin 1.
Proof.
  assert (H : forallb input_finite
    [ModelLoaded; Toggle (mkAwaited false true true true);
     HandResult (Some [SampleHost.open_hand]); Frame (Fin 1);
     HandResult None; Scroll (Fin 300) (Fin 1000) (Fin 400)] = true) by reflexivity.
  split; [exact H |].
  exact (proj1 (@hand_zoom_invariant SampleHost.host _ SampleHost_hypot_finite H)).
Defined.

(* ================================================================== *)
(** ** Motion blender: which source drives the aircraft *)
(* ================================================================== *)






(* ================================================================== *)
(** ** Hand lost while gesture mode is on *)
(* ================================================================== *)

Lemma onScroll_fov (sy sh ih : num) (st : State) :
  camera_fov (scene (fst (onScroll sy sh ih st))) = CONFIG.fixedCamera_fov.
Proof.
  unfold onScroll. cbv zeta.
  destruct (nlt _ _);
    [destruct (array_get _ _); [destruct (array_get _ _) |] |
     destruct (array_get _ _)]; reflexivity.
Qed.

Lemma step_quiet {host : HostMath} (st : State) (i : input) :
  quiet i = true -> isHandDetected (hand st) = false ->
  isHandDetected (hand (step st i)) = false /\
  camera_fov (scene (step st i)) = camera_fov (scene st).
Proof.
  intros Hq Hdet. destruct i as [| w h | sy sh ih | r | elapsed | o];
    cbn [step]; try discriminate.
  - split; [exact Hdet | reflexivity].
  - unfold onHandResults.
    destruct (handCtx (ui st)); cbn [negb]; [| now split].
    destruct r as [[| lm rest] |]; try discriminate; split; reflexivity.
  - rewrite animate_hand. split; [exact Hdet |].
    unfold animate. cbv zeta. rewrite Hdet, andb_false_r.
    destruct (aircraft (scene st)); reflexivity.
  - destruct (toggleHandControl_frame o st []) as (Eh & _ & Es & _).
    rewrite Eh, Es. now split.
Qed.

Lemma run_quiet {host : HostMath} (inputs : list input) (st : State) :
  forallb quiet inputs = true -> isHandDetected (hand st) = false ->
  camera_fov (scene (run st inputs)) = camera_fov (scene st).
Proof.
  revert st. induction inputs as [| i inputs IH]; intros st Hq Hdet; [reflexivity |].
  cbn [forallb] in Hq. apply andb_true_iff in Hq. destruct Hq as [Hi Hrest].
  destruct (step_quiet st i Hi Hdet) as [Hdet' Hfov].
  unfold run. cbn [fold_left]. fold (run (step st i) inputs).
  rewrite (IH (step st i) Hrest Hdet'). exact Hfov.
Qed.

(** C7, as amended: with gesture mode on and no hand detected, the frame
    moves the aircraft towards the scroll-driven target and leaves the camera
    field of view as it is; the field of view stays at that value through
    every further frame, toggle, model load and detection result without a
    hand, and a scroll event sets it to the configured base value in one
    step. *)
Theorem hand_lost_falls_back_to_scroll {host : HostMath}
        (elapsed : num) (st : State) (a : Pose) :
  aircraft (scene st) = Some a ->
  handControlEnabled (ui st) = true ->
  isHandDetected (hand st) = false ->
  aircraft (scene (animate elapsed st)) =
    Some (scroll_frame_pose elapsed (scroll st) a) /\
  camera_fov (scene (animate elapsed st)) = camera_fov (scene st) /\
  (forall inputs : list input,
     forallb quiet inputs = true ->
     camera_fov (scene (run st inputs)) = camera_fov (scene st)) /\
  (forall (inputs : list input) (sy sh ih : num),
     camera_fov (scene (fst (onScroll sy sh ih (run st inputs)))) =
     CONFIG.fixedCamera_fov).
Proof.
  intros Ha Hen Hdet. split; [| split; [| split]].
  - unfold animate. cbv zeta. rewrite Ha, Hen, Hdet. reflexivity.
  - unfold animate. cbv zeta. rewrite Ha, Hen, Hdet. reflexivity.
  - intros inputs Hq. now apply run_quiet.
  - intros inputs sy sh ih. apply onScroll_fov.
Qed.

Lemma hand_lost_falls_back_to_scroll_witness :
  aircraft (scene hand_shown_then_lost) =
    Some (mkPose
            (vec 9.21200000%Q
                 (12954378240000000000000 # 720000000000000000000000)
                 0.002400%Q)
            (vec 1.47148000000%Q (-0.0027000)%Q 0.00129600%Q)) /\
  handControlEnabled (ui hand_shown_then_lost) = true /\
  isHandDetected (hand hand_shown_then_lost) = false /\
  camera_fov (scene (@run SampleHost.host hand_shown_then_lost
                       [Frame (Fin 2); Toggle (mkAwaited true true true true);
                        HandResult None; Frame (Fin 3)])) =
    camera_fov (scene hand_shown_then_lost).
Proof.
  assert (Ha : aircraft (scene hand_shown_then_lost) =
    Some (mkPose
            (vec 9.21200000%Q
                 (12954378240000000000000 # 720000000000000000000000)
                 0.002400%Q)
            (vec 1.47148000000%Q (-0.0027000)%Q 0.00129600%Q))) by reflexivity.
  assert (Hen : handControlEnabled (ui hand_shown_then_lost) = true) by reflexivity.
  assert (Hdet : isHandDetected (hand hand_shown_then_lost) = false) by reflexivity.
  split; [exact Ha |]. split; [exact Hen |]. split; [exact Hdet |].
  exact (proj1 (proj2 (proj2 (@hand_lost_falls_back_to_scroll SampleHost.host (Fin 2)
                         hand_shown_then_lost _ Ha Hen Hdet)))
           [Frame (Fin 2); Toggle (mkAwaited true true true true);
            HandResult None; Frame (Fin 3)] eq_refl).
Defined.

(** C7, as stated, fails: after the hand has left, a frame does not bring the
    field of view nearer to the base value; it stays where the gesture put
    it. *)
Lemma fov_stays_counterexample :
  let st := hand_shown_then_lost in
  let st' := @animate SampleHost.host (Fin 2) st in
  handControlEnabled (ui st) = true /\
  isHandDetected (hand st) = false /\
  ~ num_eq (camera_fov (scene st)) CONFIG.fixedCamera_fov /\
  camera_fov (scene st') = camera_fov (scene st) /\
  ~ nearer CONFIG.fixedCamera_fov (camera_fov (scene st)) (camera_fov (scene st')).
Proof.
  intros st st'.
  assert (E : camera_fov (scene st') = camera_fov (scene st)) by reflexivity.
  split; [reflexivity |]. split; [reflexivity |]. split; [| split].
  - vm_compute. discriminate.
  - exact E.
  - rewrite E. unfold nearer. cbn [CONFIG.fixedCamera_fov].
    destruct (camera_fov (scene st)); try tauto. apply Qlt_irrefl.
Qed.

(* ================================================================== *)
(** ** Camera acquisition fails *)
(* ================================================================== *)

(** C9: when gesture mode is off and the camera is refused, a click on the
    button ends without an exception; it asks for the camera once, shows
    one alert and starts no detection; [handControlEnabled] is still false,
    the button reads HAND CONTROL again, and nothing else of the control
    state has changed. *)
Theorem camera_refused_reverts_toggle (o : Awaited) (st : State) :
  handControlEnabled (ui st) = false ->
  window_Hands o || scripts_load o = true ->
  camera_granted o = false ->
  let result := fst (fst (toggleHandControl o st [])) in
  let st' := snd (fst (toggleHandControl o st [])) in
  let log := snd (toggleHandControl o st []) in
  result = inl tt /\
  log = (if window_Hands o then [] else [LoadScripts]) ++
        [GetUserMedia; ConsoleError CameraError; Alert "Camera access denied"] /\
  count is_alert log = 1%nat /\
  count is_getUserMedia log = 1%nat /\
  count is_handsSend log = 0%nat /\
  handControlEnabled (ui st') = handControlEnabled (ui st) /\
  btn_innerHTML (ui st') = label_idle /\
  (btn_innerHTML (ui st) = label_idle -> btn_innerHTML (ui st') = btn_innerHTML (ui st)) /\
  video_srcObject (ui st') = video_srcObject (ui st) /\
  overlay_shown (ui st') = overlay_shown (ui st) /\
  hand st' = hand st /\ scroll st' = scroll st /\ scene st' = scene st.
Proof.
  intros Hen Hload Hcam.
  destruct st as [sc h sn [en hs ctx btn vid ov]].
  destruct o as [wh sl cg vp].
  cbn [ui handControlEnabled camera_granted window_Hands scripts_load] in *.
  subst en cg.
  destruct wh, sl; try discriminate; cbv zeta;
    (repeat split; try reflexivity; intro E; cbn in E |- *; now rewrite E).
Qed.

Lemma camera_refused_reverts_toggle_witness :
  handControlEnabled (ui init) = false /\
  btn_innerHTML (ui (snd (fst (toggleHandControl (mkAwaited false true false true) init []))))
    = label_idle.
Proof.
  assert (H : handControlEnabled (ui init) = false) by reflexivity.
  split; [exact H |].
  exact (proj1 (proj2 (proj2 (proj2 (proj2 (proj2 (proj2
    (camera_refused_reverts_toggle (mkAwaited false true false true) init
       H eq_refl eq_refl)))))))).
Defined.

(* ================================================================== *)
(** ** Scroll events outside the page *)
(* ================================================================== *)

Lemma array_get_negative {A : Type} (arr : list A) (i : Z) :
  (i < 0)%Z -> array_get arr (Fin (inject_Z i)) = None.
Proof.
  intro H. unfold array_get, is_index. rewrite Qfloor_Z.
  assert (E : (0 <=? i)%Z = false) by (apply Z.leb_gt; exact H).
  rewrite E, andb_false_r. reflexivity.
Qed.

Lemma nlt_section (i : Z) :
  nlt (Fin (inject_Z i)) (Fin 6) = true <-> (i < 6)%Z.
Proof.
  rewrite nlt_Fin. change 6%Q with (inject_Z 6). rewrite <- Zlt_Qlt. reflexivity.
Qed.

(** A section index below 0: keyframe [-1] is [undefined], and reading its
    position raises; the targets keep their values. *)
Lemma onScroll_negative_section (sy sh ih : Q) (st : State) :
  (ih < sh)%Q -> (Qfloor (sy / (sh - ih) * 6) < 0)%Z ->
  snd (onScroll (Fin sy) (Fin sh) (Fin ih) st) = Some TypeError /\
  targetPose (fst (onScroll (Fin sy) (Fin sh) (Fin ih) st)) = targetPose st.
Proof.
  intros H Hi. unfold onScroll. cbv zeta. rewrite progress_Fin by exact H.
  rewrite sectionIndex_Fin.
  change (total - Fin 1)%num with (Fin 6).
  assert (Hs : nlt (Fin (inject_Z (Qfloor (sy / (sh - ih) * 6)))) (Fin 6) = true)
    by (apply nlt_section; lia).
  rewrite Hs, array_get_negative by exact Hi.
  split; reflexivity.
Qed.

(** A section index of 6 or more: the last keyframe is copied. *)
Lemma onScroll_past_last (sy sh ih : Q) (st : State) :
  (ih < sh)%Q -> (6 <= Qfloor (sy / (sh - ih) * 6))%Z ->
  snd (onScroll (Fin sy) (Fin sh) (Fin ih) st) = None /\
  nth_error CONFIG.aircraftPositions 6 =
    Some (targetPose (fst (onScroll (Fin sy) (Fin sh) (Fin ih) st))).
Proof.
  intros H Hi. unfold onScroll. cbv zeta. rewrite progress_Fin by exact H.
  rewrite sectionIndex_Fin.
  change (total - Fin 1)%num with (Fin 6).
  assert (Hs : nlt (Fin (inject_Z (Qfloor (sy / (sh - ih) * 6)))) (Fin 6) = false).
  { destruct (nlt _ _) eqn:E; [| reflexivity]. apply nlt_section in E. lia. }
  rewrite Hs. split; reflexivity.
Qed.

Lemma floor_negative (q : Q) : (q < 0)%Q -> (Qfloor q < 0)%Z.
Proof.
  intro H. pose proof (Qfloor_le q) as Hle.
  rewrite Zlt_Qlt. change (inject_Z 0) with 0%Q. lra.
Qed.

Lemma floor_at_least (q : Q) (n : Z) : (inject_Z n <= q)%Q -> (n <= Qfloor q)%Z.
Proof.
  intro H. rewrite <- (Qfloor_Z n). now apply Qfloor_resp_le.
Qed.

Lemma floor_nonnegative (q : Q) : (0 <= q)%Q -> (0 <= Qfloor q)%Z.
Proof. intro H. now apply floor_at_least. Qed.

Lemma progress_negative (sy sh ih : Q) :
  (ih < sh)%Q -> (sy < 0)%Q -> (sy / (sh - ih) * 6 < 0)%Q.
Proof.
  intros H Hsy.
  assert (sy / (sh - ih) < 0)%Q by (apply Qlt_shift_div_r; lra).
  lra.
Qed.

Lemma progress_nonnegative (sy sh ih : Q) :
  (ih < sh)%Q -> (0 <= sy)%Q -> (0 <= sy / (sh - ih) * 6)%Q.
Proof.
  intros H Hsy.
  assert (0 <= sy / (sh - ih))%Q by (apply Qle_shift_div_l; lra).
  lra.
Qed.

(** X1: on a page with a positive scrollable range the scroll handler raises
    exactly when the scroll offset is negative (an overscroll above the
    page), and then by a [TypeError]; in that case it has already written
    progress, which is negative, and the base field of view, and it leaves
    the aircraft targets and the hand and control variables as they were. *)
Theorem onScroll_raises_iff_above_page (sy sh ih : Q) (st : State) :
  (ih < sh)%Q ->
  let r := onScroll (Fin sy) (Fin sh) (Fin ih) st in
  (snd r = Some TypeError <-> (sy < 0)%Q) /\
  (snd r = None <-> (0 <= sy)%Q) /\
  ((sy < 0)%Q ->
   targetPose (fst r) = targetPose st /\
   scrollProgress (scroll (fst r)) = Fin (sy / (sh - ih)) /\
   (sy / (sh - ih) < 0)%Q /\
   camera_fov (scene (fst r)) = CONFIG.fixedCamera_fov /\
   hand (fst r) = hand st /\ ui (fst r) = ui st).
Proof.
  intros H r.
  assert (Hneg : (sy < 0)%Q -> snd r = Some TypeError /\ targetPose (fst r) = targetPose st).
  { intro Hsy. apply onScroll_negative_section; [exact H |].
    apply floor_negative. now apply progress_negative. }
  assert (Hpos : (0 <= sy)%Q -> snd r = None).
  { intro Hsy.
    pose proof (floor_nonnegative _ (progress_nonnegative sy sh ih H Hsy)) as Hi.
    destruct (Z_lt_le_dec (Qfloor (sy / (sh - ih) * 6)) 6) as [Hlt | Hge].
    - destruct (onScroll_interpolates sy sh ih st
                  (Z.to_nat (Qfloor (sy / (sh - ih) * 6))) H)
        as (_ & _ & _ & _ & Enone & _); [lia | lia | exact Enone].
    - now apply onScroll_past_last. }
  split; [| split].
  - split; [| apply Hneg].
    intro E. destruct (Qlt_le_dec sy 0) as [Hsy | Hsy]; [exact Hsy |].
    rewrite (Hpos Hsy) in E. discriminate.
  - split; [| exact Hpos].
    intro E. destruct (Qlt_le_dec sy 0) as [Hsy | Hsy]; [| exact Hsy].
    destruct (Hneg Hsy) as [E' _]. rewrite E' in E. discriminate.
  - intro Hsy. destruct (Hneg Hsy) as [_ Et].
    destruct (onScroll_progress sy sh ih st H) as [Ep _].
    split; [exact Et |]. split; [exact Ep |].
    split; [apply Qlt_shift_div_r; lra |].
    split; [apply onScroll_fov |].
    split; [apply onScroll_hand |].
    unfold r, onScroll. cbv zeta.
    destruct (nlt _ _);
      [destruct (array_get _ _); [destruct (array_get _ _) |] |
       destruct (array_get _ _)]; reflexivity.
Qed.

Lemma onScroll_raises_iff_above_page_witness :
  (400 < 1000)%Q /\
  (snd (onScroll (Fin (-3)) (Fin 1000) (Fin 400) init) = Some TypeError <-> (-3 < 0)%Q).
Proof.
  assert (H : (400 < 1000)%Q) by reflexivity.
  split; [exact H |].
  exact (proj1 (onScroll_raises_iff_above_page (-3) 1000 400 init H)).
Defined.

(** X2: a scroll offset at or past the end of the scrollable range (a page
    that has shrunk since the last layout) raises nothing and sets the target
    to the last keyframe as it stands, however far past the end it is. *)
Theorem onScroll_past_end_holds_last_keyframe (sy sh ih : Q) (st : State) :
  (ih < sh)%Q -> (sh - ih <= sy)%Q ->
  let r := onScroll (Fin sy) (Fin sh) (Fin ih) st in
  snd r = None /\
  nth_error CONFIG.aircraftPositions 6 = Some (targetPose (fst r)) /\
  exists p : Q, scrollProgress (scroll (fst r)) = Fin p /\ (1 <= p)%Q.
Proof.
  intros H Hsy r.
  assert (Hp : (1 <= sy / (sh - ih))%Q) by (apply Qle_shift_div_l; lra).
  assert (Hi : (6 <= Qfloor (sy / (sh - ih) * 6))%Z).
  { apply floor_at_least. change (inject_Z 6) with 6%Q. lra. }
  destruct (onScroll_past_last sy sh ih st H Hi) as [E1 E2].
  split; [exact E1 |]. split; [exact E2 |].
  exists (sy / (sh - ih))%Q. split; [| exact Hp].
  apply (onScroll_progress sy sh ih st H).
Qed.

Lemma onScroll_past_end_holds_last_keyframe_witness :
  (400 < 1000)%Q /\ (1000 - 400 <= 900)%Q /\
  snd (onScroll (Fin 900) (Fin 1000) (Fin 400) init) = None.
Proof.
  assert (H : (400 < 1000)%Q) by reflexivity.
  assert (H0 : (1000 - 400 <= 900)%Q) by (vm_compute; discriminate).
  split; [exact H |]. split; [exact H0 |].
  exact (proj1 (onScroll_past_end_holds_last_keyframe 900 1000 400 init H H0)).
Defined.

(* ================================================================== *)
(** ** The target along the scroll *)
(* ================================================================== *)

Lemma ease_value (t : Q) :
  exists e : Q, ease (Fin t) = Fin e /\ (e == ease_spec t)%Q.
Proof.
  pose proof (ease_Fin t) as H.
  destruct (ease (Fin t)) as [e | | |]; simpl in H; try contradiction.
  now exists e.
Qed.

Lemma ease_spec_range (t : Q) :
  (0 <= t -> t <= 1 -> 0 <= ease_spec t /\ ease_spec t <= 1)%Q.
Proof.
  intros H0 H1.
  pose proof (ease_spec_monotone 0 t) as Hlo.
  pose proof (ease_spec_monotone t 1) as Hhi.
  assert (E0 : (ease_spec 0 == 0)%Q) by reflexivity.
  assert (E1 : (ease_spec 1 == 1)%Q) by reflexivity.
  split; [rewrite <- E0; apply Hlo | rewrite <- E1; apply Hhi]; lra.
Qed.

Lemma lerp_at_0 (a b : num) (e : Q) :
  isFinite a = true -> isFinite b = true -> (e == 0)%Q ->
  num_eq (a + (b - a) * Fin e)%num a.
Proof.
  destruct a as [p | | |], b as [q | | |]; try discriminate.
  intros _ _ E. simpl. rewrite E. ring.
Qed.

Lemma lerpVectors_at_0 (v w : Vector3) (e : Q) :
  THREE.vec_finite v = true -> THREE.vec_finite w = true -> (e == 0)%Q ->
  THREE.vec_eq (THREE.lerpVectors v w (Fin e)) v.
Proof.
  unfold THREE.vec_finite. rewrite !andb_true_iff.
  intros [[? ?] ?] [[? ?] ?] E.
  repeat split; simpl; now apply lerp_at_0.
Qed.

Lemma lerp_between (a b : num) (e : Q) :
  isFinite a = true -> isFinite b = true -> (0 <= e)%Q -> (e <= 1)%Q ->
  between a b (a + (b - a) * Fin e)%num.
Proof.
  destruct a as [p | | |], b as [q | | |]; try discriminate.
  intros _ _ H0 H1. simpl.
  destruct (Qlt_le_dec q p) as [Hqp | Hpq].
  - right.
    assert (0 <= (p - q) * e)%Q by (apply Qmult_le_0_compat; lra).
    assert (0 <= (p - q) * (1 - e))%Q by (apply Qmult_le_0_compat; lra).
    split; lra.
  - left.
    assert (0 <= (q - p) * e)%Q by (apply Qmult_le_0_compat; lra).
    assert (0 <= (q - p) * (1 - e))%Q by (apply Qmult_le_0_compat; lra).
    split; lra.
Qed.

Lemma lerpVectors_between (v w : Vector3) (e : Q) :
  THREE.vec_finite v = true -> THREE.vec_finite w = true ->
  (0 <= e)%Q -> (e <= 1)%Q ->
  vec_between v w (THREE.lerpVectors v w (Fin e)).
Proof.
  unfold THREE.vec_finite. rewrite !andb_true_iff.
  intros [[? ?] ?] [[? ?] ?] He0 He1.
  repeat split; simpl; now apply lerp_between.
Qed.

(** X3: when [progress * 6] is a whole number [i] from 0 to 6 (the scroll
    stands at the start of section [i]), the target pose equals keyframe [i]:
    every keyframe is reached exactly, not only the first and the last. *)
Theorem keyframe_at_section_start (sy sh ih : Q) (st : State) (i : nat) :
  (ih < sh)%Q -> (i <= 6)%nat ->
  (sy / (sh - ih) * 6 == inject_Z (Z.of_nat i))%Q ->
  exists k : Pose,
    nth_error CONFIG.aircraftPositions i = Some k /\
    pose_eq (targetPose (fst (onScroll (Fin sy) (Fin sh) (Fin ih) st))) k.
Proof.
  intros H Hi Hp.
  assert (Hfl : Qfloor (sy / (sh - ih) * 6) = Z.of_nat i)
    by (rewrite (Qfloor_comp _ _ Hp); apply Qfloor_Z).
  destruct (Nat.eq_dec i 6) as [E6 | N6].
  - subst i. destruct (onScroll_last sy sh ih st H Hfl) as [_ E].
    exists (targetPose (fst (onScroll (Fin sy) (Fin sh) (Fin ih) st))).
    split; [exact E |]. split; repeat split; apply num_eq_refl.
  - destruct (onScroll_interpolates sy sh ih st i H Hfl)
      as (cAir & nAir & Ec & En & _ & Et); [lia |].
    exists cAir. split; [exact Ec |]. rewrite Et. cbv zeta.
    rewrite blend_Fin.
    destruct (ease_value (sy / (sh - ih) * 6 - inject_Z (Qfloor (sy / (sh - ih) * 6))))
      as (e & Ee & He).
    rewrite Ee.
    assert (E0 : (e == 0)%Q).
    { rewrite He, (ease_spec_comp _ 0); [reflexivity |]. rewrite Hfl, Hp. ring. }
    pose proof (keyframes_finite _ _ Ec) as Fc.
    pose proof (keyframes_finite _ _ En) as Fn.
    unfold pose_finite in Fc, Fn. apply andb_true_iff in Fc, Fn.
    destruct Fc, Fn.
    split; simpl; now apply lerpVectors_at_0.
Qed.

Lemma keyframe_at_section_start_witness :
  (400 < 1000)%Q /\ (4 <= 6)%nat /\
  (400 / (1000 - 400) * 6 == inject_Z (Z.of_nat 4))%Q /\
  exists k : Pose,
    nth_error CONFIG.aircraftPositions 4 = Some k /\
    pose_eq (targetPose (fst (onScroll (Fin 400) (Fin 1000) (Fin 400) init))) k.
Proof.
  assert (H : (400 < 1000)%Q) by reflexivity.
  assert (H0 : (4 <= 6)%nat) by lia.
  assert (H1 : (400 / (1000 - 400) * 6 == inject_Z (Z.of_nat 4))%Q) by reflexivity.
  split; [exact H |]. split; [exact H0 |]. split; [exact H1 |].
  exact (keyframe_at_section_start 400 1000 400 init 4 H H0 H1).
Defined.

(** X4: within the scrollable range the target never overshoots: each
    component of the target position and rotation lies between the
    corresponding components of the keyframe of the current section and of
    the next one. *)
Theorem target_between_keyframes (sy sh ih : Q) (st : State) :
  (ih < sh)%Q -> (0 <= sy)%Q -> (sy < sh - ih)%Q ->
  let i := Z.to_nat (Qfloor (sy / (sh - ih) * 6)) in
  exists cAir nAir : Pose,
    nth_error CONFIG.aircraftPositions i = Some cAir /\
    nth_error CONFIG.aircraftPositions (i + 1) = Some nAir /\
    pose_between cAir nAir
      (targetPose (fst (onScroll (Fin sy) (Fin sh) (Fin ih) st))).
Proof.
  intros H H0 H1 i.
  assert (Hp1 : (sy / (sh - ih) < 1)%Q) by (apply Qlt_shift_div_r; lra).
  pose proof (progress_nonnegative sy sh ih H H0) as Hp0.
  destruct (floor_bounds (sy / (sh - ih) * 6) 0 6) as [Hlo Hhi].
  { change (inject_Z 0) with 0%Q. exact Hp0. }
  { change (inject_Z 6) with 6%Q. lra. }
  destruct (onScroll_interpolates sy sh ih st i H)
    as (cAir & nAir & Ec & En & _ & Et); [unfold i; lia | unfold i; lia |].
  exists cAir, nAir. split; [exact Ec |]. split; [exact En |].
  rewrite Et. cbv zeta. rewrite blend_Fin.
  destruct (blend_range (sy / (sh - ih) * 6)) as [Hb0 Hb1].
  destruct (ease_value (sy / (sh - ih) * 6 - inject_Z (Qfloor (sy / (sh - ih) * 6))))
    as (e & Ee & He).
  rewrite Ee.
  destruct (ease_spec_range
              (sy / (sh - ih) * 6 - inject_Z (Qfloor (sy / (sh - ih) * 6))))
    as [He0 He1]; [exact Hb0 | lra |].
  rewrite <- He in He0, He1.
  pose proof (keyframes_finite _ _ Ec) as Fc.
  pose proof (keyframes_finite _ _ En) as Fn.
  unfold pose_finite in Fc, Fn. apply andb_true_iff in Fc, Fn.
  destruct Fc, Fn.
  split; simpl; now apply lerpVectors_between.
Qed.

Lemma target_between_keyframes_witness :
  (400 < 1000)%Q /\ (0 <= 250)%Q /\ (250 < 1000 - 400)%Q /\
  exists cAir nAir : Pose,
    nth_error CONFIG.aircraftPositions
      (Z.to_nat (Qfloor (250 / (1000 - 400) * 6))) = Some cAir /\
    nth_error CONFIG.aircraftPositions
      (Z.to_nat (Qfloor (250 / (1000 - 400) * 6)) + 1) = Some nAir /\
    pose_between cAir nAir
      (targetPose (fst (onScroll (Fin 250) (Fin 1000) (Fin 400) init))).
Proof.
  assert (H : (400 < 1000)%Q) by reflexivity.
  assert (H0 : (0 <= 250)%Q) by (vm_compute; discriminate).
  assert (H1 : (250 < 1000 - 400)%Q) by reflexivity.
  split; [exact H |]. split; [exact H0 |]. split; [exact H1 |].
  exact (target_between_keyframes 250 1000 400 init H H0 H1).
Defined.

(* ================================================================== *)
(** ** What a handler leaves alone *)
(* ================================================================== *)

Lemma onScroll_frame (sy sh ih : num) (st : State) :
  let st' := fst (onScroll sy sh ih st) in
  hand st' = hand st /\ ui st' = ui st /\
  aircraft (scene st') = aircraft (scene st) /\
  camera_position (scene st') = camera_position (scene st) /\
  controls_target (scene st') = controls_target (scene st) /\
  targetCameraPosition (scroll st') = CONFIG.fixedCamera_position /\
  targetCameraTarget (scroll st') = CONFIG.fixedCamera_target.
Proof.
  unfold onScroll. cbv zeta.
  destruct (nlt _ _);
    [destruct (array_get _ _); [destruct (array_get _ _) |] |
     destruct (array_get _ _)]; repeat split.
Qed.

Lemma onHandResults_frame {host : HostMath} (r : Results) (st : State) :
  let st' := fst (onHandResults r st) in
  scroll st' = scroll st /\ scene st' = scene st /\ ui st' = ui st.
Proof.
  unfold onHandResults.
  destruct (handCtx (ui st)); cbn [negb]; [| repeat split].
  destruct r as [[| lm rest] |]; [repeat split | | repeat split].
  destruct (nth_error lm 8), (nth_error lm 4), (nth_error lm 0), (nth_error lm 9),
    (nth_error lm 20), (nth_error lm 12), (nth_error lm 16); repeat split.
Qed.

Lemma onWindowResize_frame (w h : num) (st : State) :
  let st' := onWindowResize w h st in
  scroll st' = scroll st /\ hand st' = hand st /\ ui st' = ui st /\
  aircraft (scene st') = aircraft (scene st) /\
  camera_position (scene st') = camera_position (scene st) /\
  controls_target (scene st') = controls_target (scene st).
Proof.
  unfold onWindowResize. cbv zeta. destruct (nlt _ _); repeat split.
Qed.

Lemma animate_frame {host : HostMath} (elapsed : num) (st : State) :
  let st' := animate elapsed st in
  scroll st' = scroll st /\ hand st' = hand st /\ ui st' = ui st /\
  camera_position (scene st') =
    THREE.lerp (camera_position (scene st)) (targetCameraPosition (scroll st)) (Fin 0.05) /\
  controls_target (scene st') =
    THREE.lerp (controls_target (scene st)) (targetCameraTarget (scroll st)) (Fin 0.05).
Proof.
  unfold animate. cbv zeta.
  destruct (aircraft (scene st)); [destruct (_ && _) |]; repeat split.
Qed.

(* ================================================================== *)
(** ** [NaN] in the aircraft position *)
(* ================================================================== *)

Lemma nadd_NaN_l (a : num) : nadd NaN a = NaN.
Proof. reflexivity. Qed.

Lemma nadd_NaN_r (a : num) : nadd a NaN = NaN.
Proof. now destruct a. Qed.

Lemma nmul_NaN_l (a : num) : nmul NaN a = NaN.
Proof. reflexivity. Qed.

Lemma nmul_NaN_r (a : num) : nmul a NaN = NaN.
Proof. now destruct a. Qed.

Lemma nsub_NaN_l (a : num) : nsub NaN a = NaN.
Proof. reflexivity. Qed.

Create Rewrite HintDb nan.
#[local] Hint Rewrite nadd_NaN_l nadd_NaN_r nmul_NaN_l nmul_NaN_r nsub_NaN_l : nan.

Lemma zero_range_progress (sy sh ih : Q) :
  (sy == 0)%Q -> (sh - ih == 0)%Q ->
  ndiv (Fin sy) (docHeight (Fin sh) (Fin ih)) = NaN.
Proof.
  intros Hsy Hrange. rewrite docHeight_Fin. unfold ndiv.
  assert (Hb : Qeq_bool (sh - ih) 0 = true) by now apply Qeq_bool_iff.
  rewrite Hb. apply Qeq_alt in Hsy. rewrite Hsy. reflexivity.
Qed.

Lemma onScroll_zero_range_progress (sy sh ih : Q) (st : State) :
  (sy == 0)%Q -> (sh - ih == 0)%Q ->
  scrollProgress (scroll (fst (onScroll (Fin sy) (Fin sh) (Fin ih) st))) = NaN.
Proof.
  intros Hsy Hrange. unfold onScroll. cbv zeta.
  rewrite zero_range_progress by assumption. reflexivity.
Qed.

(** X5: the [NaN] progress of a page without scrollable range reaches the
    aircraft on the next frame in scroll mode: with a host whose sine and
    cosine give [NaN] at [NaN], the frame sets all three components of the
    aircraft position to [NaN], whatever the position was. *)
Theorem nan_progress_reaches_aircraft {host : HostMath}
        (sh ih : Q) (elapsed : num) (st : State) (a : Pose) :
  Math_sin NaN = NaN -> Math_cos NaN = NaN ->
  (sh - ih == 0)%Q ->
  aircraft (scene st) = Some a ->
  handControlEnabled (ui st) && isHandDetected (hand st) = false ->
  exists a' : Pose,
    aircraft (scene (animate elapsed (fst (onScroll (Fin 0) (Fin sh) (Fin ih) st))))
      = Some a' /\
    position a' = vec NaN NaN NaN.
Proof.
  intros Hsin Hcos Hrange Ha Hg.
  destruct (onScroll_frame (Fin 0) (Fin sh) (Fin ih) st)
    as (Ehand & Eui & Eair & _).
  pose proof (onScroll_zero_range_progress 0 sh ih st (Qeq_refl 0) Hrange) as Ep.
  set (st1 := fst (onScroll (Fin 0) (Fin sh) (Fin ih) st)) in *.
  unfold animate. cbv zeta. rewrite Eair, Ha, Eui, Ehand, Hg.
  eexists. split; [reflexivity |].
  cbn [position]. unfold breathe, THREE.lerp, scrollTargetPosition.
  cbn [THREE.x THREE.y THREE.z]. rewrite Ep.
  autorewrite with nan. rewrite Hsin, Hcos. autorewrite with nan.
  reflexivity.
Qed.

Lemma nan_progress_reaches_aircraft_witness :
  (800 - 800 == 0)%Q /\
  exists a' : Pose,
    aircraft (scene (@animate SampleHost.host (Fin 1)
                       (fst (onScroll (Fin 0) (Fin 800) (Fin 800) (onModelLoaded init)))))
      = Some a' /\
    position a' = vec NaN NaN NaN.
Proof.
  assert (H : (800 - 800 == 0)%Q) by reflexivity.
  split; [exact H |].
  exact (@nan_progress_reaches_aircraft SampleHost.host 800 800 (Fin 1)
           (onModelLoaded init) _ eq_refl eq_refl H eq_refl eq_refl).
Defined.

Lemma lerp_hasNaN (v w : Vector3) (alpha : num) :
  vec_hasNaN v = true -> vec_hasNaN (THREE.lerp v w alpha) = true.
Proof.
  unfold vec_hasNaN, THREE.lerp. cbn [THREE.x THREE.y THREE.z].
  rewrite !orb_true_iff. intros [[H | H] | H];
    [left; left | left; right | right];
    match goal with
    | H : isNaN ?c = true |- _ => destruct c; try discriminate; reflexivity
    end.
Qed.

Lemma breathe_hasNaN {host : HostMath} (elapsed : num) (v : Vector3) :
  vec_hasNaN v = true -> vec_hasNaN (breathe elapsed v) = true.
Proof.
  unfold vec_hasNaN, breathe. cbn [THREE.x THREE.y THREE.z].
  rewrite !orb_true_iff. intros [[H | H] | H];
    [left; left; exact H | left; right | right; exact H].
  destruct (THREE.y v); try discriminate; reflexivity.
Qed.

Lemma animate_position_lost {host : HostMath} (elapsed : num) (st : State) :
  position_lost st -> position_lost (animate elapsed st).
Proof.
  intros (a & Ha & Hnan). unfold position_lost, animate. cbv zeta. rewrite Ha.
  destruct (_ && _); eexists; (split; [reflexivity |]);
    cbn [position]; apply breathe_hasNaN, lerp_hasNaN, Hnan.
Qed.

Lemma step_position_lost {host : HostMath} (st : State) (i : input) :
  not_ModelLoaded i = true -> position_lost st -> position_lost (step st i).
Proof.
  intros Hi Hl. destruct i as [| w h | sy sh ih | r | elapsed | o];
    cbn [step]; try discriminate.
  - destruct (onWindowResize_frame w h st) as (_ & _ & _ & E & _).
    unfold position_lost. now rewrite E.
  - destruct (onScroll_frame sy sh ih st) as (_ & _ & E & _).
    unfold position_lost. now rewrite E.
  - destruct (onHandResults_frame r st) as (_ & E & _).
    unfold position_lost. now rewrite E.
  - now apply animate_position_lost.
  - destruct (toggleHandControl_frame o st []) as (_ & _ & E & _).
    unfold position_lost. now rewrite E.
Qed.

(** X6: a [NaN] in the aircraft position is never repaired: once a component
    of the position is [NaN], it stays [NaN] through every sequence of
    resizes, scroll events, detection results, frames (in scroll mode and in
    gesture mode) and toggles; only a new model load writes the position
    afresh. *)
Theorem aircraft_lost_for_good {host : HostMath} (st : State) (inputs : list input) :
  position_lost st ->
  forallb not_ModelLoaded inputs = true ->
  position_lost (run st inputs).
Proof.
  revert st. induction inputs as [| i inputs IH]; intros st Hl Hin; [exact Hl |].
  cbn [forallb] in Hin. apply andb_true_iff in Hin. destruct Hin as [Hi Hrest].
  unfold run. cbn [fold_left]. apply IH; [| exact Hrest].
  now apply step_position_lost.
Qed.

Lemma aircraft_lost_for_good_witness :
  position_lost
    (@animate SampleHost.host (Fin 1)
       (fst (onScroll (Fin 0) (Fin 800) (Fin 800) (onModelLoaded init)))) /\
  position_lost
    (@run SampleHost.host
       (@animate SampleHost.host (Fin 1)
          (fst (onScroll (Fin 0) (Fin 800) (Fin 800) (onModelLoaded init))))
       [Scroll (Fin 300) (Fin 1000) (Fin 400); Frame (Fin 2);
        Toggle (mkAwaited false true true true);
        HandResult (Some [SampleHost.open_hand]); Frame (Fin 3)]).
Proof.
  assert (H : position_lost
    (@animate SampleHost.host (Fin 1)
       (fst (onScroll (Fin 0) (Fin 800) (Fin 800) (onModelLoaded init)))))
    by (eexists; split; reflexivity).
  split; [exact H |].
  exact (@aircraft_lost_for_good SampleHost.host _
           [Scroll (Fin 300) (Fin 1000) (Fin 400); Frame (Fin 2);
            Toggle (mkAwaited false true true true);
            HandResult (Some [SampleHost.open_hand]); Frame (Fin 3)]
           H eq_refl).
Defined.

(* ================================================================== *)
(** ** The camera *)
(* ================================================================== *)

Lemma lerp_fixed_point (v t : Vector3) (alpha : Q) :
  THREE.vec_finite t = true -> THREE.vec_eq v t ->
  THREE.vec_eq (THREE.lerp v t (Fin alpha)) t.
Proof.
  destruct v as [vx vy vz], t as [tx ty tz].
  unfold THREE.vec_finite, THREE.vec_eq, THREE.lerp. cbn [THREE.x THREE.y THREE.z].
  rewrite !andb_true_iff. intros [[Fx Fy] Fz] (Ex & Ey & Ez).
  destruct tx as [tx | | |], ty as [ty | | |], tz as [tz | | |]; try discriminate.
  destruct vx as [vx | | |], vy as [vy | | |], vz as [vz | | |];
    simpl in Ex, Ey, Ez; try contradiction.
  simpl. rewrite Ex, Ey, Ez. repeat split; ring.
Qed.

Lemma step_camera_at_rest {host : HostMath} (st : State) (i : input) :
  camera_at_rest st -> camera_at_rest (step st i).
Proof.
  intros (Ep & Et & Hc & Hk). unfold camera_at_rest.
  destruct i as [| w h | sy sh ih | r | elapsed | o]; cbn [step].
  - unfold onModelLoaded. cbn [scroll scene camera_position controls_target].
    auto.
  - destruct (onWindowResize_frame w h st) as (E1 & _ & _ & _ & E2 & E3).
    rewrite E1, E2, E3. auto.
  - destruct (onScroll_frame sy sh ih st) as (_ & _ & _ & E2 & E3 & E4 & E5).
    rewrite E2, E3, E4, E5. auto.
  - destruct (onHandResults_frame r st) as (E1 & E2 & _).
    rewrite E1, E2. auto.
  - destruct (animate_frame elapsed st) as (E1 & _ & _ & E2 & E3).
    rewrite E1, E2, E3, Ep, Et.
    split; [reflexivity |]. split; [reflexivity |].
    split; apply lerp_fixed_point; try reflexivity; assumption.
  - destruct (toggleHandControl_frame o st []) as (_ & E1 & E2 & _).
    rewrite E1, E2. auto.
Qed.

(** X7: the camera is fixed: from the initial state, through every sequence
    of model loads, resizes, scroll events, detection results, frames and
    toggles, the camera targets are the configured position and look-at
    point, and the camera position and the look-at point of the controls
    equal them.  Only the field of view changes. *)
Theorem camera_never_moves {host : HostMath} (inputs : list input) :
  camera_at_rest (run init inputs).
Proof.
  assert (Hinv : forall st : State, camera_at_rest st -> camera_at_rest (run st inputs)).
  { induction inputs as [| i inputs IH]; intros st Hst; [exact Hst |].
    unfold run. cbn [fold_left]. apply IH. now apply step_camera_at_rest. }
  apply Hinv. unfold camera_at_rest.
  split; [reflexivity |]. split; [reflexivity |].
  split; repeat split; reflexivity.
Qed.

(* ================================================================== *)
(** ** The field of view *)
(* ================================================================== *)

Lemma ratio_16_9 : (Fin 16 / Fin 9)%num = Fin (16 / 9).
Proof. reflexivity. Qed.

(** One resize to a window narrower than 16:9, at a finite field of view. *)
Lemma onWindowResize_narrow (w h f : Q) (st : State) :
  (0 < h)%Q -> (w / h < 16 / 9)%Q -> camera_fov (scene st) = Fin f ->
  camera_fov (scene (onWindowResize (Fin w) (Fin h) st)) =
    Math_min (Fin (f * resize_factor (w / h))) (Fin 65).
Proof.
  intros Hh Har Hf. unfold onWindowResize. cbv zeta.
  rewrite ndiv_Fin by lra. rewrite ratio_16_9.
  assert (E : nlt (Fin (w / h)) (Fin (16 / 9)) = true) by now apply nlt_Fin.
  rewrite E. cbn [scene camera_fov]. rewrite Hf. reflexivity.
Qed.

Lemma onWindowResize_range (w h : num) (st : State) :
  fov_in_range st -> fov_in_range (onWindowResize w h st).
Proof.
  intros (f & Ef & H0 & H1). unfold fov_in_range, onWindowResize. cbv zeta.
  rewrite ratio_16_9.
  destruct (nlt (w / h)%num (Fin (16 / 9))) eqn:E; [| exists f; now repeat split].
  cbn [scene camera_fov]. rewrite Ef.
  destruct (w / h)%num as [ar | | |]; try discriminate.
  - apply nlt_Fin in E. cbn [nsub nneg nadd nmul].
    rewrite Math_min_Fin.
    set (g := (f * (1 + (16 / 9 + - ar) * 0.15))%Q).
    assert (Hg : (f <= g)%Q).
    { unfold g. assert (0 <= f * ((16 / 9 + - ar) * 0.15))%Q
        by (apply Qmult_le_0_compat; lra). lra. }
    destruct (nlt_Fin_spec 65 g).
    + exists 65%Q. repeat split; lra.
    + exists g. repeat split; lra.
  - exists 65%Q. split; [| split; lra].
    cbn [nsub nneg nadd]. unfold nmul at 2. cbn [sgn sgn_mul inf_of].
    change (0.15 ?= 0)%Q with Gt. cbn [sgn_mul inf_of nadd].
    unfold nmul. cbn [sgn]. 
    assert (Hs : (f ?= 0)%Q = Gt) by (apply Qgt_alt; lra).
    rewrite Hs. reflexivity.
Qed.

Lemma animate_fov_range {host : HostMath} (elapsed : num) (st : State) :
  zoom_in_range st -> fov_in_range st -> fov_in_range (animate elapsed st).
Proof.
  intros (z & Ez & Hz0 & Hz1) (f & Ef & H0 & H1).
  unfold fov_in_range, animate. cbv zeta.
  destruct (aircraft (scene st)); [destruct (_ && _) |]; cbn [scene camera_fov];
    try (exists f; now repeat split).
  rewrite Ez, Ef.
  destruct (targetFov_range z Hz0 Hz1) as (Et & Ht0 & Ht1). rewrite Et.
  exists (f + (50 / z - f) * 0.1)%Q. split; [reflexivity |].
  set (t := (50 / z)%Q) in *. split; lra.
Qed.

Lemma step_fov {host : HostMath} (st : State) (i : input) :
  (forall a b : Q, isFinite (Math_hypot (Fin a) (Fin b)) = true) ->
  input_finite i = true ->
  zoom_in_range st /\ fov_in_range st ->
  zoom_in_range (step st i) /\ fov_in_range (step st i).
Proof.
  intros Hhyp Hfin [Hz Hf]. split; [now apply step_zoom |].
  destruct i as [| w h | sy sh ih | r | elapsed | o]; cbn [step].
  - exact Hf.
  - now apply onWindowResize_range.
  - exists 35%Q. split; [apply onScroll_fov | split; vm_compute; discriminate].
  - unfold fov_in_range.
    destruct (onHandResults_frame r st) as (_ & E & _). now rewrite E.
  - now apply animate_fov_range.
  - unfold fov_in_range.
    destruct (toggleHandControl_frame o st []) as (_ & _ & E & _). now rewrite E.
Qed.

(** X8: the field of view stays a valid camera angle: from the initial state
    (35 degrees), through every sequence of model loads, resizes (of any
    window size), scroll events, detection results with finite landmarks,
    frames and toggles, it is a finite number between 25 and 100. *)
Theorem fov_stays_valid {host : HostMath} (inputs : list input) :
  (forall a b : Q, isFinite (Math_hypot (Fin a) (Fin b)) = true) ->
  forallb input_finite inputs = true ->
  exists f : Q,
    camera_fov (scene (run init inputs)) = Fin f /\ (25 <= f)%Q /\ (f <= 100)%Q.
Proof.
  intros Hhyp Hfin.
  assert (Hinv : forall st : State,
             zoom_in_range st /\ fov_in_range st ->
             zoom_in_range (run st inputs) /\ fov_in_range (run st inputs)).
  { induction inputs as [| i inputs IH]; intros st Hst; [exact Hst |].
    cbn [forallb] in Hfin. apply andb_true_iff in Hfin. destruct Hfin as [Hi Hrest].
    unfold run. cbn [fold_left]. apply (IH Hrest). now apply step_fov. }
  apply Hinv. split.
  - exists 1%Q. split; [reflexivity |]. split; vm_compute; discriminate.
  - exists 35%Q. split; [reflexivity |]. split; vm_compute; discriminate.
Qed.

Lemma fov_stays_valid_witness :
  forallb input_finite
    [ModelLoaded; Resize (Fin 800) (Fin 1200);
     Toggle (mkAwaited false true true true);
     HandResult (Some [SampleHost.open_hand]); Frame (Fin 1);
     Resize (Fin 400) (Fin 0); HandResult None] = true /\
  exists f : Q,
    camera_fov (scene (@run SampleHost.host init
      [ModelLoaded; Resize (Fin 800) (Fin 1200);
       Toggle (mkAwaited false true true true);
       HandResult (Some [SampleHost.open_hand]); Frame (Fin 1);
       Resize (Fin 400) (Fin 0); HandResult None])) = Fin f /\
    (25 <= f)%Q /\ (f <= 100)%Q.
Proof.
  assert (H : forallb input_finite
    [ModelLoaded; Resize (Fin 800) (Fin 1200);
     Toggle (mkAwaited false true true true);
     HandResult (Some [SampleHost.open_hand]); Frame (Fin 1);
     Resize (Fin 400) (Fin 0); HandResult None] = true) by reflexivity.
  split; [exact H |].
  exact (@fov_stays_valid SampleHost.host _ SampleHost_hypot_finite H).
Defined.

Lemma resize_factor_gt_1 (ar : Q) : (ar < 16 / 9)%Q -> (1 < resize_factor ar)%Q.
Proof. intro H. unfold resize_factor. lra. Qed.

Lemma iter_S {A : Type} (f : A -> A) (k : nat) (x : A) :
  Nat.iter (S k) f x = f (Nat.iter k f x).
Proof. reflexivity. Qed.

(** X9: a resize to a window at least as wide as 16:9 changes nothing; a
    resize to a narrower window multiplies the field of view by a factor
    above 1 and caps it at 65, and it does so at every resize event: [k]
    events at the same size give [min(f * factor^k, 65)], not the value of
    one event.  Whatever the resizes have reached, the next scroll event puts
    the field of view back to the base value. *)
Theorem resize_compounds_up_to_65 (w h f : Q) (st : State) :
  (0 < h)%Q -> camera_fov (scene st) = Fin f -> (0 < f)%Q -> (f <= 65)%Q ->
  ((16 / 9 <= w / h)%Q -> onWindowResize (Fin w) (Fin h) st = st) /\
  ((w / h < 16 / 9)%Q ->
   (1 < resize_factor (w / h))%Q /\
   forall k : nat,
     num_eq (camera_fov (scene (Nat.iter k (onWindowResize (Fin w) (Fin h)) st)))
            (Math_min (Fin (f * qpow (resize_factor (w / h)) k)) (Fin 65)) /\
     forall sy sh ih : num,
       camera_fov (scene (fst (onScroll sy sh ih
                                 (Nat.iter k (onWindowResize (Fin w) (Fin h)) st))))
       = CONFIG.fixedCamera_fov).
Proof.
  intros Hh Hf Hf0 Hf1. split.
  - intro Har. unfold onWindowResize. cbv zeta.
    rewrite ndiv_Fin by lra. rewrite ratio_16_9.
    assert (E : nlt (Fin (w / h)) (Fin (16 / 9)) = false) by now apply nlt_Fin_false.
    now rewrite E.
  - intro Har. pose proof (resize_factor_gt_1 _ Har) as Hc.
    split; [exact Hc |]. intro k. split; [| intros; apply onScroll_fov].
    set (c := resize_factor (w / h)) in *.
    assert (Hinv : exists g : Q,
      camera_fov (scene (Nat.iter k (onWindowResize (Fin w) (Fin h)) st)) = Fin g /\
      (((f * qpow c k <= 65)%Q /\ (g == f * qpow c k)%Q) \/
       ((65 < f * qpow c k)%Q /\ (g == 65)%Q))).
    { induction k as [| k (g & Eg & Hg)].
      - exists f. split; [exact Hf |]. left. simpl. split; [lra | ring].
      - rewrite iter_S.
        rewrite (onWindowResize_narrow w h g _ Hh Har Eg). fold c.
        rewrite Math_min_Fin. eexists. split; [reflexivity |].
        cbn [qpow]. set (P := (f * qpow c k)%Q) in *.
        assert (EP : (f * (c * qpow c k) == P * c)%Q) by (unfold P; ring).
        rewrite EP.
        destruct Hg as [[HP Eg'] | [HP Eg']].
        + destruct (nlt_Fin_spec 65 (g * c)) as [Hlt | Hle].
          * right. split; [rewrite <- Eg'; exact Hlt | reflexivity].
          * left. split; [rewrite <- Eg'; exact Hle | rewrite Eg'; reflexivity].
        + assert (0 < P * (c - 1))%Q by (apply Qmult_lt_0_compat; lra).
          assert (0 < g * (c - 1))%Q by (apply Qmult_lt_0_compat; lra).
          destruct (nlt_Fin_spec 65 (g * c)) as [Hlt | Hle].
          * right. split; [lra | reflexivity].
          * exfalso. lra. }
    destruct Hinv as (g & Eg & Hg). rewrite Eg, Math_min_Fin. cbn [num_eq].
    destruct (nlt_Fin_spec 65 (f * qpow c k)) as [Hlt | Hle];
      destruct Hg as [[HP Eg'] | [HP Eg']]; lra.
Qed.

Lemma resize_compounds_up_to_65_witness :
  (0 < 1200)%Q /\ camera_fov (scene init) = Fin 35 /\ (0 < 35)%Q /\ (35 <= 65)%Q /\
  (1920 / 1200 < 16 / 9)%Q /\
  num_eq (camera_fov (scene (Nat.iter 2 (onWindowResize (Fin 1920) (Fin 1200)) init)))
         (Math_min (Fin (35 * qpow (resize_factor (1920 / 1200)) 2)) (Fin 65)).
Proof.
  assert (H : (0 < 1200)%Q) by reflexivity.
  assert (H0 : camera_fov (scene init) = Fin 35) by reflexivity.
  assert (H1 : (0 < 35)%Q) by reflexivity.
  assert (H2 : (35 <= 65)%Q) by (vm_compute; discriminate).
  assert (H3 : (1920 / 1200 < 16 / 9)%Q) by reflexivity.
  split; [exact H |]. split; [exact H0 |]. split; [exact H1 |]. split; [exact H2 |].
  split; [exact H3 |].
  exact (proj1 (proj2 (proj2 (resize_compounds_up_to_65 1920 1200 35 init H H0 H1 H2)
                         H3) 2%nat)).
Defined.

(* ================================================================== *)
(** ** Detection results the filter cannot use *)
(* ================================================================== *)

(** X10: the detection handler raises exactly when the canvas context is
    there and the first hand of the result has fewer than 21 landmarks, and
    then by a [TypeError]; it has then marked the hand as detected and left
    the seven signals as they were.  Without a canvas context it returns at
    once and changes nothing. *)
Theorem onHandResults_raises_iff_short_hand {host : HostMath}
        (r : Results) (st : State) :
  (snd (onHandResults r st) = Some TypeError <->
   handCtx (ui st) = true /\
   exists (lm : Landmarks) (rest : list Landmarks),
     r = Some (lm :: rest) /\ (List.length lm < 21)%nat) /\
  (snd (onHandResults r st) = Some TypeError ->
   isHandDetected (hand (fst (onHandResults r st))) = true /\
   forall s : signal, read s (hand (fst (onHandResults r st))) = read s (hand st)) /\
  (handCtx (ui st) = false -> onHandResults r st = (st, None)).
Proof.
  assert (Hoff : handCtx (ui st) = false -> onHandResults r st = (st, None)).
  { intro E. unfold onHandResults. now rewrite E. }
  assert (Hiff : snd (onHandResults r st) = Some TypeError ->
    handCtx (ui st) = true /\
    exists (lm : Landmarks) (rest : list Landmarks),
      r = Some (lm :: rest) /\ (List.length lm < 21)%nat).
  { intro E. destruct (handCtx (ui st)) eqn:Hctx;
      [| rewrite Hoff in E by reflexivity; discriminate].
    split; [reflexivity |].
    destruct r as [[| lm rest] |];
      try (unfold onHandResults in E; rewrite Hctx in E; discriminate).
    exists lm, rest. split; [reflexivity |].
    destruct (Nat.le_gt_cases 21 (List.length lm)) as [Hlen | Hlen]; [| exact Hlen].
    destruct (onHandResults_tick lm rest st Hlen Hctx) as (Enone & _).
    rewrite Enone in E. discriminate. }
  split; [split; [exact Hiff |] | split; [| exact Hoff]].
  - intros (Hctx & lm & rest & -> & Hlen).
    now rewrite onHandResults_short.
  - intro E. destruct (Hiff E) as (Hctx & lm & rest & -> & Hlen).
    rewrite onHandResults_short by assumption.
    split; [reflexivity |]. intros []; reflexivity.
Qed.

(* ================================================================== *)
(** ** The gesture target stays in its box *)
(* ================================================================== *)

Lemma in_unit_spec (a : num) :
  in_unit a = true <-> exists q : Q, a = Fin q /\ (0 <= q)%Q /\ (q <= 1)%Q.
Proof.
  destruct a as [q | | |]; simpl.
  - rewrite andb_true_iff, !Qle_bool_iff. split.
    + intros [H0 H1]. now exists q.
    + intros (q' & E & H0 & H1). injection E as <-. now split.
  - split; [discriminate | intros (q & E & _); discriminate].
  - split; [discriminate | intros (q & E & _); discriminate].
  - split; [discriminate | intros (q & E & _); discriminate].
Qed.

Lemma smooth_in_unit (a t : num) :
  in_unit a = true -> in_unit t = true ->
  in_unit (a + (t - a) * Fin 0.15)%num = true.
Proof.
  rewrite !in_unit_spec. intros (p & -> & Hp0 & Hp1) (q & -> & Hq0 & Hq1).
  eexists. split; [reflexivity |]. split; lra.
Qed.

Lemma onHandResults_in_frame {host : HostMath} (r : Results) (st : State) :
  input_in_frame (HandResult r) = true ->
  hand_in_frame st -> hand_in_frame (fst (onHandResults r st)).
Proof.
  intros Hin [Hx Hy]. unfold hand_in_frame, onHandResults.
  destruct (handCtx (ui st)); cbn [negb]; [| now split].
  destruct r as [[| lm rest] |]; [now split | | now split].
  cbn [input_in_frame] in Hin.
  destruct (nth_error lm 8) as [indexTip |]; [| now split].
  apply andb_true_iff in Hin. destruct Hin as [Hix Hiy].
  destruct (nth_error lm 4), (nth_error lm 0), (nth_error lm 9),
    (nth_error lm 20), (nth_error lm 12), (nth_error lm 16); try (now split).
  cbn [fst hand handPosition THREE.x THREE.y].
  split; now apply smooth_in_unit.
Qed.

Lemma step_in_frame {host : HostMath} (st : State) (i : input) :
  input_in_frame i = true -> hand_in_frame st -> hand_in_frame (step st i).
Proof.
  intros Hin Hst. unfold hand_in_frame.
  destruct i as [| w h | sy sh ih | r | elapsed | o]; cbn [step].
  - exact Hst.
  - destruct (onWindowResize_frame w h st) as (_ & E & _). now rewrite E.
  - rewrite onScroll_hand. exact Hst.
  - now apply onHandResults_in_frame.
  - rewrite animate_hand. exact Hst.
  - destruct (toggleHandControl_frame o st []) as (E & _). now rewrite E.
Qed.

(** X11: as long as the index finger tip of every detected hand lies within
    the picture (coordinates from 0 to 1), the smoothed hand position stays
    within the picture, and the gesture-mode target of the aircraft stays in
    the box from -5 to 5 across and from -3 to 3 up. *)
Theorem gesture_target_stays_in_box {host : HostMath} (inputs : list input) :
  forallb input_in_frame inputs = true ->
  let h := hand (run init inputs) in
  exists px py : Q,
    THREE.x (handPosition h) = Fin px /\ (0 <= px)%Q /\ (px <= 1)%Q /\
    THREE.y (handPosition h) = Fin py /\ (0 <= py)%Q /\ (py <= 1)%Q /\
    THREE.x (handTargetPosition h) = Fin ((0.5 - px) * 10) /\
    (-5 <= (0.5 - px) * 10)%Q /\ ((0.5 - px) * 10 <= 5)%Q /\
    THREE.y (handTargetPosition h) = Fin ((0.5 - py) * 6) /\
    (-3 <= (0.5 - py) * 6)%Q /\ ((0.5 - py) * 6 <= 3)%Q.
Proof.
  intros Hin h.
  assert (Hinv : forall st : State, hand_in_frame st -> hand_in_frame (run st inputs)).
  { induction inputs as [| i inputs IH]; intros st Hst; [exact Hst |].
    cbn [forallb] in Hin. apply andb_true_iff in Hin. destruct Hin as [Hi Hrest].
    unfold run. cbn [fold_left]. apply (IH Hrest). now apply step_in_frame. }
  destruct (Hinv init) as [Hx Hy]; [split; reflexivity |]. fold h in Hx, Hy.
  apply in_unit_spec in Hx, Hy.
  destruct Hx as (px & Ex & Hx0 & Hx1). destruct Hy as (py & Ey & Hy0 & Hy1).
  exists px, py. unfold handTargetPosition. cbn [THREE.x THREE.y].
  rewrite Ex, Ey. repeat split; try assumption; try reflexivity; lra.
Qed.

Lemma gesture_target_stays_in_box_witness :
  forallb input_in_frame
    [ModelLoaded; Toggle (mkAwaited false true true true);
     HandResult (Some [SampleHost.open_hand]); Frame (Fin 1);
     HandResult (Some [SampleHost.open_hand])] = true /\
  exists px py : Q,
    THREE.x (handPosition (hand (@run SampleHost.host init
      [ModelLoaded; Toggle (mkAwaited false true true true);
       HandResult (Some [SampleHost.open_hand]); Frame (Fin 1);
       HandResult (Some [SampleHost.open_hand])]))) = Fin px /\
    (0 <= px)%Q /\ (px <= 1)%Q /\
    THREE.y (handPosition (hand (@run SampleHost.host init
      [ModelLoaded; Toggle (mkAwaited false true true true);
       HandResult (Some [SampleHost.open_hand]); Frame (Fin 1);
       HandResult (Some [SampleHost.open_hand])]))) = Fin py /\
    (0 <= py)%Q /\ (py <= 1)%Q.
Proof.
  assert (H : forallb input_in_frame
    [ModelLoaded; Toggle (mkAwaited false true true true);
     HandResult (Some [SampleHost.open_hand]); Frame (Fin 1);
     HandResult (Some [SampleHost.open_hand])] = true) by reflexivity.
  split; [exact H |].
  destruct (@gesture_target_stays_in_box SampleHost.host _ H)
    as (px & py & E1 & E2 & E3 & E4 & E5 & E6 & _).
  exists px, py. repeat split; assumption.
Defined.

(* ================================================================== *)
(** ** The hand-control toggle, beyond a refused camera *)
(* ================================================================== *)

(** X12: switching gesture mode on and off again.  With MediaPipe loaded,
    the camera granted and the video playing, a click enables the mode,
    shows the overlay, labels the button STOP CONTROL and starts the
    detection with one [hands.send]; the next click disables the mode, stops
    the camera tracks once, hides the overlay and labels the button HAND
    CONTROL, without any camera request.  After the two clicks the hand
    signals, the scroll variables and the scene are what they were. *)
Theorem toggle_on_then_off (o o' : Awaited) (st : State) :
  handControlEnabled (ui st) = false ->
  window_Hands o || scripts_load o = true ->
  camera_granted o = true ->
  video_plays o = true ->
  let r1 := toggleHandControl o st [] in
  let st1 := snd (fst r1) in
  let r2 := toggleHandControl o' st1 [] in
  let st2 := snd (fst r2) in
  fst (fst r1) = inl tt /\
  snd r1 = (if window_Hands o then [] else [LoadScripts]) ++
           [GetUserMedia; VideoPlay; HandsSend] /\
  ui st1 = {| handControlEnabled := true; hands := true;
              handCtx := handCtx (ui st); btn_innerHTML := label_stop;
              video_srcObject := true; overlay_shown := true |} /\
  fst (fst r2) = inl tt /\
  snd r2 = [StopTracks] /\
  ui st2 = {| handControlEnabled := false; hands := true;
              handCtx := handCtx (ui st); btn_innerHTML := label_idle;
              video_srcObject := true; overlay_shown := false |} /\
  hand st2 = hand st /\ scroll st2 = scroll st /\ scene st2 = scene st.
Proof.
  intros Hen Hload Hcam Hplay.
  destruct st as [sc h sn [en hs ctx btn vid ov]].
  destruct o as [wh sl cg vp].
  cbn [ui handControlEnabled camera_granted window_Hands scripts_load video_plays] in *.
  subst en cg vp.
  destruct wh, sl; try discriminate; repeat split.
Qed.

Lemma toggle_on_then_off_witness :
  handControlEnabled (ui init) = false /\
  snd (toggleHandControl (mkAwaited false true true true)
         (snd (fst (toggleHandControl (mkAwaited false true true true) init []))) [])
    = [StopTracks].
Proof.
  assert (H : handControlEnabled (ui init) = false) by reflexivity.
  split; [exact H |].
  exact (proj1 (proj2 (proj2 (proj2 (proj2
    (toggle_on_then_off (mkAwaited false true true true)
       (mkAwaited false true true true) init H eq_refl eq_refl eq_refl)))))).
Defined.

(** X13: when the camera is granted but the video does not start, the
    handler shows the same alert and stays disabled, but it has already
    attached the stream to the video and never stops its tracks: the camera
    stays on.  The next click (the scripts being there by now) asks for the
    camera again, still without stopping the first stream. *)
Theorem play_failure_leaves_camera_on (o o' : Awaited) (st : State) :
  handControlEnabled (ui st) = false ->
  window_Hands o || scripts_load o = true ->
  camera_granted o = true ->
  video_plays o = false ->
  window_Hands o' = true ->
  let r1 := toggleHandControl o st [] in
  let st1 := snd (fst r1) in
  let r2 := toggleHandControl o' st1 [] in
  fst (fst r1) = inl tt /\
  snd r1 = (if window_Hands o then [] else [LoadScripts]) ++
           [GetUserMedia; VideoPlay; ConsoleError PlayError;
            Alert "Camera access denied"] /\
  handControlEnabled (ui st1) = false /\
  video_srcObject (ui st1) = true /\
  overlay_shown (ui st1) = overlay_shown (ui st) /\
  btn_innerHTML (ui st1) = label_idle /\
  count is_stopTracks (snd r1) = 0%nat /\
  count is_stopTracks (snd r2) = 0%nat /\
  count is_getUserMedia (snd r2) = 1%nat.
Proof.
  intros Hen Hload Hcam Hplay Hwh.
  destruct st as [sc h sn [en hs ctx btn vid ov]].
  destruct o as [wh sl cg vp], o' as [wh' sl' cg' vp'].
  cbn [ui handControlEnabled camera_granted window_Hands scripts_load video_plays] in *.
  subst en cg vp wh'.
  destruct sl', cg', vp';
    destruct wh, sl; try discriminate; repeat split.
Qed.

Lemma play_failure_leaves_camera_on_witness :
  handControlEnabled (ui init) = false /\
  video_srcObject
    (ui (snd (fst (toggleHandControl (mkAwaited false true true false) init []))))
    = true.
Proof.
  assert (H : handControlEnabled (ui init) = false) by reflexivity.
  split; [exact H |].
  exact (proj1 (proj2 (proj2 (proj2
    (play_failure_leaves_camera_on (mkAwaited false true true false)
       (mkAwaited true true true true) init H eq_refl eq_refl eq_refl eq_refl))))).
Defined.

(** X14: when the MediaPipe scripts fail to load, the handler reports
    "Camera access denied" although it never asked for the camera; the mode
    stays off, the button reads HAND CONTROL, the detector object is not
    created, and nothing is attached to the video. *)
Theorem script_failure_blames_camera (o : Awaited) (st : State) :
  handControlEnabled (ui st) = false ->
  window_Hands o = false ->
  scripts_load o = false ->
  let r := toggleHandControl o st [] in
  fst (fst r) = inl tt /\
  snd r = [LoadScripts; ConsoleError ScriptLoadError; Alert "Camera access denied"] /\
  count is_getUserMedia (snd r) = 0%nat /\
  ui (snd (fst r)) =
    {| handControlEnabled := false; hands := hands (ui st);
       handCtx := handCtx (ui st); btn_innerHTML := label_idle;
       video_srcObject := video_srcObject (ui st);
       overlay_shown := overlay_shown (ui st) |}.
Proof.
  intros Hen Hwh Hsl.
  destruct st as [sc h sn [en hs ctx btn vid ov]].
  destruct o as [wh sl cg vp].
  cbn [ui handControlEnabled window_Hands scripts_load] in *.
  subst en wh sl. repeat split.
Qed.

Lemma script_failure_blames_camera_witness :
  handControlEnabled (ui init) = false /\
  count is_getUserMedia
    (snd (toggleHandControl (mkAwaited false false true true) init [])) = 0%nat.
Proof.
  assert (H : handControlEnabled (ui init) = false) by reflexivity.
  split; [exact H |].
  exact (proj1 (proj2 (proj2
    (script_failure_blames_camera (mkAwaited false false true true) init
       H eq_refl eq_refl)))).
Defined.

Lemma onHandResults_reads {host : HostMath} (r : Results) (a b : State) :
  handCtx (ui a) = handCtx (ui b) -> hand a = hand b ->
  hand (fst (onHandResults r a)) = hand (fst (onHandResults r b)) /\
  snd (onHandResults r a) = snd (onHandResults r b).
Proof.
  intros Hctx Hh. unfold onHandResults, set_isHandDetected. rewrite Hctx, Hh.
  destruct (handCtx (ui b)); cbn [negb]; [| now split].
  destruct r as [[| lm rest] |]; [now split | | now split].
  destruct (nth_error lm 8), (nth_error lm 4), (nth_error lm 0), (nth_error lm 9),
    (nth_error lm 20), (nth_error lm 12), (nth_error lm 16); now split.
Qed.

(** X15: switching gesture mode off ends the detection loop at its next
    round: whatever the outcomes, after a click in enabled mode the mode is
    off and [detectHands] returns without a [hands.send].  A detection result
    still in flight is not discarded: the handler does not look at the mode,
    and filters the result into the hand signals as it would have before the
    click. *)
Theorem toggle_off_stops_detection {host : HostMath}
        (o : Awaited) (st : State) (log : list event) (r : Results) :
  handControlEnabled (ui st) = true ->
  let st' := snd (fst (toggleHandControl o st [])) in
  handControlEnabled (ui st') = false /\
  detectHands st' log = (inl tt, st', log) /\
  hand (fst (onHandResults r st')) = hand (fst (onHandResults r st)) /\
  snd (onHandResults r st') = snd (onHandResults r st).
Proof.
  intros Hen st'.
  destruct (toggleHandControl_frame o st []) as (Eh & _ & _ & Ectx).
  fold st' in Eh, Ectx.
  assert (Eoff : handControlEnabled (ui st') = false).
  { unfold st'. destruct st as [sc h sn [en hs ctx btn vid ov]].
    cbn [ui handControlEnabled] in Hen. subst en. now destruct vid. }
  split; [exact Eoff |]. split.
  - unfold detectHands, bind, get_ui, ret. rewrite Eoff. reflexivity.
  - now apply onHandResults_reads.
Qed.

Lemma toggle_off_stops_detection_witness :
  handControlEnabled
    (ui (snd (fst (toggleHandControl (mkAwaited false true true true) init []))))
    = true /\
  handControlEnabled
    (ui (snd (fst (toggleHandControl (mkAwaited true true true true)
       (snd (fst (toggleHandControl (mkAwaited false true true true) init []))) []))))
    = false.
Proof.
  assert (H : handControlEnabled
    (ui (snd (fst (toggleHandControl (mkAwaited false true true true) init []))))
    = true) by reflexivity.
  split; [exact H |].
  exact (proj1 (@toggle_off_stops_detection SampleHost.host
                  (mkAwaited true true true true) _ [] None H)).
Defined.

(* ================================================================== *)
(** ** The background follows the section *)
(* ================================================================== *)

Lemma nth_error_mapi_from {A B : Type} (f : nat -> A -> B) (l : list A) (i0 i : nat) :
  nth_error (mapi_from i0 f l) i = option_map (f (i0 + i)%nat) (nth_error l i).
Proof.
  revert i0 i. induction l as [| a l IH]; intros i0 [| i]; simpl; try reflexivity.
  - now rewrite Nat.add_0_r.
  - rewrite IH. now rewrite Nat.add_succ_r.
Qed.

Lemma nth_error_mapi {A B : Type} (f : nat -> A -> B) (l : list A) (i : nat) :
  nth_error (mapi f l) i = option_map (f i) (nth_error l i).
Proof. unfold mapi. now rewrite nth_error_mapi_from. Qed.

Lemma length_mapi_from {A B : Type} (f : nat -> A -> B) (l : list A) (i0 : nat) :
  List.length (mapi_from i0 f l) = List.length l.
Proof. revert i0. induction l as [| a l IH]; intro i0; simpl; [| rewrite IH]; reflexivity. Qed.

Lemma length_mapi {A B : Type} (f : nat -> A -> B) (l : list A) :
  List.length (mapi f l) = List.length l.
Proof. apply length_mapi_from. Qed.

Lemma nseq_refl (q : Q) : nseq (Fin q) (Fin q) = true.
Proof. simpl. apply Qeq_bool_iff. reflexivity. Qed.

Lemma nseq_true (a b : num) : nseq a b = true -> num_eq a b /\ isNaN a = false.
Proof.
  destruct a as [p | | |], b as [q | | |]; simpl; try discriminate; auto.
  intro H. apply Qeq_bool_iff in H. auto.
Qed.

(** Numbers that are equal compare alike with any third. *)
Lemma nseq_compat (c a b : num) : num_eq a b -> nseq c a = nseq c b.
Proof.
  destruct a as [p | | |], b as [q | | |], c as [r | | |]; simpl; try tauto.
  intro E. destruct (Qeq_bool r p) eqn:H1, (Qeq_bool r q) eqn:H2; try reflexivity.
  - apply Qeq_bool_iff in H1.
    assert (Qeq_bool r q = true) by (apply Qeq_bool_iff; now rewrite H1).
    congruence.
  - apply Qeq_bool_iff in H2.
    assert (Qeq_bool r p = true) by (apply Qeq_bool_iff; now rewrite H2, E).
    congruence.
Qed.

(** The remainder of a natural number by 4, in numbers. *)
Lemma nmod_index (s : nat) :
  exists q : Q,
    nmod (index s) NUM_BACKGROUNDS = Fin q /\
    (q == inject_Z (Z.of_nat (s mod 4)))%Q.
Proof.
  unfold nmod, index, NUM_BACKGROUNDS.
  change (Qeq_bool 4 0) with false. cbv iota.
  eexists. split; [reflexivity |].
  set (z := Z.of_nat s).
  assert (Hz : (0 <= z)%Z) by (unfold z; lia).
  assert (Ht : Qtrunc (inject_Z z / 4) = (z / 4)%Z).
  { unfold Qtrunc.
    assert (Hq : (0 <= inject_Z z / 4)%Q).
    { apply Qle_shift_div_l; [reflexivity |].
      change (0 * 4)%Q with (inject_Z 0). rewrite <- Zle_Qle. exact Hz. }
    apply Qle_bool_iff in Hq. rewrite Hq.
    unfold Qfloor, Qdiv, Qmult, Qinv, inject_Z. simpl.
    now rewrite Z.mul_1_r. }
  rewrite Ht, Nat2Z.inj_mod. fold z. change (Z.of_nat 4) with 4%Z.
  rewrite (Z.mod_eq z 4) by lia.
  unfold Zminus. rewrite inject_Z_plus, inject_Z_opp, inject_Z_mult.
  change (inject_Z 4) with 4%Q. ring.
Qed.

Lemma place_active_classes (p : num) (off : num * num) (l : Layer) :
  layer_active (place_active p off l) = layer_active l /\
  layer_transitioning (place_active p off l) = layer_transitioning l.
Proof.
  unfold place_active. cbv zeta. destruct (layer_active l) eqn:E; [| auto].
  destruct (css_number (fst off) && css_number (snd off + p * Fin 30)%num);
    cbn [layer_active layer_transitioning]; auto.
Qed.

Lemma updateParallaxPosition_shows (p k : num) (bg : BgVars) :
  shows bg k -> shows (updateParallaxPosition p bg) k.
Proof.
  intros [Ht Hl]. split; [exact Ht |]. intros i l. cbn [bgLayers updateParallaxPosition].
  rewrite nth_error_map.
  destruct (nth_error (bgLayers bg) i) as [l0 |] eqn:E; [| discriminate].
  intro H. injection H as <-.
  destruct (place_active_classes p (parallaxOffset bg) l0) as [-> ->].
  now apply Hl.
Qed.

Lemma updateParallaxBackground_coherent (s p : num) (bg : BgVars) :
  bg_coherent bg -> bg_coherent (updateParallaxBackground s p bg).
Proof.
  intro H. unfold updateParallaxBackground. cbv zeta.
  destruct (nseq (nmod s NUM_BACKGROUNDS) (currentBgIndex bg)); cbn [negb].
  - destruct H as [H | [ts H]].
    + left. now apply updateParallaxPosition_shows.
    + right. now exists ts.
  - right. exists (bg_timeouts bg). reflexivity.
Qed.

Lemma updateParallaxBackground_index (s p : num) (bg : BgVars) (q : Q) :
  nmod s NUM_BACKGROUNDS = Fin q ->
  num_eq (currentBgIndex (updateParallaxBackground s p bg)) (Fin q).
Proof.
  intro E. unfold updateParallaxBackground. cbv zeta. rewrite E.
  destruct (nseq (Fin q) (currentBgIndex bg)) eqn:H; cbn [negb].
  - cbn [currentBgIndex updateParallaxPosition].
    apply nseq_true in H. destruct H as [H _].
    destruct (currentBgIndex bg); simpl in *; try contradiction. now symmetry.
  - simpl. reflexivity.
Qed.

Lemma updates_coherent (evs : list (num * num)) (bg : BgVars) :
  bg_coherent bg -> bg_coherent (updates evs bg).
Proof.
  revert bg. induction evs as [| e evs IH]; intros bg H; [exact H |].
  unfold updates. cbn [fold_left]. apply IH.
  now apply updateParallaxBackground_coherent.
Qed.

Lemma updates_app (evs1 evs2 : list (num * num)) (bg : BgVars) :
  updates (evs1 ++ evs2) bg = updates evs2 (updates evs1 bg).
Proof. unfold updates. apply fold_left_app. Qed.

Lemma fireTimeout_all (ts : list num) (c : num) (bg : BgVars) :
  bg_timeouts bg = ts ++ [c] ->
  let bg' := fold_left (fun b _ => fireTimeout b) (ts ++ [c]) bg in
  shows bg' c /\ currentBgIndex bg' = currentBgIndex bg /\
  blur_restarts bg' = blur_restarts bg /\
  List.length (bgLayers bg') = List.length (bgLayers bg).
Proof.
  revert bg. induction ts as [| t ts IH]; intros bg Ht.
  - cbn [app fold_left]. unfold fireTimeout. rewrite Ht. cbn [app].
    split; [| repeat split; cbn [bgLayers]; apply length_mapi].
    split; [reflexivity |]. intros i l. cbn [bgLayers].
    rewrite nth_error_mapi.
    destruct (nth_error (bgLayers bg) i); [| discriminate].
    intro H. injection H as <-. split; reflexivity.
  - cbn [app fold_left].
    assert (Ht' : bg_timeouts (fireTimeout bg) = ts ++ [c])
      by (unfold fireTimeout; rewrite Ht; reflexivity).
    destruct (IH (fireTimeout bg) Ht') as (H1 & H2 & H3 & H4).
    split; [exact H1 |]. rewrite H2, H3, H4.
    unfold fireTimeout. rewrite Ht. cbn [app currentBgIndex blur_restarts bgLayers].
    repeat split. apply length_mapi.
Qed.

Lemma flush_coherent (bg : BgVars) :
  bg_coherent bg ->
  shows (flush bg) (currentBgIndex bg) /\
  currentBgIndex (flush bg) = currentBgIndex bg.
Proof.
  intros [H | [ts H]].
  - unfold flush. destruct H as [Ht Hl]. rewrite Ht. cbn [fold_left].
    split; [now split | reflexivity].
  - unfold flush. rewrite H.
    destruct (fireTimeout_all ts (currentBgIndex bg) bg H) as (H1 & H2 & _).
    now split.
Qed.

Lemma shows_compat (bg : BgVars) (a b : num) :
  num_eq a b -> shows bg a -> shows bg b.
Proof.
  intros E [Ht Hl]. split; [exact Ht |]. intros i l H.
  destruct (Hl i l H) as [Ha Htr]. split; [| exact Htr].
  rewrite Ha. now apply nseq_compat.
Qed.

(** X16: the background follows the section, four layers in turn: from a
    settled background, after any run of background updates that ends with
    section [s], and once the pending timeouts have fired, the background has
    settled on layer [s mod 4]: that layer is the active one, no layer is
    left in transition and no timeout is pending, also when several section
    changes fell within one 150 ms window. *)
Theorem background_follows_section
        (bg : BgVars) (evs : list (num * num)) (s : nat) (p : num) :
  shows bg (currentBgIndex bg) ->
  let bg' := flush (updates (evs ++ [(index s, p)]) bg) in
  shows bg' (index (s mod 4)) /\
  num_eq (currentBgIndex bg') (index (s mod 4)) /\
  forall (i : nat) (l : Layer),
    nth_error (bgLayers bg') i = Some l ->
    layer_active l = (i =? s mod 4)%nat.
Proof.
  intros Hbg bg'.
  assert (Hco : bg_coherent (updates (evs ++ [(index s, p)]) bg))
    by (apply updates_coherent; now left).
  destruct (flush_coherent _ Hco) as [Hshow Hidx]. fold bg' in Hshow, Hidx.
  destruct (nmod_index s) as (q & Eq & Hq).
  assert (Hcur : num_eq (currentBgIndex (updates (evs ++ [(index s, p)]) bg))
                        (index (s mod 4))).
  { rewrite updates_app. unfold updates at 1. cbn [fold_left fst snd].
    eapply num_eq_trans; [apply (updateParallaxBackground_index _ _ _ q Eq) |].
    exact Hq. }
  assert (Hs : shows bg' (index (s mod 4))) by (eapply shows_compat; eassumption).
  split; [exact Hs |]. split; [rewrite Hidx; exact Hcur |].
  intros i l H. destruct Hs as [_ Hl]. destruct (Hl i l H) as [Ha _].
  rewrite Ha. unfold index, nseq.
  destruct (Nat.eqb_spec i (s mod 4)) as [-> | Hne].
  - apply Qeq_bool_iff. reflexivity.
  - destruct (Qeq_bool _ _) eqn:E; [| reflexivity].
    apply Qeq_bool_iff in E. rewrite inject_Z_injective in E. lia.
Qed.

Lemma background_follows_section_witness :
  shows (setupParallaxBackgrounds
           [mkLayer false false None; mkLayer false false None;
            mkLayer false false None; mkLayer false false None]
           (mkBgVars (Fin 0) [] (Fin 0, Fin 0) [] 0))
        (Fin 0) /\
  num_eq (currentBgIndex
            (flush (updates ([(index 1, Fin 0.2); (index 2, Fin 0.35)] ++ [(index 6, Fin 1)])
               (setupParallaxBackgrounds
                  [mkLayer false false None; mkLayer false false None;
                   mkLayer false false None; mkLayer false false None]
                  (mkBgVars (Fin 0) [] (Fin 0, Fin 0) [] 0)))))
         (index (6 mod 4)).
Proof.
  assert (H : shows (setupParallaxBackgrounds
           [mkLayer false false None; mkLayer false false None;
            mkLayer false false None; mkLayer false false None]
           (mkBgVars (Fin 0) [] (Fin 0, Fin 0) [] 0))
        (currentBgIndex (setupParallaxBackgrounds
           [mkLayer false false None; mkLayer false false None;
            mkLayer false false None; mkLayer false false None]
           (mkBgVars (Fin 0) [] (Fin 0, Fin 0) [] 0)))).
  { split; [reflexivity |].
    intros [| [| [| [| i]]]] l E; simpl in E;
      try (injection E as <-; split; reflexivity).
    destruct i; discriminate. }
  split; [exact H |].
  exact (proj1 (proj2 (background_follows_section _
                         [(index 1, Fin 0.2); (index 2, Fin 0.35)] 6 (Fin 1) H))).
Defined.

(* ================================================================== *)
(** ** The indicators along the scroll *)
(* ================================================================== *)

Lemma nle_index (j : nat) (z : Z) :
  nle (index j) (Fin (inject_Z z)) = (Z.of_nat j <=? z)%Z.
Proof.
  unfold index, nle.
  destruct (Z.leb_spec (Z.of_nat j) z) as [H | H].
  - apply Qle_bool_iff. rewrite <- Zle_Qle. exact H.
  - destruct (Qle_bool _ _) eqn:E; [| reflexivity].
    apply Qle_bool_iff in E. rewrite <- Zle_Qle in E. lia.
Qed.

Lemma nseq_index (j : nat) (q : Q) (z : Z) :
  (q == inject_Z z)%Q -> nseq (index j) (Fin q) = (Z.of_nat j =? z)%Z.
Proof.
  intro Hq. unfold index, nseq.
  destruct (Z.eqb_spec (Z.of_nat j) z) as [H | H].
  - apply Qeq_bool_iff. rewrite Hq, H. reflexivity.
  - destruct (Qeq_bool _ _) eqn:E; [| reflexivity].
    apply Qeq_bool_iff in E. rewrite Hq, inject_Z_injective in E. contradiction.
Qed.

Lemma flags_mapi (test : nat -> bool) (flags : list bool) :
  flags_are (mapi (fun i _ => test i) flags) test.
Proof.
  intros i b. rewrite nth_error_mapi.
  destruct (nth_error flags i); simpl; [| discriminate]. now intros [= <-].
Qed.

Lemma onScroll_no_exception (sy sh ih : Q) (st : State) :
  (ih < sh)%Q -> (0 <= sy)%Q ->
  snd (onScroll (Fin sy) (Fin sh) (Fin ih) st) = None.
Proof.
  intros H Hsy.
  pose proof (floor_nonnegative _ (progress_nonnegative sy sh ih H Hsy)) as Hi.
  destruct (Z_lt_le_dec (Qfloor (sy / (sh - ih) * 6)) 6) as [Hlt | Hge].
  - destruct (onScroll_interpolates sy sh ih st
                (Z.to_nat (Qfloor (sy / (sh - ih) * 6))) H)
      as (_ & _ & _ & _ & Enone & _); [lia | lia | exact Enone].
  - now apply onScroll_past_last.
Qed.

(** X17: on the page, between the top and the end of the scrollable range,
    with section index [sec]: the markers up to [sec] are active, the one
    navigation link [sec] is active, the one feature card [sec - 1] is
    visible (none at section 0), the thumb stands between 0 and 80 percent,
    and the altitude of the HUD is a whole number between 0 and 59000. *)
Theorem indicators_within_the_page (sy sh ih : Q) (pg : Page) :
  (ih < sh)%Q -> (0 <= sy)%Q -> (sy <= sh - ih)%Q ->
  let p := (sy / (sh - ih))%Q in
  let sec := Z.to_nat (Qfloor (p * 6)) in
  let r := onScroll_page (Fin sy) (Fin sh) (Fin ih) pg in
  let ch := page_chrome (fst r) in
  snd r = None /\
  (sec <= 6)%nat /\
  flags_are (markers ch) (fun i => (i <=? sec)%nat) /\
  flags_are (navLinks ch) (fun i => (i =? sec)%nat) /\
  flags_are (cards ch) (fun i => (S i =? sec)%nat) /\
  thumb_top ch = Fin (p * 80) /\ (0 <= p * 80)%Q /\ (p * 80 <= 80)%Q /\
  hud_altitude ch = Fin (inject_Z (Qfloor (p * 59000))) /\
  (0 <= Qfloor (p * 59000) <= 59000)%Z /\
  hud_mach ch = Fin (p * 2.25).
Proof.
  intros H H0 H1 p sec r ch.
  destruct (progress_range sy sh ih H H0 H1) as [Hp0 Hp1]. fold p in Hp0, Hp1.
  pose proof (floor_section_range p Hp0 Hp1) as Hsec.
  pose proof (onScroll_no_exception sy sh ih (page_state pg) H H0) as Enone.
  destruct (onScroll_progress sy sh ih (page_state pg) H) as [Ep Es].
  fold p in Ep, Es.
  unfold ch, r, onScroll_page. cbv zeta. rewrite Enone, Ep, Es.
  cbn [fst snd page_chrome animateInfoCards updateHUD updateNavigation
       updateScrollProgress markers navLinks cards thumb_top hud_altitude hud_mach].
  split; [reflexivity |]. split; [unfold sec; lia |].
  split; [| split; [| split]].
  - intros i b Hb. apply flags_mapi in Hb. rewrite Hb, nle_index.
    unfold sec. destruct (Z.leb_spec (Z.of_nat i) (Qfloor (p * 6)));
      destruct (Nat.leb_spec i (Z.to_nat (Qfloor (p * 6)))); try reflexivity; lia.
  - intros i b Hb. apply flags_mapi in Hb.
    rewrite Hb, (nseq_index i _ (Qfloor (p * 6))) by reflexivity.
    unfold sec. destruct (Z.eqb_spec (Z.of_nat i) (Qfloor (p * 6)));
      destruct (Nat.eqb_spec i (Z.to_nat (Qfloor (p * 6)))); try reflexivity; lia.
  - intros i b Hb. apply flags_mapi in Hb. rewrite Hb. cbn [nsub nneg nadd].
    rewrite (nseq_index i _ (Qfloor (p * 6) - 1)).
    + unfold sec. destruct (Z.eqb_spec (Z.of_nat i) (Qfloor (p * 6) - 1));
        destruct (Nat.eqb_spec (S i) (Z.to_nat (Qfloor (p * 6)))); try reflexivity; lia.
    + unfold Zminus. rewrite inject_Z_plus, inject_Z_opp. reflexivity.
  - split; [reflexivity |]. split; [lra |]. split; [lra |].
    split; [reflexivity |]. split; [| reflexivity].
    destruct (floor_bounds (p * 59000) 0 59001) as [Ha Hb].
    + change (inject_Z 0) with 0%Q. lra.
    + change (inject_Z 59001) with 59001%Q. lra.
    + lia.
Qed.

Lemma indicators_within_the_page_witness :
  (400 < 1000)%Q /\ (0 <= 250)%Q /\ (250 <= 1000 - 400)%Q /\
  snd (onScroll_page (Fin 250) (Fin 1000) (Fin 400)
         (mkPage init
            (mkChrome (Fin 0) [true; false; false; false; false; false; false]
               [true; false; false; false; false; false; false]
               [false; false; false; false; false; false] (Fin 0) (Fin 0))
            (mkBgVars (Fin 0) [] (Fin 0, Fin 0) [] 0))) = None.
Proof.
  assert (H : (400 < 1000)%Q) by reflexivity.
  assert (H0 : (0 <= 250)%Q) by (vm_compute; discriminate).
  assert (H1 : (250 <= 1000 - 400)%Q) by (vm_compute; discriminate).
  split; [exact H |]. split; [exact H0 |]. split; [exact H1 |].
  exact (proj1 (indicators_within_the_page 250 1000 400 _ H H0 H1)).
Defined.

Lemma flags_off_mapi (test : nat -> bool) (flags : list bool) :
  (forall i : nat, test i = false) -> all_off (mapi (fun i _ => test i) flags).
Proof. intros Hoff i b Hb. apply flags_mapi in Hb. now rewrite Hb. Qed.

(** X18: an overscroll above the page leaves the indicators out of step: the
    handler has moved the thumb above the track (a negative top) and switched
    every marker and every navigation link off before it raises, while the
    HUD, the feature cards and the background, which it would write after,
    keep the values of the previous scroll event. *)
Theorem overscroll_leaves_indicators_stale (sy sh ih : Q) (pg : Page) :
  (ih < sh)%Q -> (sy < 0)%Q ->
  let r := onScroll_page (Fin sy) (Fin sh) (Fin ih) pg in
  let ch := page_chrome (fst r) in
  snd r = Some TypeError /\
  thumb_top ch = Fin (sy / (sh - ih) * 80) /\ (sy / (sh - ih) * 80 < 0)%Q /\
  all_off (markers ch) /\
  all_off (navLinks ch) /\
  cards ch = cards (page_chrome pg) /\
  hud_altitude ch = hud_altitude (page_chrome pg) /\
  hud_mach ch = hud_mach (page_chrome pg) /\
  page_bg (fst r) = page_bg pg.
Proof.
  intros H Hsy r ch.
  pose proof (floor_negative _ (progress_negative sy sh ih H Hsy)) as Hi.
  destruct (onScroll_negative_section sy sh ih (page_state pg) H Hi) as [Eexn _].
  destruct (onScroll_progress sy sh ih (page_state pg) H) as [Ep Es].
  unfold ch, r, onScroll_page. cbv zeta. rewrite Eexn, Ep, Es.
  cbn [fst snd page_chrome page_bg updateNavigation updateScrollProgress
       markers navLinks cards thumb_top hud_altitude hud_mach].
  split; [reflexivity |]. split; [reflexivity |].
  split; [pose proof (progress_negative sy sh ih H Hsy); lra |].
  split; [| split; [| repeat split]].
  - apply flags_off_mapi. intro i. rewrite nle_index. apply Z.leb_gt. lia.
  - apply flags_off_mapi. intro i.
    rewrite (nseq_index i _ (Qfloor (sy / (sh - ih) * 6))) by reflexivity.
    apply Z.eqb_neq. lia.
Qed.

Lemma overscroll_leaves_indicators_stale_witness :
  (400 < 1000)%Q /\ (-3 < 0)%Q /\
  snd (onScroll_page (Fin (-3)) (Fin 1000) (Fin 400)
         (mkPage init
            (mkChrome (Fin 0) [true; false; false; false; false; false; false]
               [true; false; false; false; false; false; false]
               [false; false; false; false; false; false] (Fin 0) (Fin 0))
            (mkBgVars (Fin 0) [] (Fin 0, Fin 0) [] 0))) = Some TypeError.
Proof.
  assert (H : (400 < 1000)%Q) by reflexivity.
  assert (H0 : (-3 < 0)%Q) by reflexivity.
  split; [exact H |]. split; [exact H0 |].
  exact (proj1 (overscroll_leaves_indicators_stale (-3) 1000 400 _ H H0)).
Defined.

Lemma onScroll_zero_range (sy sh ih : Q) (st : State) :
  (sy == 0)%Q -> (sh - ih == 0)%Q ->
  snd (onScroll (Fin sy) (Fin sh) (Fin ih) st) = None /\
  scrollProgress (scroll (fst (onScroll (Fin sy) (Fin sh) (Fin ih) st))) = NaN /\
  currentSection (scroll (fst (onScroll (Fin sy) (Fin sh) (Fin ih) st))) = NaN.
Proof.
  intros Hsy Hrange. unfold onScroll. cbv zeta.
  rewrite zero_range_progress by assumption. repeat split.
Qed.

(** X19: on a page without scrollable range a scroll event blanks the
    indicators and, 150 ms later, the background: the handler raises
    nothing, the thumb stays where it was (its new position, ["NaN%"], is
    not a value the style takes), the two HUD numbers are [NaN], every
    marker, navigation link and feature card is switched off, the motion
    blur is restarted at each such event, and once the timeouts have fired
    no background layer is active. *)
Theorem zero_range_blanks_the_page (sh ih : Q) (pg : Page) :
  (sh - ih == 0)%Q ->
  let r := onScroll_page (Fin 0) (Fin sh) (Fin ih) pg in
  let ch := page_chrome (fst r) in
  snd r = None /\
  thumb_top ch = thumb_top (page_chrome pg) /\
  hud_altitude ch = NaN /\ hud_mach ch = NaN /\
  all_off (markers ch) /\ all_off (navLinks ch) /\ all_off (cards ch) /\
  blur_restarts (page_bg (fst r)) = S (blur_restarts (page_bg pg)) /\
  currentBgIndex (page_bg (fst r)) = NaN /\
  no_layer_active (flush (page_bg (fst r))).
Proof.
  intros Hrange r ch.
  destruct (onScroll_zero_range 0 sh ih (page_state pg) (Qeq_refl 0) Hrange)
    as (Enone & Ep & Es).
  unfold ch, r, onScroll_page. cbv zeta. rewrite Enone, Ep, Es.
  cbn [fst snd page_chrome page_bg animateInfoCards updateHUD updateNavigation
       updateScrollProgress markers navLinks cards thumb_top hud_altitude hud_mach].
  split; [reflexivity |]. split; [reflexivity |].
  split; [reflexivity |]. split; [reflexivity |].
  split; [apply flags_off_mapi; reflexivity |].
  split; [apply flags_off_mapi; reflexivity |].
  split; [apply flags_off_mapi; reflexivity |].
  split; [reflexivity |]. split; [reflexivity |].
  set (bg1 := updateParallaxBackground NaN NaN (page_bg pg)).
  assert (Ht : bg_timeouts bg1 = bg_timeouts (page_bg pg) ++ [NaN]) by reflexivity.
  destruct (fireTimeout_all _ NaN bg1 Ht) as ([_ Hl] & _).
  unfold flush. rewrite Ht. intros i l Hi.
  destruct (Hl i l Hi) as [Ha _]. rewrite Ha. reflexivity.
Qed.

Lemma zero_range_blanks_the_page_witness :
  (800 - 800 == 0)%Q /\
  snd (onScroll_page (Fin 0) (Fin 800) (Fin 800)
         (mkPage init
            (mkChrome (Fin 0) [true; false; false; false; false; false; false]
               [true; false; false; false; false; false; false]
               [false; false; false; false; false; false] (Fin 0) (Fin 0))
            (setupParallaxBackgrounds
               [mkLayer false false None; mkLayer false false None;
                mkLayer false false None; mkLayer false false None]
               (mkBgVars (Fin 0) [] (Fin 0, Fin 0) [] 0)))) = None.
Proof.
  assert (H : (800 - 800 == 0)%Q) by reflexivity.
  split; [exact H |].
  exact (proj1 (zero_range_blanks_the_page 800 800 _ H)).
Defined.

(* ================================================================== *)
(** ** The parallax offset *)
(* ================================================================== *)

Lemma centred_ratio (c w : Q) :
  (0 < w -> 0 <= c -> c <= w ->
   -20 <= (c - w / 2) / (w / 2) * 20 /\ (c - w / 2) / (w / 2) * 20 <= 20)%Q.
Proof.
  intros Hw H0 H1.
  assert (Hh : (0 < w / 2)%Q) by (apply Qlt_shift_div_l; lra).
  set (m := (w / 2)%Q) in *.
  assert (Em : (w == m * 2)%Q) by (unfold m; field).
  assert (Hlo : (-1 <= (c - m) / m)%Q) by (apply Qle_shift_div_l; lra).
  assert (Hhi : ((c - m) / m <= 1)%Q) by (apply Qle_shift_div_r; lra).
  set (t := ((c - m) / m)%Q) in *. split; lra.
Qed.

(** X20: with the pointer inside a window of positive size, the parallax
    offset lies between -20 and 20 pixels on both axes; the next frame moves
    every active background layer by that offset plus 30 pixels times the
    scroll progress downwards, so, for progress between 0 and 1, by at most
    20 pixels sideways and between -20 and 50 pixels down, and it does not
    touch the layers that are not active. *)
Theorem parallax_offset_bounded (cx cy w h p : Q) (bg : BgVars) :
  (0 < w)%Q -> (0 < h)%Q ->
  (0 <= cx)%Q -> (cx <= w)%Q -> (0 <= cy)%Q -> (cy <= h)%Q ->
  (0 <= p)%Q -> (p <= 1)%Q ->
  let bg' := updateParallaxPosition (Fin p)
               (onMouseMove (Fin cx) (Fin cy) (Fin w) (Fin h) bg) in
  exists ox oy : Q,
    parallaxOffset bg' = (Fin ox, Fin oy) /\
    (-20 <= ox)%Q /\ (ox <= 20)%Q /\ (-20 <= oy)%Q /\ (oy <= 20)%Q /\
    (-20 <= oy + p * 30)%Q /\ (oy + p * 30 <= 50)%Q /\
    forall (i : nat) (l0 : Layer),
      nth_error (bgLayers bg) i = Some l0 ->
      nth_error (bgLayers bg') i =
        Some (if layer_active l0
              then mkLayer true (layer_transitioning l0)
                           (Some (Fin ox, Fin (oy + p * 30)))
              else l0).
Proof.
  intros Hw Hh Hx0 Hx1 Hy0 Hy1 Hp0 Hp1 bg'.
  destruct (centred_ratio cx w Hw Hx0 Hx1) as [Hox0 Hox1].
  destruct (centred_ratio cy h Hh Hy0 Hy1) as [Hoy0 Hoy1].
  exists ((cx - w / 2) / (w / 2) * 20)%Q, ((cy - h / 2) / (h / 2) * 20)%Q.
  assert (Hw2 : ~ (w / 2 == 0)%Q)
    by (assert (0 < w / 2)%Q by (apply Qlt_shift_div_l; lra); lra).
  assert (Hh2 : ~ (h / 2 == 0)%Q)
    by (assert (0 < h / 2)%Q by (apply Qlt_shift_div_l; lra); lra).
  assert (Eoff : parallaxOffset bg' =
                 (Fin ((cx - w / 2) / (w / 2) * 20), Fin ((cy - h / 2) / (h / 2) * 20))).
  { unfold bg', updateParallaxPosition, onMouseMove. cbv zeta. cbn [parallaxOffset].
    rewrite !(ndiv_Fin _ 2) by (vm_compute; discriminate).
    cbn [nsub nneg nadd]. rewrite !ndiv_Fin by assumption. reflexivity. }
  split; [exact Eoff |].
  split; [exact Hox0 |]. split; [exact Hox1 |].
  split; [exact Hoy0 |]. split; [exact Hoy1 |].
  split; [lra |]. split; [lra |].
  intros i l0 Hi.
  change (bgLayers bg') with
    (map (place_active (Fin p)
            (parallaxOffset (onMouseMove (Fin cx) (Fin cy) (Fin w) (Fin h) bg)))
         (bgLayers bg)).
  change (parallaxOffset (onMouseMove (Fin cx) (Fin cy) (Fin w) (Fin h) bg))
    with (parallaxOffset bg').
  rewrite nth_error_map, Hi, Eoff. cbn [option_map]. unfold place_active.
  destruct (layer_active l0) eqn:Ea; reflexivity.
Qed.

Lemma parallax_offset_bounded_witness :
  (0 < 1280)%Q /\ (0 < 720)%Q /\ (0 <= 1000)%Q /\ (1000 <= 1280)%Q /\
  (0 <= 100)%Q /\ (100 <= 720)%Q /\ (0 <= 0.5)%Q /\ (0.5 <= 1)%Q /\
  exists ox oy : Q,
    parallaxOffset
      (updateParallaxPosition (Fin 0.5)
         (onMouseMove (Fin 1000) (Fin 100) (Fin 1280) (Fin 720)
            (mkBgVars (Fin 0) [mkLayer true false None] (Fin 0, Fin 0) [] 0)))
      = (Fin ox, Fin oy) /\
    (-20 <= ox)%Q /\ (ox <= 20)%Q /\ (-20 <= oy)%Q /\ (oy <= 20)%Q.
Proof.
  assert (H1 : (0 < 1280)%Q) by reflexivity.
  assert (H2 : (0 < 720)%Q) by reflexivity.
  assert (H3 : (0 <= 1000)%Q) by (vm_compute; discriminate).
  assert (H4 : (1000 <= 1280)%Q) by (vm_compute; discriminate).
  assert (H5 : (0 <= 100)%Q) by (vm_compute; discriminate).
  assert (H6 : (100 <= 720)%Q) by (vm_compute; discriminate).
  assert (H7 : (0 <= 0.5)%Q) by (vm_compute; discriminate).
  assert (H8 : (0.5 <= 1)%Q) by (vm_compute; discriminate).
  repeat (split; [assumption |]).
  destruct (parallax_offset_bounded 1000 100 1280 720 0.5
              (mkBgVars (Fin 0) [mkLayer true false None] (Fin 0, Fin 0) [] 0)
              H1 H2 H3 H4 H5 H6 H7 H8)
    as (ox & oy & E & A & B & C & D & _).
  exists ox, oy. repeat split; assumption.
Defined.

(* ================================================================== *)
(** ** Model loading *)
(* ================================================================== *)

Lemma progress_events_keep (events : list (num * num)) (lv : LoadVars) :
  let lv' := fold_left (fun l e => onProgress e l) events lv in
  hide_scheduled lv' = hide_scheduled lv /\ mixer lv' = mixer lv.
Proof.
  revert lv. induction events as [| e events IH]; intro lv; [now split |].
  cbn [fold_left]. destruct (IH (onProgress e lv)) as [H1 H2].
  now rewrite H1, H2.
Qed.

Lemma progress_events_alt_keep (events : list (num * num)) (lv : LoadVars) :
  let lv' := fold_left (fun l e => onProgressAlternative e l) events lv in
  hide_scheduled lv' = hide_scheduled lv /\ mixer lv' = mixer lv.
Proof.
  revert lv. induction events as [| e events IH]; intro lv; [now split |].
  cbn [fold_left]. destruct (IH (onProgressAlternative e lv)) as [H1 H2].
  now rewrite H1, H2.
Qed.

(** X21: loading always completes, once: whatever progress events arrive
    (also with a total of 0) and however the main load and the fallback load
    end, hiding the loader is scheduled exactly once and the bar ends at 100
    percent.  The aircraft is there, at the pose of keyframe 0, unless both
    loads failed; a mixer is created only when the main load succeeded with
    at least one clip, so the clips of the fallback model are never played.
    Scroll, hand and control variables are not touched. *)
Theorem loading_always_completes
        (events events_alt : list (num * num)) (o o_alt : LoadOutcome)
        (st : State) (lv : LoadVars) :
  let r := loadModel events o events_alt o_alt st lv in
  hide_scheduled (snd r) = S (hide_scheduled lv) /\
  fill_width (snd r) = Fin 100 /\
  percent_label (snd r) = Fin 100 /\
  aircraft (scene (fst r)) =
    match o, o_alt with
    | LoadError, LoadError => aircraft (scene st)
    | _, _ => Some (mkPose (position hero) (rotation hero))
    end /\
  mixer (snd r) =
    match o with
    | LoadOk (Some (S n)) => Some (S n)
    | _ => mixer lv
    end /\
  scroll (fst r) = scroll st /\ hand (fst r) = hand st /\ ui (fst r) = ui st.
Proof.
  intro r. unfold r, loadModel, loadModelAlternative. cbv zeta.
  destruct (progress_events_keep events lv) as [H1 H2].
  set (lv1 := fold_left (fun l e => onProgress e l) events lv) in *.
  destruct (progress_events_alt_keep events_alt lv1) as [H3 H4].
  set (lv2 := fold_left (fun l e => onProgressAlternative e l) events_alt lv1) in *.
  destruct o as [[[| n] |] |]; [| | | destruct o_alt as [a |]];
    cbn [fst snd completeLoading updateLoadingProgress hide_scheduled fill_width
         percent_label mixer loadingProgress onModelLoaded scene aircraft scroll
         hand ui];
    rewrite ?H3, ?H4, ?H1, ?H2; repeat split.
Qed.

(* ================================================================== *)
(** ** More on the ease curve and on the scroll handler *)
(* ================================================================== *)

Lemma ease_spec_symmetric (t : Q) : (ease_spec (1 - t) == 1 - ease_spec t)%Q.
Proof.
  unfold ease_spec.
  destruct (Qle_bool_spec 0.5 (1 - t)) as [H1 | H1];
    destruct (Qle_bool_spec 0.5 t) as [H2 | H2]; rewrite !Qcube.
  - assert (E : (t == 0.5)%Q) by lra. rewrite E. reflexivity.
  - field.
  - field.
  - exfalso. lra.
Qed.

(** X22: the ease curve is point-symmetric about (1/2, 1/2):
    [ease(1 - t) = 1 - ease(t)] for every [t]; and its two branches meet at
    the switch point: the cubic [4 t^3] of the first branch gives at
    [t = 0.5] the value 0.5 that the second branch gives there, so the eased
    blend has no jump in the middle of a section. *)
Theorem ease_point_symmetric (t : Q) :
  num_eq (ease (Fin (1 - t))) (Fin 1 - ease (Fin t))%num /\
  num_eq (ease (Fin 0.5)) (Fin 0.5) /\
  num_eq (Fin 4 * Fin 0.5 * Fin 0.5 * Fin 0.5)%num (ease (Fin 0.5)).
Proof.
  split; [| split; vm_compute; reflexivity].
  destruct (ease_value (1 - t)) as (e1 & E1 & H1).
  destruct (ease_value t) as (e2 & E2 & H2).
  rewrite E1, E2. simpl. rewrite H1, H2, ease_spec_symmetric. ring.
Qed.

(** X23: the scroll handler keeps no history: whether it raises, and the
    field of view it leaves, depend on the event alone; when it does not
    raise, so do all six scroll variables (progress, section, camera and
    aircraft targets), whatever the state before; and handling the same event
    twice gives the same state as handling it once. *)
Theorem onScroll_keeps_no_history (sy sh ih : num) (st1 st2 : State) :
  snd (onScroll sy sh ih st1) = snd (onScroll sy sh ih st2) /\
  camera_fov (scene (fst (onScroll sy sh ih st1))) =
    camera_fov (scene (fst (onScroll sy sh ih st2))) /\
  (snd (onScroll sy sh ih st1) = None ->
   scroll (fst (onScroll sy sh ih st1)) = scroll (fst (onScroll sy sh ih st2))) /\
  onScroll sy sh ih (fst (onScroll sy sh ih st1)) = onScroll sy sh ih st1.
Proof.
  unfold onScroll. cbv zeta.
  destruct (nlt _ _);
    [destruct (array_get _ _); [destruct (array_get _ _) |] |
     destruct (array_get _ _)];
    (split; [reflexivity |]); (split; [reflexivity |]);
    (split; [first [reflexivity | discriminate] | reflexivity]).
Qed.
